(** * mqttui: the coordination core of the MQTT terminal browser

    A shallow embedding of [ui.go], [mqtt.go] and [main.go]: the UI state and
    its key handling, the topic catalog, the message stream with its scroll
    cursor, the discovered-topic accumulator of the MQTT client and the
    subscription diff of [App.Update].

    Conventions of the embedding:
    - Go's [int] is a 64-bit two's complement integer; it is modelled as [Z]
      and every [+] and [-] of the source goes through [GoInt.wrap].
    - [len] of a slice is the length of the list as a [Z]; Go guarantees that
      it is an [int], which theorems assume as [fits] where they need it.
    - [map[string]bool] is a [gmap string bool]; reading a missing key gives
      the zero value [false] ([go_get]).
    - [for k, v := range m] visits the entries of [m] in an order that Go
      leaves unspecified: the order is a parameter of the model
      ([RangeOrder]), and every theorem holds for every order.
    - Indexing a slice out of range panics: [handleKeyPress] and [Update]
      return [None] in that case.
    - Methods on [*UI] mutate their receiver: they are functions [UI -> UI].
      Rendering returns a string that is not modelled; [View] and the two
      [render...Pane] functions keep only their effect on the state. *)

From Stdlib Require Import ZArith Lia.
From stdpp Require Import base option list gmap strings sorting.

Local Open Scope Z_scope.

(** ** Go integers *)

Module GoInt.

Definition max_int : Z := 9223372036854775807.
Definition min_int : Z := -9223372036854775808.

(** The value of an arithmetic result once it is stored in an [int]. *)
Definition wrap (z : Z) : Z :=
  (z + 9223372036854775808) mod 18446744073709551616 - 9223372036854775808.

Definition add (x y : Z) : Z := wrap (x + y).
Definition sub (x y : Z) : Z := wrap (x - y).

Definition in_range (z : Z) : Prop := min_int <= z <= max_int.

End GoInt.

(** [len(l)] *)
Definition len {A : Type} (l : list A) : Z := Z.of_nat (length l).

(** A slice that a Go program can hold: its length is an [int]. *)
Definition fits {A : Type} (l : list A) : Prop := len l <= GoInt.max_int.

(** [l[i]]: [None] stands for the run-time panic "index out of range". *)
Definition go_index {A : Type} (l : list A) (i : Z) : option A :=
  if i <? 0 then None else l !! Z.to_nat i.

(** [m[k]] on a [map[string]bool]: the zero value when [k] is missing. *)
Definition go_get (m : gmap string bool) (k : string) : bool :=
  default false (m !! k).

(** ** Iteration order of [range] over a map *)

Record RangeOrder : Type := {
  range : gmap string bool -> list (string * bool);
  range_perm : forall m, range m ≡ₚ map_to_list m
}.

(** One possible order, used to run the model on concrete inputs. *)
Definition map_order : RangeOrder :=
  {| range := map_to_list; range_perm := fun m => reflexivity (map_to_list m) |}.

(** ** [sort.Strings]: ascending byte-wise lexicographic order *)

Definition sort_Strings (l : list string) : list string :=
  merge_sort String.le l.

(** ** ui.go *)

Inductive Pane : Type := TopicsPane | MessagesPane.

Record Message : Type := {
  Topic : string;
  Payload : string;
  Timestamp : Z
}.

Record UI : Type := {
  topics : list string;
  selectedTopic : Z;
  topicScroll : Z;
  subscribedTopics : gmap string bool;
  messages : list Message;
  messageScroll : Z;
  width : Z;
  height : Z;
  activePane : Pane;
  error : string
}.

Definition set_topics (v : list string) (u : UI) : UI :=
  {| topics := v; selectedTopic := selectedTopic u; topicScroll := topicScroll u;
     subscribedTopics := subscribedTopics u; messages := messages u;
     messageScroll := messageScroll u; width := width u; height := height u;
     activePane := activePane u; error := error u |}.

Definition set_selectedTopic (v : Z) (u : UI) : UI :=
  {| topics := topics u; selectedTopic := v; topicScroll := topicScroll u;
     subscribedTopics := subscribedTopics u; messages := messages u;
     messageScroll := messageScroll u; width := width u; height := height u;
     activePane := activePane u; error := error u |}.

Definition set_topicScroll (v : Z) (u : UI) : UI :=
  {| topics := topics u; selectedTopic := selectedTopic u; topicScroll := v;
     subscribedTopics := subscribedTopics u; messages := messages u;
     messageScroll := messageScroll u; width := width u; height := height u;
     activePane := activePane u; error := error u |}.

Definition set_subscribedTopics (v : gmap string bool) (u : UI) : UI :=
  {| topics := topics u; selectedTopic := selectedTopic u; topicScroll := topicScroll u;
     subscribedTopics := v; messages := messages u;
     messageScroll := messageScroll u; width := width u; height := height u;
     activePane := activePane u; error := error u |}.

Definition set_messages (v : list Message) (u : UI) : UI :=
  {| topics := topics u; selectedTopic := selectedTopic u; topicScroll := topicScroll u;
     subscribedTopics := subscribedTopics u; messages := v;
     messageScroll := messageScroll u; width := width u; height := height u;
     activePane := activePane u; error := error u |}.

Definition set_messageScroll (v : Z) (u : UI) : UI :=
  {| topics := topics u; selectedTopic := selectedTopic u; topicScroll := topicScroll u;
     subscribedTopics := subscribedTopics u; messages := messages u;
     messageScroll := v; width := width u; height := height u;
     activePane := activePane u; error := error u |}.

Definition set_size (w h : Z) (u : UI) : UI :=
  {| topics := topics u; selectedTopic := selectedTopic u; topicScroll := topicScroll u;
     subscribedTopics := subscribedTopics u; messages := messages u;
     messageScroll := messageScroll u; width := w; height := h;
     activePane := activePane u; error := error u |}.

Definition set_activePane (v : Pane) (u : UI) : UI :=
  {| topics := topics u; selectedTopic := selectedTopic u; topicScroll := topicScroll u;
     subscribedTopics := subscribedTopics u; messages := messages u;
     messageScroll := messageScroll u; width := width u; height := height u;
     activePane := v; error := error u |}.

Definition set_error (v : string) (u : UI) : UI :=
  {| topics := topics u; selectedTopic := selectedTopic u; topicScroll := topicScroll u;
     subscribedTopics := subscribedTopics u; messages := messages u;
     messageScroll := messageScroll u; width := width u; height := height u;
     activePane := activePane u; error := v |}.

(** [NewUI]: every field not listed in the composite literal is zero. *)
Definition NewUI : UI :=
  {| topics := []; selectedTopic := 0; topicScroll := 0;
     subscribedTopics := ∅; messages := []; messageScroll := 0;
     width := 0; height := 0; activePane := TopicsPane; error := "" |}.

Definition is_TopicsPane (p : Pane) : bool :=
  match p with TopicsPane => true | MessagesPane => false end.

Definition is_MessagesPane (p : Pane) : bool :=
  match p with TopicsPane => false | MessagesPane => true end.

(** [handleKeyPress]; [key] is [msg.String()]. *)
Definition handleKeyPress (u : UI) (key : string) : option UI :=
  if String.eqb key "tab" then
    Some (if is_TopicsPane (activePane u)
          then set_activePane MessagesPane u
          else set_activePane TopicsPane u)
  else if String.eqb key "up" || String.eqb key "k" then
    Some (if is_TopicsPane (activePane u) then
            if selectedTopic u >? 0
            then set_selectedTopic (GoInt.sub (selectedTopic u) 1) u else u
          else
            if messageScroll u >? 0
            then set_messageScroll (GoInt.sub (messageScroll u) 1) u else u)
  else if String.eqb key "down" || String.eqb key "j" then
    Some (if is_TopicsPane (activePane u) then
            if selectedTopic u <? GoInt.sub (len (topics u)) 1
            then set_selectedTopic (GoInt.add (selectedTopic u) 1) u else u
          else
            if messageScroll u <? GoInt.sub (len (messages u)) 1
            then set_messageScroll (GoInt.add (messageScroll u) 1) u else u)
  else if String.eqb key "enter" || String.eqb key " " then
    if is_TopicsPane (activePane u) && (len (topics u) >? 0) then
      match go_index (topics u) (selectedTopic u) with
      | None => None
      | Some topic =>
          Some (set_subscribedTopics
                  (<[topic := negb (go_get (subscribedTopics u) topic)]>
                     (subscribedTopics u)) u)
      end
    else Some u
  else if String.eqb key "r" then
    Some (set_messageScroll 0 (set_messages [] u))
  else Some u.

(** [SetTopics] *)
Definition SetTopics (new_topics : list string) (u : UI) : UI :=
  let sorted := sort_Strings new_topics in
  let u := set_topics sorted u in
  let u := if selectedTopic u >=? len sorted
           then set_selectedTopic (GoInt.sub (len sorted) 1) u else u in
  let u := if selectedTopic u <? 0 then set_selectedTopic 0 u else u in
  set_topicScroll 0 u.

(** [AddMessage] *)
Definition AddMessage (topic payload : string) (timestamp : Z) (u : UI) : UI :=
  let message := {| Topic := topic; Payload := payload; Timestamp := timestamp |} in
  let u := set_messages (messages u ++ [message]) u in
  if is_MessagesPane (activePane u)
     || (messageScroll u >=? GoInt.sub (len (messages u)) 5)
  then
    let u := set_messageScroll (GoInt.sub (len (messages u)) 1) u in
    if messageScroll u <? 0 then set_messageScroll 0 u else u
  else u.

(** [SetError] *)
Definition SetError (err : string) (u : UI) : UI := set_error err u.

(** [updateTopicScroll] *)
Definition updateTopicScroll (visibleLines : Z) (u : UI) : UI :=
  if len (topics u) =? 0 then set_topicScroll 0 u
  else
    let u := if selectedTopic u <? 0 then set_selectedTopic 0 u else u in
    let u := if selectedTopic u >=? len (topics u)
             then set_selectedTopic (GoInt.sub (len (topics u)) 1) u else u in
    let u := if selectedTopic u <? topicScroll u
             then set_topicScroll (selectedTopic u) u
             else if selectedTopic u >=? GoInt.add (topicScroll u) visibleLines
             then set_topicScroll
                    (GoInt.add (GoInt.sub (selectedTopic u) visibleLines) 1) u
             else u in
    let u := if topicScroll u <? 0 then set_topicScroll 0 u else u in
    let maxScroll := GoInt.sub (len (topics u)) visibleLines in
    let maxScroll := if maxScroll <? 0 then 0 else maxScroll in
    if topicScroll u >? maxScroll then set_topicScroll maxScroll u else u.

(** The number of list rows of a pane of the given height
    ([availableLines] in both render functions). *)
Definition availableLines (pane_height : Z) : Z :=
  let n := GoInt.sub pane_height 3 in
  if n <? 1 then 1 else n.

(** [renderTopicsPane]: its effect on the state. *)
Definition renderTopicsPane (pane_height : Z) (u : UI) : UI :=
  if len (topics u) =? 0 then u
  else updateTopicScroll (availableLines pane_height) u.

(** [renderMessagesPane]: its effect on the state. *)
Definition renderMessagesPane (pane_height : Z) (u : UI) : UI :=
  if len (messages u) =? 0 then u
  else
    let maxScroll := GoInt.sub (len (messages u)) (availableLines pane_height) in
    let maxScroll := if maxScroll <? 0 then 0 else maxScroll in
    let u := if messageScroll u >? maxScroll
             then set_messageScroll maxScroll u else u in
    if messageScroll u <? 0 then set_messageScroll 0 u else u.

(** The half-open range [startIdx, endIdx) of the messages that
    [renderMessagesPane] draws, read after its scroll correction. *)
Definition messagesWindow (pane_height : Z) (u : UI) : Z * Z :=
  let startIdx := messageScroll u in
  let endIdx := GoInt.add startIdx (availableLines pane_height) in
  (startIdx, if endIdx >? len (messages u) then len (messages u) else endIdx).

(** [availableHeight] of [View]: the height left to the two panes by the
    title and the help line. *)
Definition availableHeight (totalHeight : Z) : Z :=
  let h := GoInt.sub totalHeight 4 in
  if h <? 10 then 10 else h.

(** [View]: its effect on the state. The widths of the panes only shape
    the rendered text. *)
Definition View (u : UI) : UI :=
  if (width u =? 0) || (height u =? 0) then u
  else
    renderMessagesPane (availableHeight (height u))
      (renderTopicsPane (availableHeight (height u)) u).

(** ** Messages and commands of the event loop (mqtt.go, main.go) *)

(** The [tea.Msg] values that [Update] distinguishes. A Go [error] is
    modelled by its text, a [time.Time] by an integer. No case of the
    switches matches [MQTTDisconnectedMsg]: it is handled as every other
    message type is. *)
Inductive Msg : Type :=
| WindowSizeMsg (Width Height : Z)
| KeyMsg (key : string)
| MQTTConnectedMsg
| MQTTDisconnectedMsg
| MQTTTopicsDiscoveredMsg (Topics : list string)
| MQTTMessageMsg (Topic Payload : string) (Timestamp : Z)
| MQTTErrorMsg (Error : string).

(** The [tea.Cmd] values that [Init] and [Update] hand to the runtime,
    named after the functions that build them. *)
Inductive Cmd : Type :=
| Quit
| ConnectCmd
| DiscoverTopicsCmd
| subscribeToTopicCmd (topic : string)
| unsubscribeFromTopicCmd (topic : string).

Global Instance Cmd_eq_dec : EqDecision Cmd.
Proof. solve_decision. Defined.

(** [UI.Update] *)
Definition UI_Update (u : UI) (msg : Msg) : option UI :=
  match msg with
  | WindowSizeMsg w h => Some (set_size w h u)
  | KeyMsg key => handleKeyPress u key
  | _ => Some u
  end.

(** The part of [MQTTClient] that the program reads and writes:
    [isConnected] is the answer of [client.IsConnected()], [program] tells
    whether [SetProgram] has been called. *)
Record MQTTClient : Type := {
  isConnected : bool;
  discoveredTopics : gmap string bool;
  program : bool
}.

Record App : Type := {
  mqtt : option MQTTClient;
  ui : UI;
  quitting : bool
}.

Definition set_ui (v : UI) (a : App) : App :=
  {| mqtt := mqtt a; ui := v; quitting := quitting a |}.

(** [NewMQTTClient]: no topic discovered, no program attached; the client
    is not connected before [ConnectCmd] runs. *)
Definition NewMQTTClient : MQTTClient :=
  {| isConnected := false; discoveredTopics := ∅; program := false |}.

(** [SetProgram] *)
Definition SetProgram (m : MQTTClient) : MQTTClient :=
  {| isConnected := isConnected m; discoveredTopics := discoveredTopics m;
     program := true |}.

(** [messageHandler]: the message posted to the program, if any. *)
Definition messageHandler (m : MQTTClient) (topic payload : string) (now : Z)
  : option Msg :=
  if program m then Some (MQTTMessageMsg topic payload now) else None.

(** [connectHandler]: the message posted to the program, if any, when the
    client library reports the connection. *)
Definition connectHandler (m : MQTTClient) : option Msg :=
  if program m then Some MQTTConnectedMsg else None.

(** [connectionLostHandler]: the error of the lost connection is posted to
    the program, if any. *)
Definition connectionLostHandler (m : MQTTClient) (err : string) : option Msg :=
  if program m then Some (MQTTErrorMsg err) else None.

(** [discoveryHandler]: records the topic, then handles the message as a
    regular one. *)
Definition discoveryHandler (m : MQTTClient) (topic payload : string) (now : Z)
  : MQTTClient * option Msg :=
  let m := {| isConnected := isConnected m;
              discoveredTopics := <[topic := true]> (discoveredTopics m);
              program := program m |} in
  (m, messageHandler m topic payload now).

(** [Disconnect] *)
Definition Disconnect (m : MQTTClient) : MQTTClient :=
  {| isConnected := false; discoveredTopics := discoveredTopics m;
     program := program m |}.

(** Running the closure of [ConnectCmd]; [err] is the error of the
    connect token, if any. *)
Definition run_ConnectCmd (err : option string) : Msg :=
  match err with
  | Some e => MQTTErrorMsg e
  | None => MQTTConnectedMsg
  end.

(** Running the closure of [subscribeToTopicCmd]; [None] is the [nil]
    message of a successful subscription. *)
Definition run_subscribeToTopicCmd (topic : string) (err : option string)
  : option Msg :=
  match err with
  | Some e => Some (MQTTErrorMsg ("failed to subscribe to " +:+ topic +:+ ": " +:+ e))
  | None => None
  end.

(** Running the closure of [unsubscribeFromTopicCmd]. *)
Definition run_unsubscribeFromTopicCmd (topic : string) (err : option string)
  : option Msg :=
  match err with
  | Some e => Some (MQTTErrorMsg ("failed to unsubscribe from " +:+ topic +:+ ": " +:+ e))
  | None => None
  end.

Section WithRangeOrder.

Context (R : RangeOrder).

(** [GetSubscribedTopics] *)
Definition GetSubscribedTopics (u : UI) : list string :=
  foldl (fun (subscribed : list string) (kv : string * bool) =>
           if kv.2 then subscribed ++ [kv.1] else subscribed)
        [] (range R (subscribedTopics u)).

(** Running the closure of [DiscoverTopicsCmd] on the client as it is
    after the collection delay; [err] is the error of the wildcard
    subscription, if any. *)
Definition run_DiscoverTopicsCmd (m : MQTTClient) (err : option string) : Msg :=
  match err with
  | Some e => MQTTErrorMsg e
  | None =>
      MQTTTopicsDiscoveredMsg
        (foldl (fun (topics : list string) (kv : string * bool) => topics ++ [kv.1]) []
               (range R (discoveredTopics m)))
  end.

(** [GetDiscoveredTopics] *)
Definition GetDiscoveredTopics (m : MQTTClient) : list string :=
  foldl (fun (topics : list string) (kv : string * bool) => topics ++ [kv.1]) [] (range R (discoveredTopics m)).

(** The maps [oldMap] and [newMap] of [handleSubscriptionChanges]. *)
Definition topic_set (l : list string) : gmap string bool :=
  foldl (fun (m : gmap string bool) (topic : string) => <[topic := true]> m) ∅ l.

(** [handleSubscriptionChanges] *)
Definition handleSubscriptionChanges (oldSubscribed newSubscribed : list string)
  : list Cmd :=
  let oldMap := topic_set oldSubscribed in
  let newMap := topic_set newSubscribed in
  let cmds :=
    foldl (fun (cmds : list Cmd) (kv : string * bool) =>
             if negb (go_get oldMap kv.1)
             then cmds ++ [subscribeToTopicCmd kv.1] else cmds)
          [] (range R newMap) in
  foldl (fun (cmds : list Cmd) (kv : string * bool) =>
           if negb (go_get newMap kv.1)
           then cmds ++ [unsubscribeFromTopicCmd kv.1] else cmds)
        cmds (range R oldMap).

(** [App.Init] *)
Definition Init (a : App) : list Cmd :=
  match mqtt a with
  | Some _ => [ConnectCmd]
  | None => []
  end.

Definition is_quit_key (key : string) : bool :=
  String.eqb key "ctrl+c" || String.eqb key "q".

(** [a.mqtt != nil && a.mqtt.IsConnected()] *)
Definition connected (a : App) : bool :=
  match mqtt a with
  | Some m => isConnected m
  | None => false
  end.

(** The end of [App.Update], after its [switch]: the UI handles the
    message, then the subscribed topics before and after are compared
    if the client is connected. [cmds] holds the commands collected by
    the [switch]. *)
Definition update_ui_and_subscriptions (a : App) (cmds : list Cmd) (msg : Msg)
  : option (App * list Cmd) :=
  let oldSubscribed := GetSubscribedTopics (ui a) in
  u ← UI_Update (ui a) msg;
  let a := set_ui u a in
  Some (a,
        if connected a
        then cmds ++ handleSubscriptionChanges oldSubscribed
                       (GetSubscribedTopics (ui a))
        else cmds).

(** [App.Update]; the batch of commands it returns is a list. *)
Definition Update (a : App) (msg : Msg) : option (App * list Cmd) :=
  match msg with
  | WindowSizeMsg _ _ =>
      u ← UI_Update (ui a) msg;
      Some (set_ui u a, [])
  | KeyMsg key =>
      if is_quit_key key then
        Some ({| mqtt := Disconnect <$> mqtt a; ui := ui a; quitting := true |},
              [Quit])
      else update_ui_and_subscriptions a [] msg
  | MQTTConnectedMsg =>
      update_ui_and_subscriptions a
        (match mqtt a with Some _ => [DiscoverTopicsCmd] | None => [] end) msg
  | MQTTTopicsDiscoveredMsg new_topics =>
      update_ui_and_subscriptions (set_ui (SetTopics new_topics (ui a)) a) [] msg
  | MQTTMessageMsg topic payload timestamp =>
      update_ui_and_subscriptions
        (set_ui (AddMessage topic payload timestamp (ui a)) a) [] msg
  | MQTTErrorMsg err =>
      update_ui_and_subscriptions
        (set_ui (SetError ("MQTT Error: " +:+ err) (ui a)) a) [] msg
  | MQTTDisconnectedMsg =>
      update_ui_and_subscriptions a [] msg
  end.

End WithRangeOrder.

(** * The rest of ui.go, main.go and mqtt.go *)

(** ** ui.go: what the panes show *)

(** [len(s)] of a string: its number of bytes. *)
Definition slen (s : string) : Z := Z.of_nat (String.length s).

(** [s[:n]]: [None] stands for the run-time panic "slice bounds out of
    range". *)
Definition go_prefix (s : string) (n : Z) : option string :=
  if (0 <=? n) && (n <=? slen s) then Some (String.substring 0 (Z.to_nat n) s) else None.

(** [strings.Join] *)
Definition Join (l : list string) (sep : string) : string := String.concat sep l.

(** The text of a topic in [renderTopicsPane]: [displayTopic], for a
    pane of the given width. *)
Definition displayTopic (pane_width : Z) (topic : string) : option string :=
  let maxTopicLen := GoInt.sub pane_width 8 in
  let maxTopicLen := if maxTopicLen <? 10 then 10 else maxTopicLen in
  if slen topic >? maxTopicLen then
    cut ← go_prefix topic (GoInt.sub maxTopicLen 3);
    Some (cut +:+ "...")
  else Some topic.

(** An item of the topic pane: its text, and whether it is rendered in the
    style [SelectedItem] rather than [UnselectedItem]. *)
Record TopicRow : Type := {
  row_text : string;
  row_selected : bool
}.

(** The body of the loop of [renderTopicsPane] for the index [i]. *)
Definition topicRow (pane_width : Z) (u : UI) (i : Z) : option TopicRow :=
  topic ← go_index (topics u) i;
  let prefix := if go_get (subscribedTopics u) topic then "✓ " else "  " in
  shown ← displayTopic pane_width topic;
  Some {| row_text := prefix +:+ shown;
          row_selected := (i =? selectedTopic u) && is_TopicsPane (activePane u) |}.

(** The half-open range [startIdx, endIdx) of the topics that
    [renderTopicsPane] draws, read after [updateTopicScroll]. *)
Definition topicsWindow (pane_height : Z) (u : UI) : Z * Z :=
  let startIdx := topicScroll u in
  let endIdx := GoInt.add startIdx (availableLines pane_height) in
  (startIdx, if endIdx >? len (topics u) then len (topics u) else endIdx).

(** What [renderTopicsPane] puts in the pane. *)
Record TopicsPaneView : Type := {
  pane_items : list TopicRow;
  pane_more_above : bool;
  pane_more_below : bool
}.

(** [renderTopicsPane]: the state it leaves and the items and scroll
    indicators it draws; [None] if an index is out of range. *)
Definition renderTopicsPane_view (pane_width pane_height : Z) (u : UI)
  : option (UI * TopicsPaneView) :=
  if len (topics u) =? 0 then
    Some (u, {| pane_items := [{| row_text := "No topics discovered yet...";
                                  row_selected := false |}];
                pane_more_above := false; pane_more_below := false |})
  else
    let u := updateTopicScroll (availableLines pane_height) u in
    let '(startIdx, endIdx) := topicsWindow pane_height u in
    items ← mapM (topicRow pane_width u) (seqZ startIdx (endIdx - startIdx));
    Some (u, {| pane_items := items;
                pane_more_above := topicScroll u >? 0;
                pane_more_below := endIdx <? len (topics u) |}).

(** The widths that [View] gives the two panes. [/] on [int] truncates
    toward zero. *)
Definition topicsWidth (totalWidth : Z) : Z :=
  let w := Z.quot totalWidth 3 in
  if w <? 20 then 20 else w.

Definition messagesWidth (totalWidth : Z) : Z :=
  let w := GoInt.sub (GoInt.sub totalWidth (topicsWidth totalWidth)) 2 in
  if w <? 30 then 30 else w.

(** ** ui.go: [wrapText] *)

(** The state of the loop of [wrapText]: [lines], [currentLine] and
    [currentLength]. *)
Definition WrapState : Type := list string * list string * Z.

(** The body of the loop of [wrapText] for one word. *)
Definition wrap_step (width : Z) (st : WrapState) (word : string)
  : option WrapState :=
  let '(lines, currentLine, currentLength) := st in
  if GoInt.add (GoInt.add currentLength (slen word)) (len currentLine) >? width then
    if len currentLine >? 0 then
      Some (lines ++ [Join currentLine " "], [word], slen word)
    else
      cut ← go_prefix word width;
      Some (lines ++ [cut], [], 0)
  else
    Some (lines, currentLine ++ [word], GoInt.add currentLength (slen word)).

Fixpoint wrap_loop (width : Z) (st : WrapState) (words : list string)
  : option WrapState :=
  match words with
  | [] => Some st
  | word :: words =>
      st' ← wrap_step width st word;
      wrap_loop width st' words
  end.

(** [wrapText]. [Fields] is [strings.Fields], which splits a text around
    its white space. *)
Definition wrapText (Fields : string -> list string) (text : string) (width : Z)
  : option (list string) :=
  if width <=? 0 then Some [text]
  else
    let words := Fields text in
    if len words =? 0 then Some [text]
    else
      st ← wrap_loop width ([], [], 0) words;
      let '(lines, currentLine, _) := st in
      Some (if len currentLine >? 0
            then lines ++ [Join currentLine " "] else lines).

(** ** main.go: configuration *)

(** [os.Getenv] on an environment: the empty string for a variable that
    is not set. *)
Definition Getenv (env : gmap string string) (key : string) : string :=
  default "" (env !! key).

(** [getEnvOrDefault] *)
Definition getEnvOrDefault (env : gmap string string) (key defaultValue : string)
  : string :=
  let value := Getenv env key in
  if negb (String.eqb value "") then value else defaultValue.

Record Config : Type := {
  BrokerURL : string;
  Username : string;
  Password : string;
  ClientID : string
}.

(** The configuration that [NewApp] reads from the environment. *)
Definition NewApp_config (env : gmap string string) : Config :=
  {| BrokerURL := getEnvOrDefault env "MQTT_BROKER" "tcp://localhost:1883";
     Username := getEnvOrDefault env "MQTT_USERNAME" "";
     Password := getEnvOrDefault env "MQTT_PASSWORD" "";
     ClientID := getEnvOrDefault env "MQTT_CLIENT_ID" "mqttui" |}.

(** [NewApp]: [NewMQTTClient] returns no error, so the client is always
    there; the configuration is [NewApp_config]. *)
Definition NewApp : App :=
  {| mqtt := Some NewMQTTClient; ui := NewUI; quitting := false |}.

(** * Vocabulary of the specification *)

(** ** Predicates on states *)

(** The keys of the transitions of the navigation state machine. *)
Definition is_up_key (key : string) : Prop := key = "up" \/ key = "k".
Definition is_down_key (key : string) : Prop := key = "down" \/ key = "j".
Definition is_toggle_key (key : string) : Prop := key = "enter" \/ key = " ".

(** The Selection Index points into the catalog. *)
Definition selection_valid (u : UI) : Prop :=
  0 <= selectedTopic u < len (topics u).

(** The message cursor lies in [0, L-1], and is 0 for an empty stream. *)
Definition message_cursor_ok (u : UI) : Prop :=
  0 <= messageScroll u <= Z.max 0 (len (messages u) - 1).

(** The Scroll Cursor is on one of the last five positions of the stream
    as it is before a message is appended. *)
Definition within_last_5_positions (u : UI) : Prop :=
  len (messages u) - 5 <= messageScroll u <= len (messages u) - 1.

(** The message at index [i] lies in the window [w]. *)
Definition in_window (w : Z * Z) (i : Z) : Prop := w.1 <= i < w.2.

(** The topic Scroll Cursor lies in [0, max(0, N - V)] for the catalog
    length [N] and the visible capacity [V] of a pane of the given height. *)
Definition scroll_clamped (pane_height : Z) (u : UI) : Prop :=
  0 <= topicScroll u
  <= Z.max 0 (len (topics u) - availableLines pane_height).

(** The invariants of the data model: the catalog and the stream are Go
    slices, the Selection Index is in [0, N-1] (0 for an empty catalog),
    the message cursor is in [0, L-1] (0 for an empty stream), and the
    topic cursor of an empty catalog is 0. *)
Definition ui_invariant (u : UI) : Prop :=
  fits (topics u)
  /\ fits (messages u)
  /\ 0 <= selectedTopic u <= Z.max 0 (len (topics u) - 1)
  /\ message_cursor_ok u
  /\ (topics u = [] -> topicScroll u = 0).

(** ** Operations on the topic pane *)

(** [MoveUp] and [MoveDown] are the key presses "up" and "down",
    [ReplaceCatalog] is [SetTopics]. *)
Inductive NavOp : Type :=
| MoveUp
| MoveDown
| ReplaceCatalog (new_topics : list string).

Definition nav (op : NavOp) (u : UI) : option UI :=
  match op with
  | MoveUp => handleKeyPress u "up"
  | MoveDown => handleKeyPress u "down"
  | ReplaceCatalog new_topics => Some (SetTopics new_topics u)
  end.

(** Every operation is followed by the render of the topic pane, in a pane
    of height [pane_height]. *)
Fixpoint run_nav (pane_height : Z) (ops : list NavOp) (u : UI) : option UI :=
  match ops with
  | [] => Some u
  | op :: ops =>
      u' ← nav op u;
      run_nav pane_height ops (renderTopicsPane pane_height u')
  end.

(** The catalogs that a sequence of operations installs are Go slices. *)
Definition op_fits (op : NavOp) : Prop :=
  match op with
  | ReplaceCatalog new_topics => fits new_topics
  | _ => True
  end.

(** ** The topic registry *)

(** A discovery: the topic, the payload and the arrival time of a message
    delivered to [discoveryHandler]. *)
Definition Discovery : Type := string * string * Z.

(** [observe(topic)] for each discovery in turn; the mutex of the client
    makes the calls of [discoveryHandler] take effect one after the other. *)
Definition observe_all (m : MQTTClient) (obs : list Discovery) : MQTTClient :=
  foldl (fun (m : MQTTClient) (o : Discovery) =>
           (discoveryHandler m o.1.1 o.1.2 o.2).1) m obs.

(** The topics of a sequence of discoveries. *)
Definition observed (obs : list Discovery) : list string :=
  (fun o : Discovery => o.1.1) <$> obs.

(** ** The event loop *)

(** One turn of the event loop of the runtime: [Update] handles the
    message, then [View] renders the new state. *)
Definition loop_step (R : RangeOrder) (a : App) (msg : Msg)
  : option (App * list Cmd) :=
  match Update R a msg with
  | Some (a', cmds) => Some (set_ui (View (ui a')) a', cmds)
  | None => None
  end.

(** The event loop on a sequence of messages, with the commands issued on
    the way. *)
Fixpoint run_loop (R : RangeOrder) (msgs : list Msg) (a : App)
  : option (App * list Cmd) :=
  match msgs with
  | [] => Some (a, [])
  | msg :: msgs =>
      match loop_step R a msg with
      | Some (a', cmds) =>
          match run_loop R msgs a' with
          | Some (a'', cmds') => Some (a'', cmds ++ cmds')
          | None => None
          end
      | None => None
      end
  end.

(** The slices that handling a message builds are Go slices: their length
    is an [int]. *)
Definition msg_fits (u : UI) (msg : Msg) : Prop :=
  match msg with
  | MQTTTopicsDiscoveredMsg new_topics => fits new_topics
  | MQTTMessageMsg _ _ _ => len (messages u) + 1 <= GoInt.max_int
  | _ => True
  end.

(** The states of the application that the event loop reaches from a
    fresh UI. *)
Inductive reachable (R : RangeOrder) : App -> Prop :=
| reachable_init (a : App) :
    ui a = NewUI -> reachable R a
| reachable_step (a : App) (msg : Msg) (a' : App) (cmds : list Cmd) :
    reachable R a ->
    msg_fits (ui a) msg ->
    loop_step R a msg = Some (a', cmds) ->
    reachable R a'.

(** ** Sample states *)

(** The desired Subscription Set [{A: true, B: false, C: true}]. *)
Definition desired_ABC : gmap string bool :=
  <["A" := true]> (<["B" := false]> (<["C" := true]> ∅)).

(** A client that reports itself connected, and one that does not. *)
Definition client_up : MQTTClient :=
  {| isConnected := true; discoveredTopics := ∅; program := true |}.

Definition client_down : MQTTClient :=
  {| isConnected := false; discoveredTopics := ∅; program := true |}.

Definition app_of (m : MQTTClient) (u : UI) : App :=
  {| mqtt := Some m; ui := u; quitting := false |}.

(** The catalog holds the single topic [A], selected and not yet toggled. *)
Definition ui_A : UI := SetTopics ["A"] NewUI.

(** The same with the desired flag of [A] set. *)
Definition ui_A_wanted : UI := set_subscribedTopics {["A" := true]} ui_A.

(** The catalog [A, B, C] with the desired Subscription Set
    [{A: true, B: false, C: true}]. *)
Definition ui_ABC : UI :=
  set_subscribedTopics desired_ABC (SetTopics ["A"; "B"; "C"] NewUI).

(** Ten messages, the Topics pane focused, the cursor five positions
    before the end. *)
Definition ui_back5 : UI :=
  set_messageScroll 5
    (set_messages (replicate 10 {| Topic := "t"; Payload := "p"; Timestamp := 0 |})
       NewUI).

(** A catalog of twelve topics, more than the seven rows of a pane of
    height 10. *)
Definition twelve_topics : list string :=
  ["t00"; "t01"; "t02"; "t03"; "t04"; "t05";
   "t06"; "t07"; "t08"; "t09"; "t10"; "t11"].

(** A connected application in a window of 80 columns and 24 rows whose
    catalog is [a/1, b/2]. *)
Definition app_two_topics : App :=
  app_of client_up (set_size 80 24 (SetTopics ["b/2"; "a/1"] NewUI)).

(** A connected application with a fresh UI. *)
Definition fresh_app : App := app_of client_up NewUI.

(** The window size becomes known, then five messages arrive. *)
Definition size_then_five_messages : list Msg :=
  WindowSizeMsg 80 24 :: replicate 5 (MQTTMessageMsg "t" "p" 0).

(** Samples for the properties of the panes. *)

(** Twelve topics of which the eleventh is selected, before any render. *)
Definition ui_twelve_sel10 : UI :=
  set_selectedTopic 10 (SetTopics twelve_topics NewUI).

(** Twenty messages with the cursor on the bottom window of a pane of
    seven rows, the Topics pane focused, in a window of 80 by 11. *)
Definition ui_full_window : UI :=
  set_size 80 11
    (set_messageScroll 13
       (set_messages (replicate 20 {| Topic := "t"; Payload := "p"; Timestamp := 0 |})
          NewUI)).

(** The three stages of [updateTopicScroll] on a catalog that is not
    empty: the selection is put in bounds, the cursor follows the
    selection, the cursor is put in bounds. *)
Definition scroll_stage_selection (u : UI) : UI :=
  let u := if selectedTopic u <? 0 then set_selectedTopic 0 u else u in
  if selectedTopic u >=? len (topics u)
  then set_selectedTopic (GoInt.sub (len (topics u)) 1) u else u.

Definition scroll_stage_follow (visibleLines : Z) (u : UI) : UI :=
  if selectedTopic u <? topicScroll u
  then set_topicScroll (selectedTopic u) u
  else if selectedTopic u >=? GoInt.add (topicScroll u) visibleLines
  then set_topicScroll
         (GoInt.add (GoInt.sub (selectedTopic u) visibleLines) 1) u
  else u.

Definition scroll_stage_bounds (visibleLines : Z) (u : UI) : UI :=
  let u := if topicScroll u <? 0 then set_topicScroll 0 u else u in
  let maxScroll := GoInt.sub (len (topics u)) visibleLines in
  let maxScroll := if maxScroll <? 0 then 0 else maxScroll in
  if topicScroll u >? maxScroll then set_topicScroll maxScroll u else u.

(** The bytes of a list of words. *)
Definition total_len (words : list string) : Z :=
  foldr (fun (w : string) (acc : Z) => slen w + acc) 0 words.

(** A text that a Go program can hold: its words and the spaces between
    them fit an [int]. *)
Definition text_fits (words : list string) : Prop :=
  total_len words + len words <= GoInt.max_int.

(** The invariant of the loop of [wrapText]: [currentLength] is the number
    of bytes of the words of [currentLine], and what is left to read fits
    an [int]. *)
Definition wrap_invariant (st : WrapState) (rest : list string) : Prop :=
  let '(_, currentLine, currentLength) := st in
  currentLength = total_len currentLine
  /\ text_fits (currentLine ++ rest).

(** A line of [wrapText] made of whole words: it is not empty and, joined
    by single spaces, at most [width] bytes long. *)
Definition line_ok (width : Z) (g : list string) : Prop :=
  g <> [] /\ slen (Join g " ") <= width.

(** * Proof automation *)

(** Side conditions on the range of Go integers. *)
Ltac range_lia :=
  unfold fits in *;
  unfold GoInt.in_range, GoInt.min_int, GoInt.max_int in *; lia.

(** Case analysis on the integer comparisons of the goal. *)
Ltac bool_cases :=
  repeat match goal with
    | |- context [Z.ltb ?x ?y] => destruct (Z.ltb_spec x y)
    | |- context [Z.leb ?x ?y] => destruct (Z.leb_spec x y)
    | |- context [Z.eqb ?x ?y] => destruct (Z.eqb_spec x y)
    | |- context [Z.gtb ?x ?y] => rewrite (Z.gtb_ltb x y)
    | |- context [Z.geb ?x ?y] => rewrite (Z.geb_leb x y)
    end.

(** * Properties *)

(** ** Go integers *)

Lemma wrap_small (z : Z) : GoInt.in_range z -> GoInt.wrap z = z.
Proof.
  unfold GoInt.in_range, GoInt.min_int, GoInt.max_int, GoInt.wrap.
  intros Hz. rewrite Z.mod_small; lia.
Qed.

Lemma wrap_in_range (z : Z) : GoInt.in_range (GoInt.wrap z).
Proof.
  unfold GoInt.in_range, GoInt.min_int, GoInt.max_int, GoInt.wrap.
  pose proof (Z.mod_pos_bound (z + 9223372036854775808) 18446744073709551616).
  lia.
Qed.

Lemma sub_small (x y : Z) : GoInt.in_range (x - y) -> GoInt.sub x y = x - y.
Proof. apply wrap_small. Qed.

Lemma add_small (x y : Z) : GoInt.in_range (x + y) -> GoInt.add x y = x + y.
Proof. apply wrap_small. Qed.

Lemma len_nonneg {A : Type} (l : list A) : 0 <= len l.
Proof. unfold len. lia. Qed.

Lemma len_app {A : Type} (l k : list A) : len (l ++ k) = len l + len k.
Proof. unfold len. rewrite length_app. lia. Qed.

Lemma len_nil_iff {A : Type} (l : list A) : len l = 0 <-> l = [].
Proof.
  unfold len. destruct l as [|x l]; simpl; split; intros H; try done; lia.
Qed.

(** ** Loops that append to a slice *)

Lemma foldl_snoc_filter {A B : Type} (p : A -> bool) (f : A -> B)
    (l : list A) (acc : list B) :
  foldl (fun acc x => if p x then acc ++ [f x] else acc) acc l
  = acc ++ (f <$> filter (fun x => p x = true) l).
Proof.
  revert acc. induction l as [|x l IH]; intros acc; simpl.
  - by rewrite app_nil_r.
  - rewrite IH. rewrite filter_cons. destruct (p x) eqn:Hp.
    + rewrite decide_True by done. by rewrite <- app_assoc.
    + rewrite decide_False by congruence. done.
Qed.

Lemma foldl_snoc_all {A B : Type} (f : A -> B) (l : list A) (acc : list B) :
  foldl (fun acc x => acc ++ [f x]) acc l = acc ++ (f <$> l).
Proof.
  revert acc. induction l as [|x l IH]; intros acc; simpl.
  - by rewrite app_nil_r.
  - rewrite IH. by rewrite <- app_assoc.
Qed.

(** ** Iterating over a map *)

Lemma elem_of_range (R : RangeOrder) (m : gmap string bool) (k : string) (v : bool) :
  (k, v) ∈ range R m <-> m !! k = Some v.
Proof. rewrite (range_perm R m). apply elem_of_map_to_list. Qed.

Lemma NoDup_fst_range (R : RangeOrder) (m : gmap string bool) :
  NoDup ((range R m).*1).
Proof. rewrite (range_perm R m). apply NoDup_fst_map_to_list. Qed.

Lemma NoDup_fst_filter_range (R : RangeOrder) (m : gmap string bool)
    (P : string * bool -> Prop) `{!forall kv, Decision (P kv)} :
  NoDup ((filter P (range R m)).*1).
Proof.
  eapply sublist_NoDup; [apply (NoDup_fst_range R m)|].
  apply fmap_sublist, sublist_filter.
Qed.

Lemma topic_set_lookup_acc (l : list string) (m : gmap string bool) (t : string) :
  foldl (fun (m : gmap string bool) (topic : string) => <[topic := true]> m) m l !! t
  = if decide (t ∈ l) then Some true else m !! t.
Proof.
  revert m. induction l as [|x l IH]; intros m; cbn [foldl].
  - case_decide as Hin; [|done]. by apply elem_of_nil in Hin.
  - rewrite IH. repeat case_decide; try done.
    + exfalso. match goal with H : _ ∉ _ :: _ |- _ => apply H end.
      by apply list_elem_of_further.
    + match goal with H : _ ∈ _ :: _ |- _ => apply elem_of_cons in H as [->|?] end;
        [apply lookup_insert_eq|done].
    + apply lookup_insert_ne. intros ->.
      match goal with H : _ ∉ _ :: _ |- _ => apply H end. apply list_elem_of_here.
Qed.

Lemma topic_set_lookup (l : list string) (t : string) :
  topic_set l !! t = if decide (t ∈ l) then Some true else None.
Proof. unfold topic_set. rewrite topic_set_lookup_acc. by rewrite lookup_empty. Qed.

Lemma go_get_topic_set (l : list string) (t : string) :
  go_get (topic_set l) t = bool_decide (t ∈ l).
Proof.
  unfold go_get. rewrite topic_set_lookup.
  destruct (decide (t ∈ l)) as [H|H].
  - by rewrite bool_decide_eq_true_2.
  - by rewrite bool_decide_eq_false_2.
Qed.

(** ** [GetSubscribedTopics] *)

Lemma GetSubscribedTopics_eq (R : RangeOrder) (u : UI) :
  GetSubscribedTopics R u
  = (filter (fun kv : string * bool => kv.2 = true) (range R (subscribedTopics u))).*1.
Proof. unfold GetSubscribedTopics. by rewrite foldl_snoc_filter. Qed.

Lemma elem_of_GetSubscribedTopics (R : RangeOrder) (u : UI) (t : string) :
  t ∈ GetSubscribedTopics R u <-> subscribedTopics u !! t = Some true.
Proof.
  rewrite GetSubscribedTopics_eq, list_elem_of_fmap. split.
  - intros [[k v] [-> Hin]]. apply list_elem_of_filter in Hin as [Hv Hin].
    simpl in *. subst v. by apply elem_of_range in Hin.
  - intros Hl. exists (t, true). split; [done|].
    apply list_elem_of_filter. split; [done|]. by apply elem_of_range.
Qed.

Lemma NoDup_GetSubscribedTopics (R : RangeOrder) (u : UI) :
  NoDup (GetSubscribedTopics R u).
Proof. rewrite GetSubscribedTopics_eq. apply NoDup_fst_filter_range. Qed.

(** ** [handleSubscriptionChanges] *)

Lemma handleSubscriptionChanges_eq (R : RangeOrder) (old new : list string) :
  handleSubscriptionChanges R old new
  = (subscribeToTopicCmd <$>
       (filter (fun kv : string * bool => negb (go_get (topic_set old) kv.1) = true)
               (range R (topic_set new))).*1)
    ++ (unsubscribeFromTopicCmd <$>
       (filter (fun kv : string * bool => negb (go_get (topic_set new) kv.1) = true)
               (range R (topic_set old))).*1).
Proof.
  unfold handleSubscriptionChanges.
  rewrite (foldl_snoc_filter
             (fun kv : string * bool => negb (go_get (topic_set new) kv.1))
             (fun kv : string * bool => unsubscribeFromTopicCmd kv.1)).
  rewrite (foldl_snoc_filter
             (fun kv : string * bool => negb (go_get (topic_set old) kv.1))
             (fun kv : string * bool => subscribeToTopicCmd kv.1)).
  simpl. by rewrite <- !list_fmap_compose.
Qed.

Lemma elem_of_diff (R : RangeOrder) (a b : list string) (t : string) :
  t ∈ (filter (fun kv : string * bool => negb (go_get (topic_set a) kv.1) = true)
              (range R (topic_set b))).*1
  <-> t ∈ b /\ t ∉ a.
Proof.
  rewrite list_elem_of_fmap. split.
  - intros [[k v] [-> Hin]]. apply list_elem_of_filter in Hin as [Hp Hin].
    simpl in *. apply elem_of_range in Hin.
    rewrite topic_set_lookup in Hin. rewrite go_get_topic_set in Hp.
    destruct (decide (k ∈ b)); [|done]. split; [done|].
    intros Ha. by rewrite (bool_decide_eq_true_2 _ Ha) in Hp.
  - intros [Hb Ha]. exists (t, true). split; [done|].
    apply list_elem_of_filter. split.
    + simpl. rewrite go_get_topic_set. by rewrite bool_decide_eq_false_2.
    + apply elem_of_range. rewrite topic_set_lookup. by rewrite decide_True.
Qed.

Global Instance subscribeToTopicCmd_inj : Inj (=) (=) subscribeToTopicCmd.
Proof. intros x y H. by injection H. Qed.

Global Instance unsubscribeFromTopicCmd_inj : Inj (=) (=) unsubscribeFromTopicCmd.
Proof. intros x y H. by injection H. Qed.

Lemma elem_of_subscribe (R : RangeOrder) (old new : list string) (t : string) :
  subscribeToTopicCmd t ∈ handleSubscriptionChanges R old new <-> t ∈ new /\ t ∉ old.
Proof.
  rewrite handleSubscriptionChanges_eq, elem_of_app.
  rewrite (list_elem_of_fmap_inj subscribeToTopicCmd), elem_of_diff.
  split; [|by left]. intros [H|H]; [done|].
  apply list_elem_of_fmap in H as [? [? _]]. done.
Qed.

Lemma elem_of_unsubscribe (R : RangeOrder) (old new : list string) (t : string) :
  unsubscribeFromTopicCmd t ∈ handleSubscriptionChanges R old new <-> t ∈ old /\ t ∉ new.
Proof.
  rewrite handleSubscriptionChanges_eq, elem_of_app.
  rewrite (list_elem_of_fmap_inj unsubscribeFromTopicCmd), elem_of_diff.
  split; [|by right]. intros [H|H]; [|done].
  apply list_elem_of_fmap in H as [? [? _]]. done.
Qed.

Lemma handleSubscriptionChanges_shape (R : RangeOrder) (old new : list string) (c : Cmd) :
  c ∈ handleSubscriptionChanges R old new ->
  exists t, c = subscribeToTopicCmd t \/ c = unsubscribeFromTopicCmd t.
Proof.
  rewrite handleSubscriptionChanges_eq, elem_of_app.
  intros [H|H]; apply list_elem_of_fmap in H as [t [-> _]]; exists t; auto.
Qed.

Lemma NoDup_handleSubscriptionChanges (R : RangeOrder) (old new : list string) :
  NoDup (handleSubscriptionChanges R old new).
Proof.
  rewrite handleSubscriptionChanges_eq. apply NoDup_app. split; [|split].
  - apply (NoDup_fmap_2 subscribeToTopicCmd), NoDup_fst_filter_range.
  - intros c H1 H2. apply list_elem_of_fmap in H1 as [? [-> _]].
    apply list_elem_of_fmap in H2 as [? [? _]]. done.
  - apply (NoDup_fmap_2 unsubscribeFromTopicCmd), NoDup_fst_filter_range.
Qed.

Lemma handleSubscriptionChanges_same (R : RangeOrder) (old new : list string) :
  (forall t, t ∈ old <-> t ∈ new) -> handleSubscriptionChanges R old new = [].
Proof.
  intros Heq. apply elem_of_nil_inv. intros c Hc.
  destruct (handleSubscriptionChanges_shape R old new c Hc) as [t [->| ->]].
  - apply elem_of_subscribe in Hc as [H1 H2]. by apply H2, Heq.
  - apply elem_of_unsubscribe in Hc as [H1 H2]. by apply H2, Heq.
Qed.

Lemma NoDup_singleton_eq {A : Type} (l : list A) (a : A) :
  NoDup l -> (forall x, x ∈ l <-> x = a) -> l = [a].
Proof.
  intros Hnd Hin. apply Permutation_singleton_r.
  apply NoDup_Permutation; [done|apply NoDup_singleton|].
  intros x. rewrite Hin. by rewrite list_elem_of_singleton.
Qed.

Lemma desired_ABC_true (t : string) :
  desired_ABC !! t = Some true <-> t = "A" \/ t = "C".
Proof.
  unfold desired_ABC. split.
  - intros H.
    destruct (decide (t = "A")) as [->|HA]; [by left|].
    rewrite lookup_insert_ne in H by done.
    destruct (decide (t = "B")) as [->|HB]; [by rewrite lookup_insert_eq in H|].
    rewrite lookup_insert_ne in H by done.
    destruct (decide (t = "C")) as [->|HC]; [by right|].
    rewrite lookup_insert_ne in H by done. by rewrite lookup_empty in H.
  - intros [-> | ->]; [apply lookup_insert_eq|].
    rewrite lookup_insert_ne by done. rewrite lookup_insert_ne by done.
    apply lookup_insert_eq.
Qed.

(** The example of the specification: desired [{A: true, B: false, C: true}]
    diffed against the list [B, C]. *)
Lemma handleSubscriptionChanges_ABC (R : RangeOrder) (u : UI) :
  subscribedTopics u = desired_ABC ->
  handleSubscriptionChanges R ["B"; "C"] (GetSubscribedTopics R u)
  = [subscribeToTopicCmd "A"; unsubscribeFromTopicCmd "B"].
Proof.
  intros Hu. rewrite handleSubscriptionChanges_eq.
  set (new := GetSubscribedTopics R u).
  assert (Hnew : forall t, t ∈ new <-> t = "A" \/ t = "C").
  { intros t. unfold new. rewrite elem_of_GetSubscribedTopics, Hu.
    apply desired_ABC_true. }
  change [subscribeToTopicCmd "A"; unsubscribeFromTopicCmd "B"]
    with ((subscribeToTopicCmd <$> ["A"]) ++ (unsubscribeFromTopicCmd <$> ["B"])).
  f_equal; f_equal.
  - apply NoDup_singleton_eq; [apply NoDup_fst_filter_range|].
    intros t. rewrite elem_of_diff, Hnew. split.
    + intros [[->| ->] Hn]; [done|]. exfalso. apply Hn.
      apply list_elem_of_further, list_elem_of_here.
    + intros ->. split; [by left|]. intros Hin.
      apply elem_of_cons in Hin as [?|Hin]; [done|].
      by apply list_elem_of_singleton in Hin.
  - apply NoDup_singleton_eq; [apply NoDup_fst_filter_range|].
    intros t. rewrite elem_of_diff, Hnew. split.
    + intros [Hin Hn]. apply elem_of_cons in Hin as [->|Hin]; [done|].
      apply list_elem_of_singleton in Hin as ->. exfalso. apply Hn. by right.
    + intros ->. split; [apply list_elem_of_here|]. intros [?|?]; done.
Qed.

(** ** The UI operations and the Subscription Set *)

Lemma subscribedTopics_SetTopics (ts : list string) (u : UI) :
  subscribedTopics (SetTopics ts u) = subscribedTopics u.
Proof. unfold SetTopics. simpl. repeat case_match; done. Qed.

Lemma subscribedTopics_AddMessage (t p : string) (ts : Z) (u : UI) :
  subscribedTopics (AddMessage t p ts u) = subscribedTopics u.
Proof. unfold AddMessage. simpl. repeat case_match; done. Qed.

Lemma UI_Update_not_key (u : UI) (msg : Msg) :
  (forall key, msg <> KeyMsg key) ->
  exists u', UI_Update u msg = Some u' /\ subscribedTopics u' = subscribedTopics u.
Proof.
  intros Hk. destruct msg; simpl; eauto. by destruct (Hk key).
Qed.

(** ** [App.Update] and the commands it issues *)

Lemma elem_of_tail_cmds (R : RangeOrder) (a : App) (pre : list Cmd) (msg : Msg)
    (a' : App) (cmds : list Cmd) (c : Cmd) :
  update_ui_and_subscriptions R a pre msg = Some (a', cmds) ->
  c ∈ cmds <->
  c ∈ pre \/ (connected a = true /\
              c ∈ handleSubscriptionChanges R (GetSubscribedTopics R (ui a))
                                              (GetSubscribedTopics R (ui a'))).
Proof.
  unfold update_ui_and_subscriptions. intros H.
  destruct (UI_Update (ui a) msg) as [u|] eqn:Hu; simpl in H; [|done].
  injection H as <- <-. unfold connected. simpl.
  destruct (mqtt a) as [m|]; [destruct (isConnected m)|];
    rewrite ?elem_of_app; intuition congruence.
Qed.

Lemma tail_mqtt (R : RangeOrder) (a : App) (pre : list Cmd) (msg : Msg)
    (a' : App) (cmds : list Cmd) :
  update_ui_and_subscriptions R a pre msg = Some (a', cmds) ->
  mqtt a' = mqtt a /\ UI_Update (ui a) msg = Some (ui a').
Proof.
  unfold update_ui_and_subscriptions. intros H.
  destruct (UI_Update (ui a) msg) as [u|] eqn:Hu; simpl in H; [|done].
  by injection H as <- <-.
Qed.

(** What one pass of [Update] can issue: a subscription command for [t]
    needs a connected client and a desired flag of [t] that is [true]
    after the message and was not before. *)
Lemma Update_subscribe_iff (R : RangeOrder) (a : App) (msg : Msg)
    (a' : App) (cmds : list Cmd) (t : string) :
  Update R a msg = Some (a', cmds) ->
  subscribeToTopicCmd t ∈ cmds <->
  connected a = true
  /\ subscribedTopics (ui a') !! t = Some true
  /\ subscribedTopics (ui a) !! t <> Some true.
Proof.
  intros H.
  assert (Htail : forall a0 pre,
            connected a0 = connected a ->
            subscribedTopics (ui a0) = subscribedTopics (ui a) ->
            subscribeToTopicCmd t ∉ pre ->
            update_ui_and_subscriptions R a0 pre msg = Some (a', cmds) ->
            subscribeToTopicCmd t ∈ cmds <->
            connected a = true
            /\ subscribedTopics (ui a') !! t = Some true
            /\ subscribedTopics (ui a) !! t <> Some true).
  { intros a0 pre Hc Hs Hpre Ht.
    rewrite (elem_of_tail_cmds R a0 pre msg a' cmds _ Ht).
    rewrite elem_of_subscribe, !elem_of_GetSubscribedTopics, Hc, Hs.
    intuition. }
  destruct msg as [w h|key| | |new_topics|topic payload timestamp|err]; simpl in H.
  - injection H as <- <-. simpl. split.
    + intros Hin. by apply elem_of_nil in Hin.
    + intros (_ & ? & ?). done.
  - destruct (is_quit_key key).
    + injection H as <- <-. simpl. split.
      * intros Hin. apply elem_of_cons in Hin as [?|Hin]; [done|].
        by apply elem_of_nil in Hin.
      * intros (_ & ? & ?). done.
    + apply (Htail a []); [done|done|apply not_elem_of_nil|done].
  - eapply (Htail a); [done|done| |exact H].
    destruct (mqtt a); [|apply not_elem_of_nil].
    intros Hin. apply elem_of_cons in Hin as [?|Hin]; [done|].
    by apply elem_of_nil in Hin.
  - apply (Htail a []); [done|done|apply not_elem_of_nil|done].
  - apply (Htail (set_ui (SetTopics new_topics (ui a)) a) []);
      [done|apply subscribedTopics_SetTopics|apply not_elem_of_nil|done].
  - apply (Htail (set_ui (AddMessage topic payload timestamp (ui a)) a) []);
      [done|apply subscribedTopics_AddMessage|apply not_elem_of_nil|done].
  - apply (Htail (set_ui (SetError ("MQTT Error: " +:+ err) (ui a)) a) []);
      [done|done|apply not_elem_of_nil|done].
Qed.

(** The same for the unsubscription commands. *)
Lemma Update_unsubscribe_iff (R : RangeOrder) (a : App) (msg : Msg)
    (a' : App) (cmds : list Cmd) (t : string) :
  Update R a msg = Some (a', cmds) ->
  unsubscribeFromTopicCmd t ∈ cmds <->
  connected a = true
  /\ subscribedTopics (ui a) !! t = Some true
  /\ subscribedTopics (ui a') !! t <> Some true.
Proof.
  intros H.
  assert (Htail : forall a0 pre,
            connected a0 = connected a ->
            subscribedTopics (ui a0) = subscribedTopics (ui a) ->
            unsubscribeFromTopicCmd t ∉ pre ->
            update_ui_and_subscriptions R a0 pre msg = Some (a', cmds) ->
            unsubscribeFromTopicCmd t ∈ cmds <->
            connected a = true
            /\ subscribedTopics (ui a) !! t = Some true
            /\ subscribedTopics (ui a') !! t <> Some true).
  { intros a0 pre Hc Hs Hpre Ht.
    rewrite (elem_of_tail_cmds R a0 pre msg a' cmds _ Ht).
    rewrite elem_of_unsubscribe, !elem_of_GetSubscribedTopics, Hc, Hs.
    intuition. }
  destruct msg as [w h|key| | |new_topics|topic payload timestamp|err]; simpl in H.
  - injection H as <- <-. simpl. split.
    + intros Hin. by apply elem_of_nil in Hin.
    + intros (_ & ? & ?). done.
  - destruct (is_quit_key key).
    + injection H as <- <-. simpl. split.
      * intros Hin. apply elem_of_cons in Hin as [?|Hin]; [done|].
        by apply elem_of_nil in Hin.
      * intros (_ & ? & ?). done.
    + apply (Htail a []); [done|done|apply not_elem_of_nil|done].
  - eapply (Htail a); [done|done| |exact H].
    destruct (mqtt a); [|apply not_elem_of_nil].
    intros Hin. apply elem_of_cons in Hin as [?|Hin]; [done|].
    by apply elem_of_nil in Hin.
  - apply (Htail a []); [done|done|apply not_elem_of_nil|done].
  - apply (Htail (set_ui (SetTopics new_topics (ui a)) a) []);
      [done|apply subscribedTopics_SetTopics|apply not_elem_of_nil|done].
  - apply (Htail (set_ui (AddMessage topic payload timestamp (ui a)) a) []);
      [done|apply subscribedTopics_AddMessage|apply not_elem_of_nil|done].
  - apply (Htail (set_ui (SetError ("MQTT Error: " +:+ err) (ui a)) a) []);
      [done|done|apply not_elem_of_nil|done].
Qed.

Lemma Update_shape (R : RangeOrder) (a : App) (msg : Msg)
    (a' : App) (cmds : list Cmd) (c : Cmd) :
  Update R a msg = Some (a', cmds) -> c ∈ cmds ->
  c = Quit \/ c = DiscoverTopicsCmd
  \/ exists t, c = subscribeToTopicCmd t \/ c = unsubscribeFromTopicCmd t.
Proof.
  intros H Hc.
  assert (Htail : forall a0 pre,
            (forall c, c ∈ pre -> c = DiscoverTopicsCmd) ->
            update_ui_and_subscriptions R a0 pre msg = Some (a', cmds) ->
            c = Quit \/ c = DiscoverTopicsCmd
            \/ exists t, c = subscribeToTopicCmd t \/ c = unsubscribeFromTopicCmd t).
  { intros a0 pre Hpre Ht.
    destruct (proj1 (elem_of_tail_cmds R a0 pre msg a' cmds c Ht) Hc)
      as [Hc'|[_ Hc']].
    - right. left. by apply Hpre.
    - right. right. by eapply handleSubscriptionChanges_shape. }
  assert (Hnil : forall c : Cmd, c ∈ [] -> c = DiscoverTopicsCmd).
  { intros c0 Hin. by apply elem_of_nil in Hin. }
  destruct msg as [w h|key| | |new_topics|topic payload timestamp|err]; simpl in H.
  - injection H as <- <-. by apply elem_of_nil in Hc.
  - destruct (is_quit_key key).
    + injection H as <- <-. left. by apply list_elem_of_singleton in Hc.
    + by apply (Htail a []).
  - eapply (Htail a); [|exact H].
    destruct (mqtt a); [|done].
    intros c0 Hin. by apply list_elem_of_singleton in Hin.
  - by apply (Htail a []).
  - by apply (Htail (set_ui (SetTopics new_topics (ui a)) a) []).
  - by apply (Htail (set_ui (AddMessage topic payload timestamp (ui a)) a) []).
  - by apply (Htail (set_ui (SetError ("MQTT Error: " +:+ err) (ui a)) a) []).
Qed.

(** A pass that leaves the Subscription Set as it was issues neither a
    subscription nor an unsubscription. *)
Lemma Update_same_desired (R : RangeOrder) (a : App) (msg : Msg)
    (a' : App) (cmds : list Cmd) (t : string) :
  Update R a msg = Some (a', cmds) ->
  subscribedTopics (ui a') = subscribedTopics (ui a) ->
  (subscribeToTopicCmd t ∉ cmds) /\ (unsubscribeFromTopicCmd t ∉ cmds).
Proof.
  intros H Hs. split; intros Hin.
  - apply (Update_subscribe_iff R a msg a' cmds t H) in Hin as (_ & H1 & H2).
    rewrite Hs in H1. done.
  - apply (Update_unsubscribe_iff R a msg a' cmds t H) in Hin as (_ & H1 & H2).
    rewrite Hs in H2. done.
Qed.

Lemma Update_MQTTErrorMsg (R : RangeOrder) (a : App) (err : string) :
  Update R a (MQTTErrorMsg err)
  = Some (set_ui (SetError ("MQTT Error: " +:+ err) (ui a)) a, []).
Proof.
  simpl. unfold update_ui_and_subscriptions. simpl.
  rewrite handleSubscriptionChanges_same by done.
  by destruct (connected _).
Qed.

Lemma Update_MQTTConnectedMsg (R : RangeOrder) (a : App) :
  Update R a MQTTConnectedMsg
  = Some (a, match mqtt a with Some _ => [DiscoverTopicsCmd] | None => [] end).
Proof.
  simpl. unfold update_ui_and_subscriptions. simpl.
  rewrite handleSubscriptionChanges_same by done.
  rewrite app_nil_r. destruct a as [m u q]. simpl.
  by destruct (connected _).
Qed.

(** The commands of a pass: what the [switch] collected, then the diff of
    the subscribed topics before and after the message when the client is
    connected. *)
Lemma Update_cmds_eq (R : RangeOrder) (a : App) (msg : Msg)
    (a' : App) (cmds : list Cmd) :
  Update R a msg = Some (a', cmds) ->
  exists pre,
    (pre = [] \/ pre = [Quit] \/ pre = [DiscoverTopicsCmd])
    /\ cmds = pre ++ (if connected a
                      then handleSubscriptionChanges R
                             (GetSubscribedTopics R (ui a))
                             (GetSubscribedTopics R (ui a'))
                      else []).
Proof.
  intros H.
  assert (Htail : forall a0 pre,
            connected a0 = connected a ->
            subscribedTopics (ui a0) = subscribedTopics (ui a) ->
            update_ui_and_subscriptions R a0 pre msg = Some (a', cmds) ->
            cmds = pre ++ (if connected a
                           then handleSubscriptionChanges R
                                  (GetSubscribedTopics R (ui a))
                                  (GetSubscribedTopics R (ui a'))
                           else [])).
  { intros a0 pre Hc Hs Ht. unfold update_ui_and_subscriptions in Ht.
    destruct (UI_Update (ui a0) msg) as [u|]; simpl in Ht; [|done].
    injection Ht as <- <-. simpl.
    replace (connected (set_ui u a0)) with (connected a) by (by rewrite <- Hc).
    unfold GetSubscribedTopics at 1 3. rewrite Hs.
    destruct (connected a); [done|by rewrite app_nil_r]. }
  assert (Hsame : forall u : UI,
            subscribedTopics u = subscribedTopics (ui a) ->
            (if connected a
             then handleSubscriptionChanges R (GetSubscribedTopics R (ui a))
                    (GetSubscribedTopics R u)
             else []) = []).
  { intros u Hu. destruct (connected a); [|done].
    apply handleSubscriptionChanges_same. intros t.
    by rewrite !elem_of_GetSubscribedTopics, Hu. }
  destruct msg as [w h|key| | |new_topics|topic payload timestamp|err]; simpl in H.
  - injection H as <- <-. exists []. split; [by left|].
    simpl. by rewrite Hsame.
  - destruct (is_quit_key key).
    + injection H as <- <-. exists [Quit]. split; [by right; left|].
      simpl. by rewrite Hsame.
    + exists []. split; [by left|]. by apply (Htail a []).
  - eexists. split; [|by apply (Htail a _)].
    destruct (mqtt a); [by right; right|by left].
  - exists []. split; [by left|]. by apply (Htail a []).
  - exists []. split; [by left|].
    apply (Htail (set_ui (SetTopics new_topics (ui a)) a) []);
      [done|apply subscribedTopics_SetTopics|done].
  - exists []. split; [by left|].
    apply (Htail (set_ui (AddMessage topic payload timestamp (ui a)) a) []);
      [done|apply subscribedTopics_AddMessage|done].
  - exists []. split; [by left|].
    by apply (Htail (set_ui (SetError ("MQTT Error: " +:+ err) (ui a)) a) []).
Qed.

Lemma NoDup_Update (R : RangeOrder) (a : App) (msg : Msg)
    (a' : App) (cmds : list Cmd) :
  Update R a msg = Some (a', cmds) -> NoDup cmds.
Proof.
  intros H. destruct (Update_cmds_eq R a msg a' cmds H) as (pre & Hpre & ->).
  apply NoDup_app. split; [|split].
  - destruct Hpre as [->|[->| ->]];
      [apply NoDup_nil_2|apply NoDup_singleton|apply NoDup_singleton].
  - intros c Hc Hin. destruct (connected a); [|by apply elem_of_nil in Hin].
    apply handleSubscriptionChanges_shape in Hin as [t Ht].
    destruct Hpre as [->|[->| ->]].
    + by apply elem_of_nil in Hc.
    + apply list_elem_of_singleton in Hc. destruct Ht; congruence.
    + apply list_elem_of_singleton in Hc. destruct Ht; congruence.
  - destruct (connected a); [apply NoDup_handleSubscriptionChanges|apply NoDup_nil_2].
Qed.

(** C1 as stated fails for the reconciler of the program. The desired set
    is [{A: true, B: false, C: true}] on a connected client. Diffed against
    the applied set [{B, C}] the helper gives subscribe(A) and
    unsubscribe(B), and against every applied set without [A] it gives
    subscribe(A). But [Update] keeps no applied set and hands the helper
    the desired topics as they were before the message: the pass on a
    message that arrives issues nothing, and no pass at all issues
    subscribe(A) or unsubscribe(B) from this state, whatever has been
    applied. *)
Lemma C1_applied_set_counterexample :
  subscribedTopics ui_ABC = desired_ABC
  /\ connected (app_of client_up ui_ABC) = true
  /\ handleSubscriptionChanges map_order ["B"; "C"]
       (GetSubscribedTopics map_order ui_ABC)
     = [subscribeToTopicCmd "A"; unsubscribeFromTopicCmd "B"]
  /\ (forall applied : list string,
        "A" ∉ applied ->
        subscribeToTopicCmd "A"
        ∈ handleSubscriptionChanges map_order applied
            (GetSubscribedTopics map_order ui_ABC))
  /\ Update map_order (app_of client_up ui_ABC) (MQTTMessageMsg "C" "on" 0)
     = Some (app_of client_up (AddMessage "C" "on" 0 ui_ABC), [])
  /\ (~ exists msg a' cmds,
         Update map_order (app_of client_up ui_ABC) msg = Some (a', cmds)
         /\ subscribeToTopicCmd "A" ∈ cmds)
  /\ (~ exists msg a' cmds,
         Update map_order (app_of client_up ui_ABC) msg = Some (a', cmds)
         /\ unsubscribeFromTopicCmd "B" ∈ cmds).
Proof.
  split; [reflexivity|]. split; [reflexivity|].
  split; [by apply handleSubscriptionChanges_ABC|].
  split.
  { intros applied Hn. apply elem_of_subscribe. split; [|done].
    by apply elem_of_GetSubscribedTopics. }
  split; [by vm_compute|]. split.
  - intros (msg & a' & cmds & Hup & Hin).
    apply (Update_subscribe_iff map_order _ msg a' cmds "A" Hup) in Hin
      as (_ & _ & Hold).
    by apply Hold.
  - intros (msg & a' & cmds & Hup & Hin).
    by apply (Update_unsubscribe_iff map_order _ msg a' cmds "B" Hup) in Hin
      as (_ & Hold & _).
Qed.

(** C1, amended. [handleSubscriptionChanges] on a list [old] and the topics
    read from a desired set gives a subscribe command exactly for the
    topics whose desired flag is [true] and that are not in [old], an
    unsubscribe command exactly for the topics of [old] whose desired flag
    is not [true], nothing else and no command twice; for desired
    [{A: true, B: false, C: true}] and [old = [B, C]] the commands are
    subscribe(A) then unsubscribe(B). The program keeps no applied set:
    in a pass of [Update] the list [old] is the list of the topics whose
    desired flag was [true] before the message, and the diff is computed
    on a connected client only. The commands of a pass are therefore what
    the [switch] collected (nothing, [Quit] or the topic discovery)
    followed by that diff: a subscription exactly for the topics whose
    flag became [true] in the pass, an unsubscription exactly for those
    whose flag ceased to be [true], no command twice, and no subscription
    command at all in a pass that leaves the Subscription Set as it is. *)
Theorem C1_minimal_diff_of_a_pass :
  forall (R : RangeOrder),
    (forall (u : UI) (old : list string),
        let diff := handleSubscriptionChanges R old (GetSubscribedTopics R u) in
        (forall t, subscribeToTopicCmd t ∈ diff
                   <-> subscribedTopics u !! t = Some true /\ t ∉ old)
        /\ (forall t, unsubscribeFromTopicCmd t ∈ diff
                      <-> t ∈ old /\ subscribedTopics u !! t <> Some true)
        /\ (forall c, c ∈ diff ->
                      exists t, c = subscribeToTopicCmd t
                                \/ c = unsubscribeFromTopicCmd t)
        /\ NoDup diff)
    /\ handleSubscriptionChanges R ["B"; "C"]
         (GetSubscribedTopics R (set_subscribedTopics desired_ABC NewUI))
       = [subscribeToTopicCmd "A"; unsubscribeFromTopicCmd "B"]
    /\ (forall (a : App) (msg : Msg) (a' : App) (cmds : list Cmd),
          Update R a msg = Some (a', cmds) ->
          (exists pre,
              (pre = [] \/ pre = [Quit] \/ pre = [DiscoverTopicsCmd])
              /\ cmds = pre ++ (if connected a
                                then handleSubscriptionChanges R
                                       (GetSubscribedTopics R (ui a))
                                       (GetSubscribedTopics R (ui a'))
                                else []))
          /\ (forall t, subscribeToTopicCmd t ∈ cmds
                        <-> connected a = true
                            /\ subscribedTopics (ui a') !! t = Some true
                            /\ subscribedTopics (ui a) !! t <> Some true)
          /\ (forall t, unsubscribeFromTopicCmd t ∈ cmds
                        <-> connected a = true
                            /\ subscribedTopics (ui a) !! t = Some true
                            /\ subscribedTopics (ui a') !! t <> Some true)
          /\ NoDup cmds
          /\ (subscribedTopics (ui a') = subscribedTopics (ui a) ->
              forall t, (subscribeToTopicCmd t ∉ cmds)
                        /\ (unsubscribeFromTopicCmd t ∉ cmds))).
Proof.
  intros R. split; [|split].
  - intros u old diff. subst diff. split; [|split; [|split]].
    + intros t. rewrite elem_of_subscribe, elem_of_GetSubscribedTopics. done.
    + intros t. rewrite elem_of_unsubscribe, elem_of_GetSubscribedTopics. done.
    + apply handleSubscriptionChanges_shape.
    + apply NoDup_handleSubscriptionChanges.
  - by apply handleSubscriptionChanges_ABC.
  - intros a msg a' cmds Hup. split; [exact (Update_cmds_eq R a msg a' cmds Hup)|].
    split; [intros t; exact (Update_subscribe_iff R a msg a' cmds t Hup)|].
    split; [intros t; exact (Update_unsubscribe_iff R a msg a' cmds t Hup)|].
    split; [exact (NoDup_Update R a msg a' cmds Hup)|].
    intros Hsame t. exact (Update_same_desired R a msg a' cmds t Hup Hsame).
Qed.

Lemma C1_minimal_diff_of_a_pass_witness :
  Update map_order (app_of client_up ui_A) (KeyMsg "enter")
  = Some (app_of client_up ui_A_wanted, [subscribeToTopicCmd "A"])
  /\ (subscribeToTopicCmd "A" ∈ [subscribeToTopicCmd "A"]
      <-> connected (app_of client_up ui_A) = true
          /\ subscribedTopics (ui (app_of client_up ui_A_wanted)) !! "A" = Some true
          /\ subscribedTopics (ui (app_of client_up ui_A)) !! "A" <> Some true).
Proof.
  assert (Hup : Update map_order (app_of client_up ui_A) (KeyMsg "enter")
                = Some (app_of client_up ui_A_wanted, [subscribeToTopicCmd "A"])).
  { by vm_compute. }
  split; [exact Hup|].
  destruct (C1_minimal_diff_of_a_pass map_order) as (_ & _ & Hpass).
  destruct (Hpass _ _ _ _ Hup) as (_ & Hsub & _).
  exact (Hsub "A").
Defined.

(** C2 as stated fails. The topic [A] is toggled on a connected client,
    which issues subscribe(A); the subscription fails and the failure is
    handled. The desired flag of [A] is then still [true], and no later pass
    that keeps the Subscription Set as it is issues subscribe(A) again. *)
Lemma C2_retry_counterexample :
  Update map_order (app_of client_up ui_A) (KeyMsg "enter")
  = Some (app_of client_up ui_A_wanted, [subscribeToTopicCmd "A"])
  /\ run_subscribeToTopicCmd "A" (Some "timeout")
     = Some (MQTTErrorMsg "failed to subscribe to A: timeout")
  /\ exists a2,
       Update map_order (app_of client_up ui_A_wanted)
              (MQTTErrorMsg "failed to subscribe to A: timeout")
       = Some (a2, [])
       /\ connected a2 = true
       /\ go_get (subscribedTopics (ui a2)) "A" = true
       /\ ~ exists msg a3 cmds,
             Update map_order a2 msg = Some (a3, cmds)
             /\ subscribedTopics (ui a3) = subscribedTopics (ui a2)
             /\ subscribeToTopicCmd "A" ∈ cmds.
Proof.
  split; [by vm_compute|]. split; [reflexivity|].
  eexists. split; [apply Update_MQTTErrorMsg|].
  split; [reflexivity|]. split; [reflexivity|].
  intros (msg & a3 & cmds & Hup & Hsame & Hin).
  by destruct (Update_same_desired map_order _ msg a3 cmds "A" Hup Hsame).
Qed.

(** C2, amended. A failed subscription comes back as an [MQTTErrorMsg];
    handling it records the error text, leaves the Subscription Set and the
    client as they are and issues no command. No applied set is kept: a pass
    compares the desired topics before and after its message, so a pass that
    leaves the Subscription Set unchanged issues no subscription command,
    and subscribe(A) is issued exactly by a pass on a connected client in
    which the desired flag of [A] becomes [true]. *)
Theorem C2_failed_subscribe_not_retried :
  forall (R : RangeOrder) (a : App) (A err : string) (msg : Msg),
    run_subscribeToTopicCmd A (Some err) = Some msg ->
    (exists a',
        Update R a msg = Some (a', [])
        /\ subscribedTopics (ui a') = subscribedTopics (ui a)
        /\ mqtt a' = mqtt a
        /\ error (ui a')
           = "MQTT Error: failed to subscribe to " +:+ A +:+ ": " +:+ err
        /\ forall msg2 a'' cmds,
             Update R a' msg2 = Some (a'', cmds) ->
             (subscribedTopics (ui a'') = subscribedTopics (ui a') ->
              subscribeToTopicCmd A ∉ cmds)
             /\ (subscribeToTopicCmd A ∈ cmds <->
                 connected a' = true
                 /\ subscribedTopics (ui a'') !! A = Some true
                 /\ subscribedTopics (ui a') !! A <> Some true)).
Proof.
  intros R a A err msg Hrun. simpl in Hrun. injection Hrun as <-.
  eexists. split; [apply Update_MQTTErrorMsg|].
  split; [done|]. split; [done|]. split; [done|].
  intros msg2 a'' cmds Hup. split.
  - intros Hsame. by destruct (Update_same_desired R _ msg2 a'' cmds A Hup Hsame).
  - exact (Update_subscribe_iff R _ msg2 a'' cmds A Hup).
Qed.

Lemma C2_failed_subscribe_not_retried_witness :
  run_subscribeToTopicCmd "A" (Some "timeout")
  = Some (MQTTErrorMsg "failed to subscribe to A: timeout")
  /\ exists a',
       Update map_order (app_of client_up ui_A_wanted)
              (MQTTErrorMsg "failed to subscribe to A: timeout") = Some (a', [])
       /\ subscribedTopics (ui a') = subscribedTopics ui_A_wanted.
Proof.
  split; [reflexivity|].
  destruct (C2_failed_subscribe_not_retried map_order
              (app_of client_up ui_A_wanted) "A" "timeout"
              (MQTTErrorMsg "failed to subscribe to A: timeout") eq_refl)
    as (a' & Hup & Hs & _).
  exists a'. split; [exact Hup|exact Hs].
Defined.

(** C9 as stated fails. On a disconnected client the topic [A] is toggled:
    the desired flag is set and nothing is issued. The client then reports
    itself connected and [MQTTConnectedMsg] is handled: the only command is
    the topic discovery, and no subscription for the desired topic [A] is
    issued, then or in any later pass that keeps the Subscription Set. *)
Lemma C9_reconnect_counterexample :
  Update map_order (app_of client_down ui_A) (KeyMsg "enter")
  = Some (app_of client_down ui_A_wanted, [])
  /\ Update map_order (app_of client_up ui_A_wanted) MQTTConnectedMsg
     = Some (app_of client_up ui_A_wanted, [DiscoverTopicsCmd])
  /\ subscribedTopics ui_A_wanted !! "A" = Some true
  /\ (subscribeToTopicCmd "A" ∉ [DiscoverTopicsCmd])
  /\ ~ exists msg a' cmds,
         Update map_order (app_of client_up ui_A_wanted) msg = Some (a', cmds)
         /\ subscribedTopics (ui a') = subscribedTopics ui_A_wanted
         /\ subscribeToTopicCmd "A" ∈ cmds.
Proof.
  split; [by vm_compute|]. split; [by vm_compute|]. split; [by vm_compute|].
  split.
  - intros Hin. by apply list_elem_of_singleton in Hin.
  - intros (msg & a' & cmds & Hup & Hsame & Hin).
    by destruct (Update_same_desired map_order _ msg a' cmds "A" Hup Hsame).
Qed.

(** C9, amended. While the client reports itself disconnected (or there is
    no client) a pass issues no subscription and no unsubscription command,
    so a toggle only changes the Subscription Set. Handling
    [MQTTConnectedMsg] leaves the state as it is and issues the topic
    discovery only: the desired topics are not diffed against an empty
    applied set, and no subscription command is issued for them. *)
Theorem C9_disconnected_no_actions :
  forall (R : RangeOrder) (a : App),
    (forall msg a' cmds t,
        connected a = false ->
        Update R a msg = Some (a', cmds) ->
        (subscribeToTopicCmd t ∉ cmds) /\ (unsubscribeFromTopicCmd t ∉ cmds))
    /\ (forall key a',
           connected a = false ->
           is_quit_key key = false ->
           (Update R a (KeyMsg key) = Some (a', [])
            <-> exists u, handleKeyPress (ui a) key = Some u /\ a' = set_ui u a))
    /\ Update R a MQTTConnectedMsg
       = Some (a, match mqtt a with Some _ => [DiscoverTopicsCmd] | None => [] end)
    /\ (forall a' cmds t,
           Update R a MQTTConnectedMsg = Some (a', cmds) ->
           (subscribeToTopicCmd t ∉ cmds) /\ (unsubscribeFromTopicCmd t ∉ cmds)).
Proof.
  intros R a. split; [|split; [|split]].
  - intros msg a' cmds t Hc Hup. split; intros Hin.
    + apply (Update_subscribe_iff R a msg a' cmds t Hup) in Hin as (Hc' & _).
      congruence.
    + apply (Update_unsubscribe_iff R a msg a' cmds t Hup) in Hin as (Hc' & _).
      congruence.
  - intros key a' Hc Hq. simpl. rewrite Hq.
    unfold update_ui_and_subscriptions. simpl.
    destruct (handleKeyPress (ui a) key) as [u|]; simpl.
    + replace (connected (set_ui u a)) with (connected a) by done.
      rewrite Hc. split.
      * intros H. injection H as <-. by exists u.
      * intros (u' & Hu & ->). by injection Hu as ->.
    + split; [done|]. by intros (u' & Hu & _).
  - apply Update_MQTTConnectedMsg.
  - intros a' cmds t Hup. rewrite Update_MQTTConnectedMsg in Hup.
    injection Hup as <- <-.
    destruct (mqtt a); split; intros Hin;
      try (by apply elem_of_nil in Hin);
      by apply list_elem_of_singleton in Hin.
Qed.

Lemma C9_disconnected_no_actions_witness :
  connected (app_of client_down ui_A) = false
  /\ Update map_order (app_of client_down ui_A) (KeyMsg "enter")
     = Some (app_of client_down ui_A_wanted, [])
  /\ (subscribeToTopicCmd "A" ∉ ([] : list Cmd))
  /\ (unsubscribeFromTopicCmd "A" ∉ ([] : list Cmd)).
Proof.
  split; [reflexivity|]. split; [by vm_compute|].
  apply (proj1 (C9_disconnected_no_actions map_order (app_of client_down ui_A))
           (KeyMsg "enter") (app_of client_down ui_A_wanted) [] "A").
  - reflexivity.
  - by vm_compute.
Defined.

(** ** [AddMessage] and the message cursor *)

Lemma messages_AddMessage (t p : string) (ts : Z) (u : UI) :
  messages (AddMessage t p ts u)
  = messages u ++ [{| Topic := t; Payload := p; Timestamp := ts |}].
Proof. unfold AddMessage. simpl. repeat case_match; done. Qed.

Lemma messageScroll_AddMessage (t p : string) (ts : Z) (u : UI) :
  len (messages u) + 1 <= GoInt.max_int ->
  messageScroll (AddMessage t p ts u)
  = if is_MessagesPane (activePane u) || (len (messages u) - 4 <=? messageScroll u)
    then len (messages u) else messageScroll u.
Proof.
  intros Hfit. pose proof (len_nonneg (messages u)) as Hlen.
  unfold AddMessage. simpl. rewrite len_app. change (len [_]) with 1.
  rewrite !sub_small by range_lia.
  destruct (is_MessagesPane (activePane u)); simpl.
  - bool_cases; simpl; lia.
  - bool_cases; simpl; lia.
Qed.

Lemma availableLines_range (h : Z) : 1 <= availableLines h <= GoInt.max_int.
Proof.
  unfold availableLines. pose proof (wrap_in_range (h - 3)) as Hr.
  unfold GoInt.sub. bool_cases; range_lia.
Qed.

(** After a cursor placed on the last message, the render shows that
    message. *)
Lemma render_shows_tail (h : Z) (u : UI) :
  1 <= len (messages u) <= GoInt.max_int ->
  messageScroll u = len (messages u) - 1 ->
  in_window (messagesWindow h (renderMessagesPane h u)) (len (messages u) - 1).
Proof.
  intros Hlen Hcur. pose proof (availableLines_range h) as HV.
  unfold in_window, messagesWindow, renderMessagesPane.
  destruct (Z.eqb_spec (len (messages u)) 0) as [H0|H0]; [lia|].
  rewrite sub_small by range_lia.
  set (V := availableLines h) in *. set (L := len (messages u)) in *.
  destruct (Z.ltb_spec (L - V) 0); rewrite Hcur.
  - rewrite Z.gtb_ltb. destruct (Z.ltb_spec 0 (L - 1)); simpl.
    + rewrite add_small by range_lia. bool_cases; simpl; lia.
    + rewrite Hcur. destruct (Z.ltb_spec (L - 1) 0); simpl; [lia|].
      rewrite Hcur. rewrite add_small by range_lia. bool_cases; simpl; lia.
  - rewrite Z.gtb_ltb. destruct (Z.ltb_spec (L - V) (L - 1)); simpl.
    + destruct (Z.ltb_spec (L - V) 0); simpl; [lia|].
      rewrite add_small by range_lia. bool_cases; simpl; lia.
    + rewrite Hcur. destruct (Z.ltb_spec (L - 1) 0); simpl; [lia|].
      rewrite Hcur. rewrite add_small by range_lia. bool_cases; simpl; lia.
Qed.

(** C3 as stated fails. With ten messages, the Topics pane focused and the
    cursor on position 5, one of the last five positions (5 to 9) of the
    stream, appending a message leaves the cursor on 5: it does not advance
    to the new message, which has index 10. The same happens in the event
    loop: once five messages have arrived in a window of known size, the
    cursor is 0, one of the last five positions (0 to 4), and a sixth
    message leaves it on 0. *)
Lemma C3_auto_follow_counterexample :
  (activePane ui_back5 = TopicsPane
   /\ within_last_5_positions ui_back5
   /\ messageScroll (AddMessage "t" "p" 0 ui_back5) = messageScroll ui_back5
   /\ messageScroll (AddMessage "t" "p" 0 ui_back5)
      <> len (messages (AddMessage "t" "p" 0 ui_back5)) - 1)
  /\ exists a,
       run_loop map_order size_then_five_messages fresh_app = Some (a, [])
       /\ activePane (ui a) = TopicsPane
       /\ len (messages (ui a)) = 5
       /\ within_last_5_positions (ui a)
       /\ messageScroll (AddMessage "t" "p" 0 (ui a)) = messageScroll (ui a)
       /\ messageScroll (AddMessage "t" "p" 0 (ui a))
          <> len (messages (AddMessage "t" "p" 0 (ui a))) - 1.
Proof.
  split.
  - split; [reflexivity|]. split; [by vm_compute|].
    split; [reflexivity|]. by vm_compute.
  - eexists. split; [by vm_compute|]. split; [reflexivity|].
    split; [reflexivity|]. split; [by vm_compute|].
    split; [reflexivity|]. by vm_compute.
Qed.

(** C3, amended. Appending a message while the Messages pane has focus, or
    while the Scroll Cursor is at or after the new length minus 5 (at most
    four positions before the length of the stream as it was), puts the
    cursor on the index of the new message, so that the next render shows
    that message, and moves the cursor forward when it was inside the
    stream; appending with the Topics pane focused and the cursor further
    back leaves the Scroll Cursor unchanged. *)
Theorem C3_auto_follow :
  forall (t p : string) (ts : Z) (u : UI),
    len (messages u) + 1 <= GoInt.max_int ->
    let u' := AddMessage t p ts u in
    let newest := len (messages u) in
    messages u' = messages u ++ [{| Topic := t; Payload := p; Timestamp := ts |}]
    /\ (activePane u = MessagesPane \/ len (messages u) - 4 <= messageScroll u ->
        messageScroll u' = newest
        /\ (messageScroll u < len (messages u) -> messageScroll u < messageScroll u')
        /\ forall h, in_window (messagesWindow h (renderMessagesPane h u')) newest)
    /\ (activePane u = TopicsPane -> messageScroll u < len (messages u) - 4 ->
        messageScroll u' = messageScroll u).
Proof.
  intros t p ts u Hfit u' newest. subst u' newest.
  pose proof (len_nonneg (messages u)) as Hlen.
  split; [apply messages_AddMessage|]. split.
  - intros Hnear.
    assert (Hcur : messageScroll (AddMessage t p ts u) = len (messages u)).
    { rewrite messageScroll_AddMessage by done.
      destruct Hnear as [-> | Hnear]; [done|].
      destruct (Z.leb_spec (len (messages u) - 4) (messageScroll u)); [|lia].
      by rewrite orb_true_r. }
    split; [done|]. split; [lia|].
    intros h.
    assert (Hl : len (messages (AddMessage t p ts u)) = len (messages u) + 1).
    { rewrite messages_AddMessage, len_app. done. }
    replace (len (messages u)) with (len (messages (AddMessage t p ts u)) - 1) by lia.
    apply render_shows_tail; lia.
  - intros Hpane Hback. rewrite messageScroll_AddMessage by done.
    rewrite Hpane. simpl.
    destruct (Z.leb_spec (len (messages u) - 4) (messageScroll u)); [lia|done].
Qed.

Lemma C3_auto_follow_witness :
  len (messages (set_messageScroll 6 ui_back5)) + 1 <= GoInt.max_int
  /\ len (messages (set_messageScroll 6 ui_back5)) - 4
     <= messageScroll (set_messageScroll 6 ui_back5)
  /\ messageScroll (AddMessage "t" "p" 0 (set_messageScroll 6 ui_back5)) = 10.
Proof.
  split; [by vm_compute|]. split; [by vm_compute|].
  apply (C3_auto_follow "t" "p" 0 (set_messageScroll 6 ui_back5)).
  - by vm_compute.
  - right. by vm_compute.
Defined.

(** ** Key presses *)

Lemma handleKeyPress_up (u : UI) (key : string) :
  is_up_key key ->
  handleKeyPress u key
  = Some (if is_TopicsPane (activePane u) then
            if selectedTopic u >? 0
            then set_selectedTopic (GoInt.sub (selectedTopic u) 1) u else u
          else
            if messageScroll u >? 0
            then set_messageScroll (GoInt.sub (messageScroll u) 1) u else u).
Proof. intros [-> | ->]; reflexivity. Qed.

Lemma handleKeyPress_down (u : UI) (key : string) :
  is_down_key key ->
  handleKeyPress u key
  = Some (if is_TopicsPane (activePane u) then
            if selectedTopic u <? GoInt.sub (len (topics u)) 1
            then set_selectedTopic (GoInt.add (selectedTopic u) 1) u else u
          else
            if messageScroll u <? GoInt.sub (len (messages u)) 1
            then set_messageScroll (GoInt.add (messageScroll u) 1) u else u).
Proof. intros [-> | ->]; reflexivity. Qed.

Lemma handleKeyPress_toggle (u : UI) (key : string) :
  is_toggle_key key ->
  handleKeyPress u key
  = if is_TopicsPane (activePane u) && (len (topics u) >? 0) then
      match go_index (topics u) (selectedTopic u) with
      | None => None
      | Some topic =>
          Some (set_subscribedTopics
                  (<[topic := negb (go_get (subscribedTopics u) topic)]>
                     (subscribedTopics u)) u)
      end
    else Some u.
Proof. intros [-> | ->]; reflexivity. Qed.

Lemma go_index_valid {A : Type} (l : list A) (i : Z) :
  0 <= i < len l -> exists x, go_index l i = Some x.
Proof.
  intros Hi. unfold go_index. destruct (Z.ltb_spec i 0); [lia|].
  apply lookup_lt_is_Some_2. unfold len in Hi. lia.
Qed.

Lemma renderMessagesPane_cursor (h : Z) (u : UI) :
  fits (messages u) ->
  len (messages u) <> 0 ->
  0 <= messageScroll (renderMessagesPane h u)
    <= Z.max 0 (len (messages u) - availableLines h).
Proof.
  intros Hfit Hne. pose proof (availableLines_range h) as HV.
  pose proof (len_nonneg (messages u)) as Hlen.
  unfold renderMessagesPane.
  destruct (Z.eqb_spec (len (messages u)) 0); [done|].
  rewrite sub_small by range_lia.
  set (V := availableLines h) in *. set (L := len (messages u)) in *.
  rewrite !Z.gtb_ltb.
  destruct (Z.ltb_spec (L - V) 0);
    repeat (progress (bool_cases; simpl)); lia.
Qed.

(** C5. Message-pane navigation. With the Messages pane focused and the
    cursor in [0, L-1] (0 for an empty stream), the up keys move the cursor
    one position back unless it is 0, the down keys move it one position
    forward unless it is on the last message, the cursor stays in
    [0, L-1] (0 for an empty stream), also after the scroll correction of
    the render, and the stream and the selection are left as they are. *)
Theorem C5_message_pane_navigation :
  forall (u : UI) (kup kdown : string),
    is_up_key kup -> is_down_key kdown ->
    activePane u = MessagesPane ->
    fits (messages u) ->
    message_cursor_ok u ->
    exists up down,
      handleKeyPress u kup = Some up
      /\ handleKeyPress u kdown = Some down
      /\ messageScroll up = Z.max 0 (messageScroll u - 1)
      /\ messageScroll down
         = Z.min (messageScroll u + 1) (Z.max 0 (len (messages u) - 1))
      /\ message_cursor_ok up /\ message_cursor_ok down
      /\ (len (messages u) = 0 -> messageScroll up = 0 /\ messageScroll down = 0)
      /\ messages up = messages u /\ messages down = messages u
      /\ selectedTopic up = selectedTopic u /\ selectedTopic down = selectedTopic u
      /\ (forall h, message_cursor_ok (renderMessagesPane h up)
                    /\ message_cursor_ok (renderMessagesPane h down)).
Proof.
  intros u kup kdown Hup Hdown Hpane Hfit Hok.
  rewrite (handleKeyPress_up u kup Hup), (handleKeyPress_down u kdown Hdown).
  rewrite Hpane. simpl. unfold message_cursor_ok in *.
  pose proof (len_nonneg (messages u)) as Hlen.
  rewrite (sub_small (len (messages u)) 1) by range_lia.
  set (up := if messageScroll u >? 0 then _ else u).
  set (down := if messageScroll u <? len (messages u) - 1 then _ else u).
  assert (Hmu : messages up = messages u /\ selectedTopic up = selectedTopic u
                /\ messageScroll up = Z.max 0 (messageScroll u - 1)).
  { subst up. rewrite Z.gtb_ltb. destruct (Z.ltb_spec 0 (messageScroll u)); simpl.
    - rewrite sub_small by range_lia. repeat split; lia.
    - repeat split; lia. }
  assert (Hmd : messages down = messages u /\ selectedTopic down = selectedTopic u
                /\ messageScroll down
                   = Z.min (messageScroll u + 1) (Z.max 0 (len (messages u) - 1))).
  { subst down. destruct (Z.ltb_spec (messageScroll u) (len (messages u) - 1)); simpl.
    - rewrite add_small by range_lia. repeat split; lia.
    - repeat split; lia. }
  destruct Hmu as (Hu1 & Hu2 & Hu3). destruct Hmd as (Hd1 & Hd2 & Hd3).
  exists up, down. rewrite Hu1, Hd1, Hu3, Hd3.
  repeat (split; [first [done | lia]|]).
  intros h.
  assert (Hr : forall v, messages v = messages u ->
                         0 <= messageScroll v <= Z.max 0 (len (messages u) - 1) ->
                         0 <= messageScroll (renderMessagesPane h v)
                         <= Z.max 0 (len (messages (renderMessagesPane h v)) - 1)).
  { intros v Hv Hc.
    assert (Hm : messages (renderMessagesPane h v) = messages v).
    { unfold renderMessagesPane. repeat case_match; done. }
    rewrite Hm, Hv.
    destruct (Z.eq_dec (len (messages v)) 0) as [H0|H0].
    - unfold renderMessagesPane. rewrite H0. simpl. done.
    - pose proof (renderMessagesPane_cursor h v) as Hrc.
      pose proof (availableLines_range h) as HV.
      rewrite Hv in *. specialize (Hrc Hfit H0). lia. }
  split; apply Hr; first [done | lia].
Qed.

Lemma C5_message_pane_navigation_witness :
  is_up_key "up" /\ is_down_key "down"
  /\ activePane (set_activePane MessagesPane ui_back5) = MessagesPane
  /\ fits (messages (set_activePane MessagesPane ui_back5))
  /\ message_cursor_ok (set_activePane MessagesPane ui_back5)
  /\ exists up down,
       handleKeyPress (set_activePane MessagesPane ui_back5) "up" = Some up
       /\ handleKeyPress (set_activePane MessagesPane ui_back5) "down" = Some down
       /\ messageScroll up = 4 /\ messageScroll down = 6.
Proof.
  split; [by left|]. split; [by left|]. split; [reflexivity|].
  split; [by vm_compute|]. split; [by vm_compute|].
  destruct (C5_message_pane_navigation (set_activePane MessagesPane ui_back5)
              "up" "down") as (up & down & H1 & H2 & H3 & H4 & _).
  - by left.
  - by left.
  - reflexivity.
  - by vm_compute.
  - by vm_compute.
  - exists up, down. split; [exact H1|]. split; [exact H2|].
    split; [exact H3|exact H4].
Defined.

(** ** [sort.Strings] *)

Lemma sort_Strings_perm (l : list string) : sort_Strings l ≡ₚ l.
Proof. apply merge_sort_Permutation. Qed.

Lemma sort_Strings_sorted (l : list string) : StronglySorted String.le (sort_Strings l).
Proof. apply StronglySorted_merge_sort; apply _. Qed.

Lemma len_sort_Strings (l : list string) : len (sort_Strings l) = len l.
Proof. unfold len. by rewrite (Permutation_length (sort_Strings_perm l)). Qed.

(** ** [SetTopics] *)

Lemma topics_SetTopics (ts : list string) (u : UI) :
  topics (SetTopics ts u) = sort_Strings ts.
Proof. unfold SetTopics. simpl. repeat case_match; done. Qed.

Lemma topicScroll_SetTopics (ts : list string) (u : UI) :
  topicScroll (SetTopics ts u) = 0.
Proof. reflexivity. Qed.

Lemma selectedTopic_SetTopics (ts : list string) (u : UI) :
  fits ts ->
  selectedTopic (SetTopics ts u)
  = if len ts <=? selectedTopic u then Z.max 0 (len ts - 1)
    else Z.max 0 (selectedTopic u).
Proof.
  intros Hfit. pose proof (len_nonneg ts) as Hlen.
  unfold SetTopics. simpl. rewrite len_sort_Strings.
  rewrite sub_small by range_lia. rewrite Z.geb_leb.
  destruct (Z.leb_spec (len ts) (selectedTopic u)); simpl;
    bool_cases; simpl; lia.
Qed.

(** C6. Catalog replacement. Whatever the Selection Index was, [SetTopics]
    stores the sorted list and clamps the index to it: an index at or past
    the new length moves to the new last index, an index inside the new list
    is kept, and with an empty list the index is 0; the topic Scroll Cursor
    is reset to 0. *)
Theorem C6_catalog_replacement :
  forall (ts : list string) (u : UI),
    fits ts ->
    let u' := SetTopics ts u in
    topics u' = sort_Strings ts
    /\ len (topics u') = len ts
    /\ (0 < len ts <= selectedTopic u -> selectedTopic u' = len ts - 1)
    /\ (0 <= selectedTopic u < len ts -> selectedTopic u' = selectedTopic u)
    /\ (len ts = 0 -> selectedTopic u' = 0)
    /\ 0 <= selectedTopic u' <= Z.max 0 (len ts - 1)
    /\ topicScroll u' = 0.
Proof.
  intros ts u Hfit u'. subst u'. pose proof (len_nonneg ts) as Hlen.
  rewrite topics_SetTopics, len_sort_Strings, selectedTopic_SetTopics by done.
  split; [done|]. split; [done|].
  destruct (Z.leb_spec (len ts) (selectedTopic u));
    repeat split; try lia; reflexivity.
Qed.

Lemma C6_catalog_replacement_witness :
  fits ["b"; "a"]
  /\ 0 < len ["b"; "a"] <= selectedTopic (set_selectedTopic 7 NewUI)
  /\ selectedTopic (SetTopics ["b"; "a"] (set_selectedTopic 7 NewUI)) = 1
  /\ topicScroll (SetTopics ["b"; "a"] (set_selectedTopic 7 NewUI)) = 0.
Proof.
  split; [by vm_compute|]. split; [by vm_compute|].
  destruct (C6_catalog_replacement ["b"; "a"] (set_selectedTopic 7 NewUI))
    as (_ & _ & Hshrunk & _ & _ & _ & Hscroll).
  - by vm_compute.
  - split; [|exact Hscroll]. apply Hshrunk. by vm_compute.
Defined.

(** ** [ToggleSubscription] *)

Lemma toggle_valid (u : UI) (key : string) :
  is_toggle_key key ->
  activePane u = TopicsPane ->
  selection_valid u ->
  exists topic,
    go_index (topics u) (selectedTopic u) = Some topic
    /\ handleKeyPress u key
       = Some (set_subscribedTopics
                 (<[topic := negb (go_get (subscribedTopics u) topic)]>
                    (subscribedTopics u)) u).
Proof.
  intros Hkey Hpane Hsel. unfold selection_valid in Hsel.
  destruct (go_index_valid (topics u) (selectedTopic u) Hsel) as [topic Ht].
  exists topic. split; [done|].
  rewrite (handleKeyPress_toggle u key Hkey), Hpane, Ht. simpl.
  rewrite Z.gtb_ltb. destruct (Z.ltb_spec 0 (len (topics u))); [done|lia].
Qed.

Lemma go_get_insert (m : gmap string bool) (k k' : string) (b : bool) :
  go_get (<[k := b]> m) k' = if decide (k = k') then b else go_get m k'.
Proof.
  unfold go_get. case_decide as Hk.
  - subst k'. by rewrite lookup_insert_eq.
  - by rewrite lookup_insert_ne.
Qed.

(** C7. Toggling twice. With the Topics pane focused and the Selection
    Index on a topic of the catalog, a toggle key flips the desired flag of
    the selected topic, and a second press restores it: the flag of every
    topic reads as before, the subscribed topics are the same, and
    selection and catalog are untouched. *)
Theorem C7_toggle_twice :
  forall (u : UI) (key : string),
    is_toggle_key key ->
    activePane u = TopicsPane ->
    selection_valid u ->
    exists topic u1 u2,
      go_index (topics u) (selectedTopic u) = Some topic
      /\ handleKeyPress u key = Some u1
      /\ handleKeyPress u1 key = Some u2
      /\ go_get (subscribedTopics u1) topic = negb (go_get (subscribedTopics u) topic)
      /\ go_get (subscribedTopics u2) topic = go_get (subscribedTopics u) topic
      /\ (forall t, go_get (subscribedTopics u2) t = go_get (subscribedTopics u) t)
      /\ (forall R, GetSubscribedTopics R u2 ≡ₚ GetSubscribedTopics R u)
      /\ selectedTopic u2 = selectedTopic u
      /\ topics u2 = topics u.
Proof.
  intros u key Hkey Hpane Hsel.
  destruct (toggle_valid u key Hkey Hpane Hsel) as (topic & Hidx & H1).
  set (u1 := set_subscribedTopics
               (<[topic := negb (go_get (subscribedTopics u) topic)]>
                  (subscribedTopics u)) u) in *.
  destruct (toggle_valid u1 key Hkey Hpane Hsel) as (topic' & Hidx' & H2).
  assert (topic' = topic) as -> by (simpl in Hidx'; congruence).
  assert (Hflags : forall t,
             go_get (<[topic := negb (go_get (subscribedTopics u1) topic)]>
                       (subscribedTopics u1)) t
             = go_get (subscribedTopics u) t).
  { intros t. simpl. rewrite !go_get_insert. case_decide as Ht.
    - subst t. rewrite decide_True by done. apply negb_involutive.
    - done. }
  eexists topic, u1, _. split; [done|]. split; [done|]. split; [exact H2|].
  split; [|split; [|split; [|split]]].
  - simpl. rewrite go_get_insert. by rewrite decide_True.
  - apply Hflags.
  - apply Hflags.
  - intros R. apply NoDup_Permutation; [apply NoDup_GetSubscribedTopics..|].
    intros t. rewrite !elem_of_GetSubscribedTopics.
    specialize (Hflags t). simpl in *. unfold go_get in Hflags.
    destruct (_ !! t) as [[]|]; destruct (subscribedTopics u !! t) as [[]|];
      simpl in Hflags; split; intros; congruence.
  - done.
Qed.

Lemma C7_toggle_twice_witness :
  is_toggle_key "enter"
  /\ activePane ui_A = TopicsPane
  /\ selection_valid ui_A
  /\ exists u1 u2,
       handleKeyPress ui_A "enter" = Some u1
       /\ handleKeyPress u1 "enter" = Some u2
       /\ go_get (subscribedTopics u2) "A" = go_get (subscribedTopics ui_A) "A".
Proof.
  split; [by left|]. split; [reflexivity|]. split; [by vm_compute|].
  destruct (C7_toggle_twice ui_A "enter")
    as (topic & u1 & u2 & Hi & H1 & H2 & _ & Hf & _).
  - by left.
  - reflexivity.
  - by vm_compute.
  - exists u1, u2. split; [exact H1|]. split; [exact H2|].
    assert (topic = "A") as <-; [|exact Hf].
    vm_compute in Hi. congruence.
Defined.

(** C10. First toggle of an untoggled topic. With the Topics pane focused
    and the Selection Index on a topic that has no entry in the
    Subscription Set, a toggle key gives the topic the desired flag [true]:
    the topic was not among the subscribed topics and is among them
    afterwards, and the result is the one obtained from an entry that holds
    [false]. *)
Theorem C10_first_toggle_subscribes :
  forall (u : UI) (key topic : string),
    is_toggle_key key ->
    activePane u = TopicsPane ->
    selection_valid u ->
    go_index (topics u) (selectedTopic u) = Some topic ->
    subscribedTopics u !! topic = None ->
    exists u',
      handleKeyPress u key = Some u'
      /\ subscribedTopics u' !! topic = Some true
      /\ subscribedTopics u' = <[topic := true]> (subscribedTopics u)
      /\ go_get (subscribedTopics u) topic = false
      /\ (forall R, topic ∉ GetSubscribedTopics R u)
      /\ (forall R, topic ∈ GetSubscribedTopics R u')
      /\ handleKeyPress
           (set_subscribedTopics (<[topic := false]> (subscribedTopics u)) u) key
         = Some u'.
Proof.
  intros u key topic Hkey Hpane Hsel Hidx Hnone.
  destruct (toggle_valid u key Hkey Hpane Hsel) as (topic' & Hidx' & H1).
  assert (topic' = topic) as -> by congruence.
  assert (Hget : go_get (subscribedTopics u) topic = false).
  { unfold go_get. by rewrite Hnone. }
  rewrite Hget in H1. simpl in H1.
  eexists. split; [exact H1|]. simpl.
  split; [apply lookup_insert_eq|]. split; [done|]. split; [done|].
  split; [|split].
  - intros R Hin. apply elem_of_GetSubscribedTopics in Hin. congruence.
  - intros R. apply elem_of_GetSubscribedTopics. simpl. apply lookup_insert_eq.
  - set (v := set_subscribedTopics (<[topic := false]> (subscribedTopics u)) u).
    destruct (toggle_valid v key Hkey Hpane Hsel) as (topic' & Hidx'' & H2).
    assert (topic' = topic) as -> by (simpl in Hidx''; congruence).
    rewrite H2. simpl. rewrite go_get_insert, decide_True by done. simpl.
    unfold set_subscribedTopics. simpl. by rewrite insert_insert_eq.
Qed.

Lemma C10_first_toggle_subscribes_witness :
  is_toggle_key "enter"
  /\ activePane ui_A = TopicsPane
  /\ selection_valid ui_A
  /\ go_index (topics ui_A) (selectedTopic ui_A) = Some "A"
  /\ subscribedTopics ui_A !! "A" = None
  /\ exists u',
       handleKeyPress ui_A "enter" = Some u'
       /\ subscribedTopics u' !! "A" = Some true.
Proof.
  split; [by left|]. split; [reflexivity|]. split; [by vm_compute|].
  split; [reflexivity|]. split; [reflexivity|].
  destruct (C10_first_toggle_subscribes ui_A "enter" "A") as (u' & H1 & H2 & _).
  - by left.
  - reflexivity.
  - by vm_compute.
  - reflexivity.
  - reflexivity.
  - exists u'. split; [exact H1|exact H2].
Defined.

(** ** The topic Scroll Cursor *)

Lemma topics_updateTopicScroll (V : Z) (u : UI) :
  topics (updateTopicScroll V u) = topics u.
Proof. unfold updateTopicScroll. repeat (case_match; simpl); done. Qed.

Lemma updateTopicScroll_clamped (V : Z) (u : UI) :
  1 <= V <= GoInt.max_int ->
  fits (topics u) ->
  0 <= topicScroll (updateTopicScroll V u) <= Z.max 0 (len (topics u) - V).
Proof.
  intros HV Hfit. pose proof (len_nonneg (topics u)) as Hlen.
  unfold updateTopicScroll.
  destruct (Z.eqb_spec (len (topics u)) 0) as [H0|H0]; simpl; [lia|].
  set (u1 := if selectedTopic u <? 0 then _ else u).
  assert (Ht1 : topics u1 = topics u) by (subst u1; by case_match).
  set (u2 := if selectedTopic u1 >=? len (topics u1) then _ else u1).
  assert (Ht2 : topics u2 = topics u) by (subst u2; by case_match).
  set (u3 := if selectedTopic u2 <? topicScroll u2 then _ else _).
  assert (Ht3 : topics u3 = topics u) by (subst u3; by repeat case_match).
  set (u4 := if topicScroll u3 <? 0 then _ else u3).
  assert (Ht4 : topics u4 = topics u) by (subst u4; by case_match).
  assert (Hs4 : 0 <= topicScroll u4).
  { subst u4. destruct (Z.ltb_spec (topicScroll u3) 0); simpl; lia. }
  rewrite Ht4. rewrite sub_small by range_lia.
  rewrite Z.gtb_ltb.
  destruct (Z.ltb_spec (len (topics u) - V) 0);
    match goal with
    | |- context [Z.ltb ?x ?y] => destruct (Z.ltb_spec x y)
    end; simpl; lia.
Qed.

Lemma renderTopicsPane_topics (h : Z) (u : UI) :
  topics (renderTopicsPane h u) = topics u.
Proof.
  unfold renderTopicsPane. case_match; [done|]. apply topics_updateTopicScroll.
Qed.

(** The render of the topic pane puts the cursor in range, provided that
    the cursor of an empty catalog is 0. *)
Lemma renderTopicsPane_clamped (h : Z) (u : UI) :
  fits (topics u) ->
  (topics u = [] -> topicScroll u = 0) ->
  scroll_clamped h (renderTopicsPane h u).
Proof.
  intros Hfit Hempty. unfold scroll_clamped.
  rewrite renderTopicsPane_topics. unfold renderTopicsPane.
  destruct (Z.eqb_spec (len (topics u)) 0) as [H0|H0].
  - apply len_nil_iff in H0. rewrite Hempty by done. rewrite H0.
    pose proof (availableLines_range h). change (len []) with 0. lia.
  - apply updateTopicScroll_clamped; [apply availableLines_range|done].
Qed.

Lemma nav_total (op : NavOp) (u : UI) :
  op_fits op -> fits (topics u) ->
  (topics u = [] -> topicScroll u = 0) ->
  exists u', nav op u = Some u'
             /\ fits (topics u')
             /\ (topics u' = [] -> topicScroll u' = 0).
Proof.
  intros Hop Hfit Hempty. destruct op as [| |ts]; simpl.
  - eexists. split; [reflexivity|]. split; repeat case_match; done.
  - eexists. split; [reflexivity|]. split; repeat case_match; done.
  - eexists. split; [reflexivity|]. split; [|done].
    rewrite topics_SetTopics. unfold fits. by rewrite len_sort_Strings.
Qed.

(** C4. Scroll clamp. Starting from a state whose topic Scroll Cursor is in
    range (the initial state [NewUI] is one), every sequence of MoveUp,
    MoveDown and SetTopics operations, each followed by the render of the
    topic pane, runs to the end and leaves the topic Scroll Cursor in
    [0, max(0, N - V)], where [N] is the length of the catalog at the end
    and [V] the visible capacity of the pane. *)
Theorem C4_scroll_clamp :
  forall (pane_height : Z) (ops : list NavOp) (u : UI),
    Forall op_fits ops ->
    fits (topics u) ->
    scroll_clamped pane_height u ->
    exists u',
      run_nav pane_height ops u = Some u'
      /\ 0 <= topicScroll u'
         <= Z.max 0 (len (topics u') - availableLines pane_height).
Proof.
  intros h ops. induction ops as [|op ops IH]; intros u Hops Hfit Hclamp.
  - exists u. split; [done|exact Hclamp].
  - apply Forall_cons in Hops as [Hop Hops].
    assert (Hempty : topics u = [] -> topicScroll u = 0).
    { intros Hnil. unfold scroll_clamped in Hclamp. rewrite Hnil in Hclamp.
      pose proof (availableLines_range h). change (len []) with 0 in Hclamp. lia. }
    destruct (nav_total op u Hop Hfit Hempty) as (u1 & Hnav & Hfit1 & Hempty1).
    simpl. rewrite Hnav. simpl. apply IH; [done| |].
    + by rewrite renderTopicsPane_topics.
    + by apply renderTopicsPane_clamped.
Qed.

Lemma C4_scroll_clamp_witness :
  Forall op_fits [ReplaceCatalog twelve_topics; MoveDown; MoveDown; MoveDown;
                  MoveDown; MoveDown; MoveDown; MoveDown; MoveDown; MoveDown;
                  MoveDown; MoveUp]
  /\ fits (topics NewUI)
  /\ scroll_clamped 10 NewUI
  /\ exists u',
       run_nav 10 [ReplaceCatalog twelve_topics; MoveDown; MoveDown; MoveDown;
                   MoveDown; MoveDown; MoveDown; MoveDown; MoveDown; MoveDown;
                   MoveDown; MoveUp] NewUI = Some u'
       /\ 0 <= topicScroll u' <= Z.max 0 (len (topics u') - availableLines 10).
Proof.
  assert (Hops : Forall op_fits
                   [ReplaceCatalog twelve_topics; MoveDown; MoveDown; MoveDown;
                    MoveDown; MoveDown; MoveDown; MoveDown; MoveDown; MoveDown;
                    MoveDown; MoveUp]).
  { repeat constructor. by vm_compute. }
  split; [exact Hops|]. split; [by vm_compute|]. split; [by vm_compute|].
  apply (C4_scroll_clamp 10).
  - exact Hops.
  - by vm_compute.
  - by vm_compute.
Defined.

(** ** The topic registry *)

Lemma discoveredTopics_observe_all (m : MQTTClient) (obs : list Discovery) (t : string) :
  discoveredTopics (observe_all m obs) !! t
  = if decide (t ∈ observed obs) then Some true else discoveredTopics m !! t.
Proof.
  revert m. induction obs as [|o obs IH]; intros m.
  - unfold observed. cbn [observe_all foldl fmap list_fmap].
    case_decide as Hin; [|done]. by apply elem_of_nil in Hin.
  - change (observe_all m (o :: obs))
      with (observe_all (discoveryHandler m o.1.1 o.1.2 o.2).1 obs).
    rewrite IH. change (observed (o :: obs)) with (o.1.1 :: observed obs).
    simpl. repeat case_decide; try done.
    + exfalso. match goal with H : _ ∉ _ :: _ |- _ => apply H end.
      by apply list_elem_of_further.
    + match goal with H : _ ∈ _ :: _ |- _ => apply elem_of_cons in H as [->|?] end;
        [apply lookup_insert_eq|done].
    + apply lookup_insert_ne. intros <-.
      match goal with H : _ ∉ _ :: _ |- _ => apply H end. apply list_elem_of_here.
Qed.

Lemma Update_MQTTTopicsDiscoveredMsg (R : RangeOrder) (a : App) (ts : list string) :
  exists cmds,
    Update R a (MQTTTopicsDiscoveredMsg ts)
    = Some (set_ui (SetTopics ts (ui a)) a, cmds).
Proof. simpl. unfold update_ui_and_subscriptions. simpl. eauto. Qed.

(** C8. Registry snapshot. Starting from a client that has discovered
    nothing, after any sequence of discoveries the topic discovery command
    yields a [MQTTTopicsDiscoveredMsg], and once [Update] has handled it
    the catalog of the UI holds exactly the observed topics, each once, in
    ascending lexicographic order, whatever the iteration order of the
    map. *)
Theorem C8_registry_snapshot :
  forall (R : RangeOrder) (m0 : MQTTClient) (obs : list Discovery) (a : App),
    discoveredTopics m0 = ∅ ->
    exists ts a' cmds,
      run_DiscoverTopicsCmd R (observe_all m0 obs) None = MQTTTopicsDiscoveredMsg ts
      /\ Update R a (MQTTTopicsDiscoveredMsg ts) = Some (a', cmds)
      /\ (forall t, t ∈ topics (ui a') <-> t ∈ observed obs)
      /\ NoDup (topics (ui a'))
      /\ StronglySorted String.le (topics (ui a')).
Proof.
  intros R m0 obs a Hm0.
  destruct (Update_MQTTTopicsDiscoveredMsg R a
              (foldl (fun (topics : list string) (kv : string * bool) => topics ++ [kv.1])
                     [] (range R (discoveredTopics (observe_all m0 obs)))))
    as [cmds Hup].
  eexists _, _, cmds. split; [reflexivity|]. split; [exact Hup|].
  cbn [ui set_ui]. rewrite topics_SetTopics, foldl_snoc_all, app_nil_l.
  split; [|split].
  - intros t. rewrite (sort_Strings_perm _), list_elem_of_fmap. split.
    + intros [[k v] [-> Hin]]. apply elem_of_range in Hin. simpl.
      rewrite discoveredTopics_observe_all, Hm0, lookup_empty in Hin.
      by case_decide.
    + intros Hin. exists (t, true). split; [done|]. apply elem_of_range.
      rewrite discoveredTopics_observe_all. by rewrite decide_True.
  - rewrite (sort_Strings_perm _). apply NoDup_fst_range.
  - apply sort_Strings_sorted.
Qed.

Lemma C8_registry_snapshot_witness :
  discoveredTopics NewMQTTClient = ∅
  /\ exists ts a' cmds,
       run_DiscoverTopicsCmd map_order
         (observe_all NewMQTTClient
            [("b/2", "x", 1); ("a/1", "y", 2); ("b/2", "z", 3)])
         None = MQTTTopicsDiscoveredMsg ts
       /\ Update map_order (app_of client_up NewUI) (MQTTTopicsDiscoveredMsg ts)
          = Some (a', cmds)
       /\ NoDup (topics (ui a')).
Proof.
  split; [reflexivity|].
  destruct (C8_registry_snapshot map_order NewMQTTClient
              [("b/2", "x", 1); ("a/1", "y", 2); ("b/2", "z", 3)]
              (app_of client_up NewUI) eq_refl)
    as (ts & a' & cmds & H1 & H2 & _ & H3 & _).
  exists ts, a', cmds. split; [exact H1|]. split; [exact H2|exact H3].
Defined.

(** ** The invariants of the data model in the event loop *)

Lemma ui_invariant_NewUI : ui_invariant NewUI.
Proof.
  unfold ui_invariant, message_cursor_ok. simpl.
  repeat split; try done; by vm_compute.
Qed.

Lemma ui_invariant_handleKeyPress (u : UI) (key : string) :
  ui_invariant u ->
  exists u', handleKeyPress u key = Some u' /\ ui_invariant u'.
Proof.
  intros (Hft & Hfm & Hsel & Hcur & Hempty).
  unfold message_cursor_ok in Hcur.
  pose proof (len_nonneg (topics u)) as Hlt.
  pose proof (len_nonneg (messages u)) as Hlm.
  unfold handleKeyPress.
  destruct (String.eqb key "tab").
  { eexists. split; [done|]. destruct (is_TopicsPane (activePane u)); done. }
  destruct (String.eqb key "up" || String.eqb key "k").
  { eexists. split; [done|]. unfold ui_invariant, message_cursor_ok.
    destruct (is_TopicsPane (activePane u)); rewrite Z.gtb_ltb;
      match goal with
      | |- context [Z.ltb ?x ?y] => destruct (Z.ltb_spec x y)
      end; simpl; try done;
      rewrite sub_small by range_lia; repeat split; first [done | lia]. }
  destruct (String.eqb key "down" || String.eqb key "j").
  { eexists. split; [done|]. unfold ui_invariant, message_cursor_ok.
    rewrite !sub_small by range_lia.
    destruct (is_TopicsPane (activePane u));
      match goal with
      | |- context [Z.ltb ?x ?y] => destruct (Z.ltb_spec x y)
      end; simpl; try done;
      rewrite add_small by range_lia; repeat split; first [done | lia]. }
  destruct (String.eqb key "enter" || String.eqb key " ").
  { destruct (is_TopicsPane (activePane u)); simpl; [|by eexists].
    rewrite Z.gtb_ltb. destruct (Z.ltb_spec 0 (len (topics u))); [|by eexists].
    destruct (go_index_valid (topics u) (selectedTopic u)) as [topic ->]; [lia|].
    eexists. split; [done|]. done. }
  destruct (String.eqb key "r").
  { eexists. split; [done|]. unfold ui_invariant, message_cursor_ok. simpl.
    repeat split; first [done | lia | by vm_compute]. }
  by eexists.
Qed.

Lemma ui_invariant_SetTopics (ts : list string) (u : UI) :
  fits ts -> ui_invariant u -> ui_invariant (SetTopics ts u).
Proof.
  intros Hfit (Hft & Hfm & Hsel & Hcur & Hempty).
  pose proof (len_nonneg ts) as Hlen.
  unfold ui_invariant. rewrite topics_SetTopics, selectedTopic_SetTopics by done.
  rewrite len_sort_Strings.
  split; [unfold fits; by rewrite len_sort_Strings|].
  split; [unfold SetTopics; simpl; by repeat case_match|].
  split; [bool_cases; lia|].
  split; [unfold SetTopics, message_cursor_ok in *; simpl; by repeat case_match|].
  done.
Qed.

Lemma ui_invariant_AddMessage (t p : string) (ts : Z) (u : UI) :
  len (messages u) + 1 <= GoInt.max_int ->
  ui_invariant u -> ui_invariant (AddMessage t p ts u).
Proof.
  intros Hfit (Hft & Hfm & Hsel & Hcur & Hempty).
  pose proof (len_nonneg (messages u)) as Hlen.
  unfold ui_invariant, message_cursor_ok in *.
  rewrite messages_AddMessage, messageScroll_AddMessage, len_app by done.
  change (len [_]) with 1.
  assert (Hsame : topics (AddMessage t p ts u) = topics u
                  /\ selectedTopic (AddMessage t p ts u) = selectedTopic u
                  /\ topicScroll (AddMessage t p ts u) = topicScroll u).
  { unfold AddMessage. simpl. repeat case_match; done. }
  destruct Hsame as (-> & -> & ->).
  split; [done|]. split; [unfold fits; rewrite len_app; by change (len [_]) with 1|].
  split; [done|]. split; [|done].
  destruct (is_MessagesPane (activePane u) || _); lia.
Qed.

Lemma ui_invariant_renderTopicsPane (h : Z) (u : UI) :
  ui_invariant u -> ui_invariant (renderTopicsPane h u).
Proof.
  intros (Hft & Hfm & Hsel & Hcur & Hempty).
  pose proof (len_nonneg (topics u)) as Hlen.
  unfold renderTopicsPane.
  destruct (Z.eqb_spec (len (topics u)) 0) as [H0|H0]; [done|].
  assert (Hne : topics u <> []) by (intros Hnil; by apply len_nil_iff in Hnil).
  unfold ui_invariant, message_cursor_ok in *.
  rewrite topics_updateTopicScroll.
  assert (Hsame : messages (updateTopicScroll (availableLines h) u) = messages u
                  /\ messageScroll (updateTopicScroll (availableLines h) u)
                     = messageScroll u
                  /\ selectedTopic (updateTopicScroll (availableLines h) u)
                     = selectedTopic u).
  { unfold updateTopicScroll.
    destruct (Z.eqb_spec (len (topics u)) 0); [done|].
    destruct (Z.ltb_spec (selectedTopic u) 0); [lia|].
    rewrite Z.geb_leb.
    destruct (Z.leb_spec (len (topics u)) (selectedTopic u)); [lia|].
    repeat (case_match; simpl); done. }
  destruct Hsame as (-> & -> & ->). done.
Qed.

Lemma ui_invariant_renderMessagesPane (h : Z) (u : UI) :
  ui_invariant u -> ui_invariant (renderMessagesPane h u).
Proof.
  intros (Hft & Hfm & Hsel & Hcur & Hempty).
  pose proof (len_nonneg (messages u)) as Hlen.
  pose proof (availableLines_range h) as HV.
  destruct (Z.eq_dec (len (messages u)) 0) as [H0|H0].
  { unfold renderMessagesPane. rewrite H0. done. }
  pose proof (renderMessagesPane_cursor h u Hfm H0) as Hc.
  assert (Hsame : topics (renderMessagesPane h u) = topics u
                  /\ messages (renderMessagesPane h u) = messages u
                  /\ selectedTopic (renderMessagesPane h u) = selectedTopic u
                  /\ topicScroll (renderMessagesPane h u) = topicScroll u).
  { unfold renderMessagesPane. repeat (case_match; simpl); done. }
  destruct Hsame as (Ht & Hm & Hs & Hts).
  unfold ui_invariant, message_cursor_ok. rewrite Ht, Hm, Hs, Hts.
  repeat split; first [done | lia].
Qed.

Lemma ui_invariant_View (u : UI) : ui_invariant u -> ui_invariant (View u).
Proof.
  intros Hinv. unfold View. case_match; [done|].
  by apply ui_invariant_renderMessagesPane, ui_invariant_renderTopicsPane.
Qed.

(** [Update] never panics on a state that satisfies the invariants, and
    it keeps them. *)
Lemma Update_invariant (R : RangeOrder) (a : App) (msg : Msg) :
  ui_invariant (ui a) ->
  msg_fits (ui a) msg ->
  exists a' cmds, Update R a msg = Some (a', cmds) /\ ui_invariant (ui a').
Proof.
  intros Hinv Hfit.
  assert (Htail : forall a0 pre,
            ui_invariant (ui a0) ->
            exists a' cmds,
              update_ui_and_subscriptions R a0 pre msg = Some (a', cmds)
              /\ ui_invariant (ui a')).
  { intros a0 pre Hinv0. unfold update_ui_and_subscriptions.
    assert (Hu : exists u', UI_Update (ui a0) msg = Some u' /\ ui_invariant u').
    { destruct msg; simpl; eauto using ui_invariant_handleKeyPress. }
    destruct Hu as (u' & -> & Hinv'). simpl. eauto. }
  destruct msg as [w h|key| | |new_topics|topic payload timestamp|err]; simpl.
  - eauto.
  - destruct (is_quit_key key); [eauto|]. by apply Htail.
  - by apply Htail.
  - by apply Htail.
  - apply Htail. simpl. by apply ui_invariant_SetTopics.
  - apply Htail. simpl. by apply ui_invariant_AddMessage.
  - by apply Htail.
Qed.

Lemma msg_fits_Update (R : RangeOrder) (a : App) (msg : Msg)
    (a' : App) (cmds : list Cmd) :
  ui_invariant (ui a) ->
  msg_fits (ui a) msg ->
  Update R a msg = Some (a', cmds) ->
  ui_invariant (ui a').
Proof.
  intros Hinv Hfit Hup.
  destruct (Update_invariant R a msg Hinv Hfit) as (a2 & cmds2 & Hup2 & Hinv2).
  congruence.
Qed.

(** The event loop never panics on a state that satisfies the invariants,
    and it keeps them. *)
Lemma loop_step_invariant (R : RangeOrder) (a : App) (msg : Msg) :
  ui_invariant (ui a) ->
  msg_fits (ui a) msg ->
  exists a' cmds, loop_step R a msg = Some (a', cmds) /\ ui_invariant (ui a').
Proof.
  intros Hinv Hfit. unfold loop_step.
  destruct (Update_invariant R a msg Hinv Hfit) as (a' & cmds & -> & Hinv').
  eexists _, cmds. split; [done|]. simpl. by apply ui_invariant_View.
Qed.

Lemma reachable_invariant (R : RangeOrder) (a : App) :
  reachable R a -> ui_invariant (ui a).
Proof.
  induction 1 as [a Hinit|a msg a' cmds Hreach IH Hfit Hstep].
  - rewrite Hinit. apply ui_invariant_NewUI.
  - destruct (loop_step_invariant R a msg IH Hfit) as (a2 & cmds2 & Hs & Hinv).
    congruence.
Qed.

(** In a reachable state with a catalog that is not empty, the Selection
    Index points into the catalog. *)
Lemma reachable_selection_valid (R : RangeOrder) (a : App) :
  reachable R a -> topics (ui a) <> [] -> selection_valid (ui a).
Proof.
  intros Hreach Hne.
  destruct (reachable_invariant R a Hreach) as (_ & _ & Hsel & _).
  unfold selection_valid. pose proof (len_nonneg (topics (ui a))) as Hlen.
  assert (len (topics (ui a)) <> 0) by (intros H0; by apply len_nil_iff in H0).
  lia.
Qed.

Lemma reachable_message_cursor_ok (R : RangeOrder) (a : App) :
  reachable R a -> message_cursor_ok (ui a).
Proof. intros Hreach. by destruct (reachable_invariant R a Hreach) as (_ & _ & _ & ? & _). Qed.

Lemma updateTopicScroll_stages (V : Z) (u : UI) :
  updateTopicScroll V u
  = if len (topics u) =? 0 then set_topicScroll 0 u
    else scroll_stage_bounds V (scroll_stage_follow V (scroll_stage_selection u)).
Proof. reflexivity. Qed.

(** The render of the topic pane changes the Selection Index and the topic
    cursor only, the render of the messages pane the message cursor only. *)
Lemma renderTopicsPane_shape (h : Z) (u : UI) :
  renderTopicsPane h u
  = set_topicScroll (topicScroll (renderTopicsPane h u))
      (set_selectedTopic (selectedTopic (renderTopicsPane h u)) u).
Proof.
  assert (H1 : forall v, scroll_stage_selection v
                         = set_selectedTopic (selectedTopic (scroll_stage_selection v)) v).
  { intros [ts1 sel1 tsc1 st1 ms1 msc1 w1 hh1 p1 e1].
    unfold scroll_stage_selection. simpl.
    destruct (sel1 <? 0); simpl; destruct (_ >=? _); reflexivity. }
  assert (H2 : forall V v, scroll_stage_follow V v
                           = set_topicScroll (topicScroll (scroll_stage_follow V v)) v).
  { intros V [ts1 sel1 tsc1 st1 ms1 msc1 w1 hh1 p1 e1].
    unfold scroll_stage_follow. simpl.
    destruct (sel1 <? tsc1); [reflexivity|]. destruct (_ >=? _); reflexivity. }
  assert (H3 : forall V v, scroll_stage_bounds V v
                           = set_topicScroll (topicScroll (scroll_stage_bounds V v)) v).
  { intros V [ts1 sel1 tsc1 st1 ms1 msc1 w1 hh1 p1 e1].
    unfold scroll_stage_bounds. simpl.
    destruct (tsc1 <? 0); simpl; destruct (_ >? _); reflexivity. }
  unfold renderTopicsPane. rewrite updateTopicScroll_stages.
  destruct (len (topics u) =? 0); [by destruct u|].
  set (V := availableLines h).
  set (u1 := scroll_stage_selection u).
  set (u2 := scroll_stage_follow V u1).
  set (u3 := scroll_stage_bounds V u2).
  assert (E3 : u3 = set_topicScroll (topicScroll u3) u2) by apply H3.
  assert (E2 : u2 = set_topicScroll (topicScroll u2) u1) by apply H2.
  assert (E1 : u1 = set_selectedTopic (selectedTopic u1) u) by apply H1.
  assert (Hs : selectedTopic u3 = selectedTopic u1).
  { rewrite E3. simpl. rewrite E2. done. }
  rewrite Hs. rewrite E3 at 1. rewrite E2, E1. destruct u. reflexivity.
Qed.

Lemma renderMessagesPane_shape (h : Z) (u : UI) :
  renderMessagesPane h u
  = set_messageScroll (messageScroll (renderMessagesPane h u)) u.
Proof.
  destruct u as [ts sel tsc st ms msc w hh p e].
  unfold renderMessagesPane. simpl.
  destruct (len ms =? 0); [reflexivity|].
  destruct (msc >? _); simpl; destruct (_ <? 0); reflexivity.
Qed.

(** Once the window size is known, every state that the event loop
    reaches has its topic Scroll Cursor in [0, max(0, N - V)], for the
    visible capacity [V] that [View] gives the topic pane. *)
Lemma reachable_scroll_clamped (R : RangeOrder) (a : App) :
  reachable R a ->
  width (ui a) <> 0 -> height (ui a) <> 0 ->
  scroll_clamped (availableHeight (height (ui a))) (ui a).
Proof.
  intros Hreach Hw Hh.
  destruct Hreach as [a Hinit|a msg a' cmds Hreach Hfit Hstep].
  - rewrite Hinit in Hw. done.
  - pose proof (reachable_invariant R a Hreach) as Hinv.
    unfold loop_step in Hstep.
    destruct (Update R a msg) as [[a1 cmds1]|] eqn:Hup; [|done].
    injection Hstep as <- <-. simpl in *.
    pose proof (msg_fits_Update R a msg a1 cmds1 Hinv Hfit Hup) as Hinv1.
    revert Hw Hh. unfold View.
    destruct (Z.eqb_spec (width (ui a1)) 0) as [Hw0|Hw0]; [done|].
    destruct (Z.eqb_spec (height (ui a1)) 0) as [Hh0|Hh0]; [done|].
    simpl. intros _ _.
    set (H := availableHeight (height (ui a1))).
    assert (Hhe : height (renderMessagesPane H (renderTopicsPane H (ui a1)))
                  = height (ui a1)).
    { rewrite renderMessagesPane_shape, renderTopicsPane_shape. done. }
    rewrite Hhe. fold H.
    destruct Hinv1 as (Hft & _ & _ & _ & Hempty).
    pose proof (renderTopicsPane_clamped H (ui a1) Hft Hempty) as Hc.
    unfold scroll_clamped in *.
    assert (Hsame : topics (renderMessagesPane H (renderTopicsPane H (ui a1)))
                    = topics (renderTopicsPane H (ui a1))
                    /\ topicScroll (renderMessagesPane H (renderTopicsPane H (ui a1)))
                       = topicScroll (renderTopicsPane H (ui a1))).
    { unfold renderMessagesPane. repeat (case_match; simpl); done. }
    destruct Hsame as (-> & ->). exact Hc.
Qed.

(** ** Scenarios *)

(** Down, enter, tab, then a message on [b/2]: the second topic is
    selected and subscribed, the Messages pane has focus, the stream holds
    the one message and the window of the messages pane shows it; the only
    command issued is the subscription to [b/2]. *)
Example scenario_select_subscribe_receive :
  exists a,
    run_loop map_order
      [KeyMsg "down"; KeyMsg "enter"; KeyMsg "tab"; MQTTMessageMsg "b/2" "on" 7]
      app_two_topics
    = Some (a, [subscribeToTopicCmd "b/2"])
    /\ topics (ui a) = ["a/1"; "b/2"]
    /\ selectedTopic (ui a) = 1
    /\ GetSubscribedTopics map_order (ui a) = ["b/2"]
    /\ activePane (ui a) = MessagesPane
    /\ messages (ui a) = [{| Topic := "b/2"; Payload := "on"; Timestamp := 7 |}]
    /\ messagesWindow (availableHeight 24) (ui a) = (0, 1).
Proof. eexists. split; [by vm_compute|]. by vm_compute. Qed.

(** Ten messages, then the reset key: the stream is empty and the cursor
    is 0. *)
Example scenario_reset :
  exists u,
    handleKeyPress ui_back5 "r" = Some u
    /\ len (messages ui_back5) = 10
    /\ messages u = []
    /\ messageScroll u = 0.
Proof. eexists. split; [reflexivity|]. by vm_compute. Qed.

(** Two presses of the tab key give the focus back. *)
Example scenario_toggle_focus (u : UI) :
  exists u1 u2,
    handleKeyPress u "tab" = Some u1
    /\ handleKeyPress u1 "tab" = Some u2
    /\ activePane u1 <> activePane u
    /\ activePane u2 = activePane u.
Proof.
  eexists _, _. split; [reflexivity|]. split; [reflexivity|].
  destruct u as [? ? ? ? ? ? ? ? [] ?]; simpl; done.
Qed.

(** Three discoveries of two topics give the catalog [a/1, b/2]. *)
Example scenario_registry :
  exists ts a cmds,
    run_DiscoverTopicsCmd map_order
      (observe_all NewMQTTClient [("b/2", "x", 1); ("a/1", "y", 2); ("b/2", "z", 3)])
      None = MQTTTopicsDiscoveredMsg ts
    /\ Update map_order (app_of client_up NewUI) (MQTTTopicsDiscoveredMsg ts)
       = Some (a, cmds)
    /\ topics (ui a) = ["a/1"; "b/2"]
    /\ cmds = [].
Proof. eexists _, _, _. split; [reflexivity|]. split; by vm_compute. Qed.

(** Ten presses of the down key in a catalog of twelve topics and a pane of
    seven rows scroll the pane by four rows. *)
Example scenario_scroll :
  exists u,
    run_nav 10 [ReplaceCatalog twelve_topics; MoveDown; MoveDown; MoveDown;
                MoveDown; MoveDown; MoveDown; MoveDown; MoveDown; MoveDown;
                MoveDown] NewUI = Some u
    /\ availableLines 10 = 7
    /\ selectedTopic u = 10
    /\ topicScroll u = 4.
Proof. eexists. split; [by vm_compute|]. by vm_compute. Qed.

(** * Further properties of the code *)

(** ** Focus and navigation in the topic pane *)

(** X1. Two presses of the tab key give back the state they started from:
    the first press changes the focus and nothing else, the second undoes
    it. *)
Theorem X1_tab_twice_identity :
  forall (u : UI),
    exists u1,
      handleKeyPress u "tab" = Some u1
      /\ activePane u1 <> activePane u
      /\ u1 = set_activePane (activePane u1) u
      /\ handleKeyPress u1 "tab" = Some u.
Proof.
  intros [ts sel tsc st ms msc w h [] e]; eexists; (split; [reflexivity|]);
    simpl; repeat split; done.
Qed.

(** X2. Topic-pane navigation. With the Topics pane focused and the
    Selection Index in [0, N-1] (0 for an empty catalog), the up keys move
    the selection one topic back unless it is 0, the down keys one topic
    forward unless it is on the last topic; the index stays in range and
    neither the catalog, the Subscription Set, the topic cursor nor the
    message cursor is touched. *)
Theorem X2_topic_pane_navigation :
  forall (u : UI) (kup kdown : string),
    is_up_key kup -> is_down_key kdown ->
    activePane u = TopicsPane ->
    fits (topics u) ->
    0 <= selectedTopic u <= Z.max 0 (len (topics u) - 1) ->
    exists up down,
      handleKeyPress u kup = Some up
      /\ handleKeyPress u kdown = Some down
      /\ up = set_selectedTopic (Z.max 0 (selectedTopic u - 1)) u
      /\ down = set_selectedTopic
                  (Z.min (selectedTopic u + 1) (Z.max 0 (len (topics u) - 1))) u
      /\ 0 <= selectedTopic up <= Z.max 0 (len (topics u) - 1)
      /\ 0 <= selectedTopic down <= Z.max 0 (len (topics u) - 1).
Proof.
  intros u kup kdown Hup Hdown Hpane Hfit Hsel.
  pose proof (len_nonneg (topics u)) as Hlen.
  rewrite (handleKeyPress_up u kup Hup), (handleKeyPress_down u kdown Hdown).
  rewrite Hpane. simpl.
  rewrite (sub_small (len (topics u)) 1) by range_lia.
  eexists _, _. split; [reflexivity|]. split; [reflexivity|].
  destruct u as [ts sel tsc st ms msc w h p e]. simpl in *.
  rewrite Z.gtb_ltb.
  destruct (Z.ltb_spec 0 sel), (Z.ltb_spec sel (len ts - 1)); simpl;
    rewrite ?sub_small, ?add_small by range_lia;
    unfold set_selectedTopic; simpl;
    (split; [f_equal; lia|]); (split; [f_equal; lia|]); lia.
Qed.

Lemma X2_topic_pane_navigation_witness :
  is_up_key "k" /\ is_down_key "j"
  /\ activePane ui_twelve_sel10 = TopicsPane
  /\ fits (topics ui_twelve_sel10)
  /\ 0 <= selectedTopic ui_twelve_sel10
     <= Z.max 0 (len (topics ui_twelve_sel10) - 1)
  /\ exists up down,
       handleKeyPress ui_twelve_sel10 "k" = Some up
       /\ handleKeyPress ui_twelve_sel10 "j" = Some down
       /\ selectedTopic up = 9 /\ selectedTopic down = 11.
Proof.
  split; [by right|]. split; [by right|]. split; [reflexivity|].
  split; [by vm_compute|]. split; [by vm_compute|].
  destruct (X2_topic_pane_navigation ui_twelve_sel10 "k" "j")
    as (up & down & H1 & H2 & H3 & H4 & _).
  - by right.
  - by right.
  - reflexivity.
  - by vm_compute.
  - by vm_compute.
  - exists up, down. split; [exact H1|]. split; [exact H2|].
    rewrite H3, H4. split; reflexivity.
Defined.

(** ** The window of the topic pane *)

Lemma add_wrap_cases (x y : Z) :
  GoInt.in_range x -> 1 <= y <= GoInt.max_int ->
  GoInt.add x y = x + y \/ (GoInt.add x y < 0 /\ GoInt.max_int < x + y).
Proof.
  intros Hx Hy.
  destruct (Z_le_gt_dec (x + y) GoInt.max_int) as [Hle|Hgt].
  - left. apply add_small. range_lia.
  - right. split; [|lia]. unfold GoInt.add, GoInt.wrap.
    unfold GoInt.in_range, GoInt.min_int, GoInt.max_int in *.
    replace (x + y + 9223372036854775808)
      with ((x + y - 9223372036854775808) + 1 * 18446744073709551616) by lia.
    rewrite Z.mod_add by lia. rewrite Z.mod_small by lia. lia.
Qed.

Lemma scroll_stage_selection_eq (u : UI) :
  fits (topics u) -> len (topics u) <> 0 ->
  scroll_stage_selection u
  = set_selectedTopic (Z.max 0 (Z.min (selectedTopic u) (len (topics u) - 1))) u.
Proof.
  intros Hfit Hne. pose proof (len_nonneg (topics u)) as Hlen.
  destruct u as [ts sel tsc st ms msc w h p e]. simpl in *.
  unfold scroll_stage_selection. simpl.
  destruct (Z.ltb_spec sel 0); simpl; rewrite Z.geb_leb;
    match goal with
    | |- context [Z.leb ?x ?y] => destruct (Z.leb_spec x y)
    end; simpl; rewrite ?sub_small by range_lia;
    unfold set_selectedTopic; simpl; f_equal; lia.
Qed.

Lemma scroll_stage_follow_facts (V : Z) (u : UI) :
  1 <= V <= GoInt.max_int ->
  0 <= selectedTopic u <= GoInt.max_int ->
  GoInt.in_range (topicScroll u) ->
  let u' := scroll_stage_follow V u in
  u' = set_topicScroll (topicScroll u') u
  /\ topicScroll u' <= selectedTopic u < topicScroll u' + V
  /\ GoInt.in_range (topicScroll u').
Proof.
  intros HV Hsel Hts.
  destruct u as [ts sel tsc st ms msc w h p e]. simpl in *.
  unfold scroll_stage_follow. simpl.
  destruct (Z.ltb_spec sel tsc); simpl.
  { repeat split; range_lia. }
  rewrite Z.geb_leb.
  destruct (add_wrap_cases tsc V Hts HV) as [Hadd|[Hneg Hbig]].
  - rewrite Hadd. destruct (Z.leb_spec (tsc + V) sel); simpl.
    + rewrite (sub_small sel V) by range_lia.
      rewrite (add_small (sel - V) 1) by range_lia.
      repeat split; range_lia.
    + repeat split; range_lia.
  - destruct (Z.leb_spec (GoInt.add tsc V) sel); [|lia]. simpl.
    rewrite (sub_small sel V) by range_lia.
    rewrite (add_small (sel - V) 1) by range_lia.
    repeat split; range_lia.
Qed.

Lemma scroll_stage_bounds_facts (V : Z) (u : UI) :
  1 <= V <= GoInt.max_int ->
  fits (topics u) ->
  0 <= selectedTopic u < len (topics u) ->
  topicScroll u <= selectedTopic u < topicScroll u + V ->
  let u' := scroll_stage_bounds V u in
  u' = set_topicScroll (topicScroll u') u
  /\ topicScroll u' <= selectedTopic u < topicScroll u' + V
  /\ 0 <= topicScroll u' <= Z.max 0 (len (topics u) - V).
Proof.
  intros HV Hfit Hsel Hvis.
  destruct u as [ts sel tsc st ms msc w h p e]. simpl in *.
  unfold scroll_stage_bounds. simpl.
  destruct (Z.ltb_spec tsc 0); simpl; rewrite sub_small by range_lia;
    rewrite Z.gtb_ltb;
    destruct (Z.ltb_spec (len ts - V) 0);
    match goal with
    | |- context [Z.ltb ?x ?y] => destruct (Z.ltb_spec x y)
    end; simpl; repeat split; lia.
Qed.

Lemma updateTopicScroll_facts (V : Z) (u : UI) :
  1 <= V <= GoInt.max_int ->
  fits (topics u) ->
  len (topics u) <> 0 ->
  GoInt.in_range (topicScroll u) ->
  let u' := updateTopicScroll V u in
  u' = set_topicScroll (topicScroll u') (set_selectedTopic (selectedTopic u') u)
  /\ selectedTopic u' = Z.max 0 (Z.min (selectedTopic u) (len (topics u) - 1))
  /\ topicScroll u' <= selectedTopic u' < topicScroll u' + V
  /\ 0 <= topicScroll u' <= Z.max 0 (len (topics u) - V).
Proof.
  intros HV Hfit Hne Hts. pose proof (len_nonneg (topics u)) as Hlen.
  cbv zeta. rewrite updateTopicScroll_stages.
  destruct (Z.eqb_spec (len (topics u)) 0); [done|].
  rewrite scroll_stage_selection_eq by done.
  set (sel1 := Z.max 0 (Z.min (selectedTopic u) (len (topics u) - 1))).
  set (u1 := set_selectedTopic sel1 u).
  assert (Hsel1 : 0 <= sel1 < len (topics u)) by lia.
  destruct (scroll_stage_follow_facts V u1 HV) as (He2 & Hv2 & Hr2);
    [simpl; range_lia|done|].
  set (u2 := scroll_stage_follow V u1) in *.
  assert (Ht2 : topics u2 = topics u) by (rewrite He2; done).
  assert (Hs2 : selectedTopic u2 = sel1) by (rewrite He2; done).
  destruct (scroll_stage_bounds_facts V u2 HV) as (He3 & Hv3 & Hr3).
  { by rewrite Ht2. }
  { by rewrite Ht2, Hs2. }
  { by rewrite Hs2. }
  set (u3 := scroll_stage_bounds V u2) in *.
  rewrite Ht2 in Hr3. rewrite Hs2 in Hv3.
  assert (Hs3 : selectedTopic u3 = sel1) by (rewrite He3; simpl; done).
  rewrite Hs3. split; [|done].
  rewrite He3 at 1. rewrite He2. done.
Qed.

(** X3. Scroll to keep the selection visible. For a catalog that is not
    empty, the render of the topic pane puts the Selection Index in
    [0, N-1] and leaves the topic cursor such that the selected topic lies
    in the window drawn; the window starts at the cursor, lies inside the
    catalog and holds min(V, N) topics, so no row stays empty while topics
    are hidden. *)
Theorem X3_selection_visible :
  forall (h : Z) (u : UI),
    fits (topics u) ->
    topics u <> [] ->
    GoInt.in_range (topicScroll u) ->
    let u' := renderTopicsPane h u in
    let win := topicsWindow h u' in
    topics u' = topics u
    /\ selectedTopic u'
       = Z.max 0 (Z.min (selectedTopic u) (len (topics u) - 1))
    /\ in_window win (selectedTopic u')
    /\ win.1 = topicScroll u'
    /\ 0 <= win.1
    /\ win.2 <= len (topics u)
    /\ win.2 - win.1 = Z.min (availableLines h) (len (topics u)).
Proof.
  intros h u Hfit Hne Hts. cbv zeta.
  pose proof (len_nonneg (topics u)) as Hlen.
  pose proof (availableLines_range h) as HV.
  assert (Hne0 : len (topics u) <> 0) by (intros H0; by apply len_nil_iff in H0).
  rewrite renderTopicsPane_topics. unfold renderTopicsPane.
  destruct (Z.eqb_spec (len (topics u)) 0); [done|].
  destruct (updateTopicScroll_facts (availableLines h) u HV Hfit Hne0 Hts)
    as (_ & Hsel & Hvis & Hrange).
  set (u' := updateTopicScroll (availableLines h) u) in *.
  assert (Ht : topics u' = topics u) by apply topics_updateTopicScroll.
  unfold in_window, topicsWindow. rewrite Ht. simpl.
  rewrite add_small by range_lia. rewrite Z.gtb_ltb.
  split; [done|]. split; [done|].
  destruct (Z.ltb_spec (len (topics u)) (topicScroll u' + availableLines h));
    simpl; repeat split; lia.
Qed.

Lemma X3_selection_visible_witness :
  fits (topics ui_twelve_sel10)
  /\ topics ui_twelve_sel10 <> []
  /\ GoInt.in_range (topicScroll ui_twelve_sel10)
  /\ in_window (topicsWindow 10 (renderTopicsPane 10 ui_twelve_sel10))
               (selectedTopic (renderTopicsPane 10 ui_twelve_sel10)).
Proof.
  split; [by vm_compute|]. split; [done|]. split; [by vm_compute|].
  apply (X3_selection_visible 10 ui_twelve_sel10).
  - by vm_compute.
  - done.
  - by vm_compute.
Defined.

(** ** Strings *)

Lemma slen_nonneg (s : string) : 0 <= slen s.
Proof. unfold slen. lia. Qed.

Lemma length_append (s1 s2 : string) :
  String.length (s1 +:+ s2) = (String.length s1 + String.length s2)%nat.
Proof. induction s1 as [|c s1 IH]; simpl; [done|]. by rewrite IH. Qed.

Lemma slen_app (s1 s2 : string) : slen (s1 +:+ s2) = slen s1 + slen s2.
Proof. unfold slen. rewrite length_append. lia. Qed.

Lemma length_substring_0 (n : nat) (s : string) :
  String.length (String.substring 0 n s) = Nat.min n (String.length s).
Proof.
  revert n. induction s as [|c s IH]; intros [|n]; simpl; try done.
  by rewrite IH.
Qed.

Lemma prefix_substring_0 (n : nat) (s : string) :
  String.prefix (String.substring 0 n s) s = true.
Proof.
  revert n. induction s as [|c s IH]; intros [|n]; simpl; try done.
  destruct (Ascii.ascii_dec c c); [apply IH|done].
Qed.

Lemma go_prefix_facts (s : string) (n : Z) :
  0 <= n <= slen s ->
  exists cut, go_prefix s n = Some cut
              /\ slen cut = n
              /\ String.prefix cut s = true.
Proof.
  intros Hn. unfold go_prefix.
  destruct (Z.leb_spec 0 n); [|lia]. destruct (Z.leb_spec n (slen s)); [|lia].
  simpl. eexists. split; [done|]. split; [|apply prefix_substring_0].
  unfold slen in *. rewrite length_substring_0. lia.
Qed.

(** X4. The text of a topic in the topic pane. A topic of at most
    max(10, width-8) bytes is shown as it is; a longer one is cut to that
    many bytes: its first max(10, width-8)-3 bytes followed by three dots.
    The slice never goes out of range. *)
Theorem X4_displayTopic :
  forall (pane_width : Z) (topic : string),
    let limit := Z.max 10 (GoInt.sub pane_width 8) in
    exists shown,
      displayTopic pane_width topic = Some shown
      /\ slen shown = Z.min (slen topic) limit
      /\ (slen topic <= limit -> shown = topic)
      /\ (limit < slen topic ->
          exists cut, shown = cut +:+ "..."
                      /\ String.prefix cut topic = true
                      /\ slen cut = limit - 3).
Proof.
  intros w topic. cbv zeta. unfold displayTopic.
  pose proof (wrap_in_range (w - 8)) as Hr. fold (GoInt.sub w 8) in Hr.
  set (m := GoInt.sub w 8) in *.
  assert (Hlim : (if m <? 10 then 10 else m) = Z.max 10 m)
    by (destruct (Z.ltb_spec m 10); lia).
  rewrite Hlim. set (limit := Z.max 10 m).
  assert (Hl : 10 <= limit <= GoInt.max_int) by (subst limit; range_lia).
  rewrite Z.gtb_ltb. destruct (Z.ltb_spec limit (slen topic)).
  - rewrite sub_small by range_lia.
    destruct (go_prefix_facts topic (limit - 3)) as (cut & -> & Hcl & Hpre); [lia|].
    simpl. eexists. split; [done|]. rewrite slen_app, Hcl.
    change (slen "...") with 3.
    split; [lia|]. split; [lia|]. intros _. by exists cut.
  - eexists. split; [done|]. split; [lia|]. split; [done|lia].
Qed.

(** ** The items of the topic pane *)

Lemma displayTopic_total (pane_width : Z) (topic : string) :
  is_Some (displayTopic pane_width topic).
Proof.
  unfold displayTopic.
  pose proof (wrap_in_range (pane_width - 8)) as Hr.
  fold (GoInt.sub pane_width 8) in Hr. set (m := GoInt.sub pane_width 8) in *.
  set (limit := if m <? 10 then 10 else m).
  assert (Hl : 10 <= limit <= GoInt.max_int)
    by (subst limit; destruct (Z.ltb_spec m 10); range_lia).
  rewrite Z.gtb_ltb. destruct (Z.ltb_spec limit (slen topic)); [|done].
  rewrite sub_small by range_lia.
  destruct (go_prefix_facts topic (limit - 3)) as (cut & -> & _); [lia|]. done.
Qed.

Lemma topicsWindow_clamped (h : Z) (u : UI) :
  fits (topics u) ->
  0 <= topicScroll u <= Z.max 0 (len (topics u) - availableLines h) ->
  topicsWindow h u
  = (topicScroll u, topicScroll u + Z.min (availableLines h) (len (topics u))).
Proof.
  intros Hfit Hr. pose proof (availableLines_range h) as HV.
  pose proof (len_nonneg (topics u)) as Hlen.
  unfold topicsWindow. rewrite add_small by range_lia. rewrite Z.gtb_ltb.
  destruct (Z.ltb_spec (len (topics u)) (topicScroll u + availableLines h));
    f_equal; lia.
Qed.

(** X5. The items of the topic pane. For a catalog that is not empty the
    render never indexes out of range and draws min(V, N) items, one for
    each topic of the window in catalog order: the item of a topic carries
    the check mark exactly when the desired flag of the topic is set, and
    is drawn as selected exactly when the Topics pane has focus and the
    topic is the selected one. The indicator for hidden topics above is
    shown exactly when the window does not start at the first topic, the
    one for hidden topics below exactly when it does not reach the last. *)
Theorem X5_topic_pane_items :
  forall (pane_width h : Z) (u : UI),
    fits (topics u) ->
    topics u <> [] ->
    GoInt.in_range (topicScroll u) ->
    let u' := renderTopicsPane h u in
    exists v,
      renderTopicsPane_view pane_width h u = Some (u', v)
      /\ len (pane_items v) = Z.min (availableLines h) (len (topics u))
      /\ (forall (k : nat) (row : TopicRow),
             pane_items v !! k = Some row ->
             exists topic shown,
               go_index (topics u) (topicScroll u' + Z.of_nat k) = Some topic
               /\ displayTopic pane_width topic = Some shown
               /\ row_text row
                  = (if go_get (subscribedTopics u) topic then "✓ " else "  ")
                    +:+ shown
               /\ (row_selected row = true <->
                   activePane u = TopicsPane
                   /\ topicScroll u' + Z.of_nat k = selectedTopic u'))
      /\ (pane_more_above v = true <-> 0 < topicScroll u')
      /\ (pane_more_below v = true <->
          topicScroll u' + len (pane_items v) < len (topics u)).
Proof.
  intros w h u Hfit Hne Hts. cbv zeta.
  pose proof (len_nonneg (topics u)) as Hlen.
  pose proof (availableLines_range h) as HV.
  assert (Hne0 : len (topics u) <> 0) by (intros H0; by apply len_nil_iff in H0).
  unfold renderTopicsPane_view, renderTopicsPane.
  destruct (Z.eqb_spec (len (topics u)) 0) as [?|_]; [done|].
  destruct (updateTopicScroll_facts (availableLines h) u HV Hfit Hne0 Hts)
    as (Heq & Hsel & Hvis & Hrange).
  set (u' := updateTopicScroll (availableLines h) u) in *.
  assert (Ht : topics u' = topics u) by (rewrite Heq; done).
  assert (Hst : subscribedTopics u' = subscribedTopics u) by (rewrite Heq; done).
  assert (Hap : activePane u' = activePane u) by (rewrite Heq; done).
  rewrite topicsWindow_clamped by (rewrite Ht; done). rewrite Ht.
  set (s := topicScroll u') in *.
  set (n := Z.min (availableLines h) (len (topics u))).
  replace (s + n - s) with n by lia.
  assert (Hall : Forall (is_Some ∘ topicRow w u') (seqZ s n)).
  { apply Forall_seqZ. intros i Hi. unfold compose, topicRow. rewrite Ht.
    destruct (go_index_valid (topics u) i) as [topic ->]; [lia|]. simpl.
    destruct (displayTopic_total w topic) as [shown ->]. done. }
  apply mapM_is_Some_2 in Hall as [items Hitems]. rewrite Hitems. simpl.
  eexists. split; [reflexivity|]. simpl.
  pose proof (mapM_Some_1 _ _ _ Hitems) as Hf2.
  assert (Hlen_items : len items = n).
  { unfold len. rewrite <- (length_mapM _ _ _ Hitems), length_seqZ. lia. }
  split; [done|]. split; [|split].
  - intros k row Hk.
    destruct (Forall2_lookup_r _ _ _ _ _ Hf2 Hk) as (i & Hi & Hrow).
    apply lookup_seqZ in Hi as [-> Hkn].
    unfold topicRow in Hrow. rewrite Ht, Hst, Hap in Hrow.
    destruct (go_index (topics u) (s + Z.of_nat k)) as [topic|] eqn:Hidx; [|done].
    simpl in Hrow.
    destruct (displayTopic w topic) as [shown|] eqn:Hshown; [|done].
    simpl in Hrow. injection Hrow as <-. simpl.
    exists topic, shown. split; [done|]. split; [done|]. split; [done|].
    rewrite andb_true_iff, Z.eqb_eq.
    destruct (activePane u); simpl; split; intros [? ?]; done.
  - rewrite Z.gtb_ltb. apply Z.ltb_lt.
  - rewrite Hlen_items. apply Z.ltb_lt.
Qed.

Lemma X5_topic_pane_items_witness :
  fits (topics ui_twelve_sel10)
  /\ topics ui_twelve_sel10 <> []
  /\ GoInt.in_range (topicScroll ui_twelve_sel10)
  /\ exists v,
       renderTopicsPane_view 30 10 ui_twelve_sel10
       = Some (renderTopicsPane 10 ui_twelve_sel10, v)
       /\ len (pane_items v) = 7.
Proof.
  split; [by vm_compute|]. split; [done|]. split; [by vm_compute|].
  destruct (X5_topic_pane_items 30 10 ui_twelve_sel10) as (v & H1 & H2 & _).
  - by vm_compute.
  - done.
  - by vm_compute.
  - exists v. split; [exact H1|exact H2].
Defined.

(** ** The window of the messages pane *)

Lemma renderMessagesPane_empty (h : Z) (u : UI) :
  len (messages u) = 0 -> renderMessagesPane h u = u.
Proof. intros H0. unfold renderMessagesPane. by rewrite H0. Qed.

Lemma renderMessagesPane_eq (h : Z) (u : UI) :
  fits (messages u) ->
  len (messages u) <> 0 ->
  renderMessagesPane h u
  = set_messageScroll
      (Z.max 0 (Z.min (messageScroll u)
                      (Z.max 0 (len (messages u) - availableLines h)))) u.
Proof.
  intros Hfit Hne. pose proof (availableLines_range h) as HV.
  pose proof (len_nonneg (messages u)) as Hlen.
  destruct u as [ts sel tsc st ms msc w hh p e]. simpl in *.
  unfold renderMessagesPane. simpl.
  destruct (Z.eqb_spec (len ms) 0) as [?|_]; [done|].
  rewrite sub_small by range_lia. rewrite Z.gtb_ltb.
  replace (if len ms - availableLines h <? 0 then 0 else len ms - availableLines h)
    with (Z.max 0 (len ms - availableLines h))
    by (destruct (Z.ltb_spec (len ms - availableLines h) 0); lia).
  repeat (match goal with
          | |- context [Z.ltb ?x ?y] => destruct (Z.ltb_spec x y)
          end; simpl);
    unfold set_messageScroll in *; simpl in *; f_equal; lia.
Qed.

Lemma messagesWindow_clamped (h : Z) (u : UI) :
  fits (messages u) ->
  0 <= messageScroll u <= Z.max 0 (len (messages u) - availableLines h) ->
  messagesWindow h u
  = (messageScroll u,
     messageScroll u + Z.min (availableLines h) (len (messages u))).
Proof.
  intros Hfit Hr. pose proof (availableLines_range h) as HV.
  pose proof (len_nonneg (messages u)) as Hlen.
  unfold messagesWindow. rewrite add_small by range_lia. rewrite Z.gtb_ltb.
  destruct (Z.ltb_spec (len (messages u)) (messageScroll u + availableLines h));
    f_equal; lia.
Qed.

(** X6. The window of the messages pane. For a stream that is not empty
    the render changes nothing but the message cursor, which it brings into
    [0, max(0, L - V)]; the window then starts at the cursor, lies inside
    the stream and holds min(V, L) messages. *)
Theorem X6_messages_window :
  forall (h : Z) (u : UI),
    fits (messages u) ->
    messages u <> [] ->
    let u' := renderMessagesPane h u in
    let win := messagesWindow h u' in
    let V := availableLines h in
    let L := len (messages u) in
    u' = set_messageScroll (messageScroll u') u
    /\ messageScroll u' = Z.max 0 (Z.min (messageScroll u) (Z.max 0 (L - V)))
    /\ win.1 = messageScroll u'
    /\ 0 <= win.1
    /\ win.2 <= L
    /\ win.2 - win.1 = Z.min V L.
Proof.
  intros h u Hfit Hne. cbv zeta.
  pose proof (availableLines_range h) as HV.
  pose proof (len_nonneg (messages u)) as Hlen.
  assert (Hne0 : len (messages u) <> 0) by (intros H0; by apply len_nil_iff in H0).
  rewrite (renderMessagesPane_eq h u Hfit Hne0).
  set (c := Z.max 0 (Z.min _ _)).
  rewrite messagesWindow_clamped by (simpl; first [done | lia]).
  simpl. repeat split; lia.
Qed.

Lemma X6_messages_window_witness :
  fits (messages ui_back5)
  /\ messages ui_back5 <> []
  /\ (messagesWindow 10 (renderMessagesPane 10 ui_back5)).2
     - (messagesWindow 10 (renderMessagesPane 10 ui_back5)).1
     = Z.min (availableLines 10) (len (messages ui_back5)).
Proof.
  split; [by vm_compute|]. split; [done|].
  apply (X6_messages_window 10 ui_back5).
  - by vm_compute.
  - done.
Defined.

(** ** Rendering twice *)

Lemma updateTopicScroll_fixed (V : Z) (u : UI) :
  1 <= V <= GoInt.max_int ->
  fits (topics u) ->
  0 <= selectedTopic u < len (topics u) ->
  topicScroll u <= selectedTopic u < topicScroll u + V ->
  0 <= topicScroll u <= Z.max 0 (len (topics u) - V) ->
  updateTopicScroll V u = u.
Proof.
  intros HV Hfit Hsel Hvis Hr. pose proof (len_nonneg (topics u)) as Hlen.
  destruct u as [ts sel tsc st ms msc w hh p e]. simpl in *.
  rewrite updateTopicScroll_stages. simpl.
  destruct (Z.eqb_spec (len ts) 0) as [?|_]; [lia|].
  rewrite scroll_stage_selection_eq by (simpl; first [done | lia]). simpl.
  replace (Z.max 0 (Z.min sel (len ts - 1))) with sel by lia.
  unfold set_selectedTopic. simpl.
  unfold scroll_stage_follow. simpl.
  rewrite (add_small tsc V) by range_lia. rewrite Z.geb_leb.
  destruct (Z.ltb_spec sel tsc); [lia|].
  destruct (Z.leb_spec (tsc + V) sel); [lia|].
  unfold scroll_stage_bounds. simpl.
  destruct (Z.ltb_spec tsc 0); [lia|]. simpl.
  rewrite sub_small by range_lia. rewrite Z.gtb_ltb.
  destruct (Z.ltb_spec (len ts - V) 0);
    match goal with
    | |- context [Z.ltb ?x ?y] => destruct (Z.ltb_spec x y)
    end; first [lia | reflexivity].
Qed.

Lemma renderTopicsPane_idempotent (h : Z) (u : UI) :
  fits (topics u) ->
  GoInt.in_range (topicScroll u) ->
  renderTopicsPane h (renderTopicsPane h u) = renderTopicsPane h u.
Proof.
  intros Hfit Hts. pose proof (availableLines_range h) as HV.
  destruct (Z.eq_dec (len (topics u)) 0) as [H0|Hne0].
  - unfold renderTopicsPane. rewrite H0. simpl. by rewrite H0.
  - assert (Hr : renderTopicsPane h u = updateTopicScroll (availableLines h) u).
    { unfold renderTopicsPane. by destruct (Z.eqb_spec (len (topics u)) 0). }
    destruct (updateTopicScroll_facts (availableLines h) u HV Hfit Hne0 Hts)
      as (_ & Hsel & Hvis & Hrange).
    rewrite Hr. set (u' := updateTopicScroll (availableLines h) u) in *.
    assert (Ht : topics u' = topics u) by apply topics_updateTopicScroll.
    unfold renderTopicsPane. rewrite Ht.
    destruct (Z.eqb_spec (len (topics u)) 0) as [?|_]; [done|].
    pose proof (len_nonneg (topics u)).
    apply updateTopicScroll_fixed; rewrite ?Ht; first [done | lia].
Qed.

Lemma renderMessagesPane_idempotent (h : Z) (u : UI) :
  fits (messages u) ->
  renderMessagesPane h (renderMessagesPane h u) = renderMessagesPane h u.
Proof.
  intros Hfit. pose proof (availableLines_range h) as HV.
  pose proof (len_nonneg (messages u)) as Hlen.
  destruct (Z.eq_dec (len (messages u)) 0) as [H0|Hne0].
  - rewrite (renderMessagesPane_empty h u H0). by apply renderMessagesPane_empty.
  - rewrite (renderMessagesPane_eq h u Hfit Hne0).
    rewrite renderMessagesPane_eq by done. simpl.
    unfold set_messageScroll. simpl. f_equal. lia.
Qed.

Lemma renderTopicsPane_set_messageScroll (h c : Z) (u : UI) :
  renderTopicsPane h (set_messageScroll c u)
  = set_messageScroll c (renderTopicsPane h u).
Proof.
  destruct u as [ts sel tsc st ms msc w hh p e].
  unfold renderTopicsPane. rewrite !updateTopicScroll_stages. simpl.
  destruct (len ts =? 0); [reflexivity|].
  set (V := availableLines h).
  assert (H1 : forall v, scroll_stage_selection (set_messageScroll c v)
                         = set_messageScroll c (scroll_stage_selection v)).
  { intros [ts1 sel1 tsc1 st1 ms1 msc1 w1 hh1 p1 e1].
    unfold scroll_stage_selection. simpl.
    destruct (sel1 <? 0); simpl; destruct (_ >=? _); reflexivity. }
  assert (H2 : forall v, scroll_stage_follow V (set_messageScroll c v)
                         = set_messageScroll c (scroll_stage_follow V v)).
  { intros [ts1 sel1 tsc1 st1 ms1 msc1 w1 hh1 p1 e1].
    unfold scroll_stage_follow. simpl.
    destruct (sel1 <? tsc1); [reflexivity|]. destruct (_ >=? _); reflexivity. }
  assert (H3 : forall v, scroll_stage_bounds V (set_messageScroll c v)
                         = set_messageScroll c (scroll_stage_bounds V v)).
  { intros [ts1 sel1 tsc1 st1 ms1 msc1 w1 hh1 p1 e1].
    unfold scroll_stage_bounds. simpl.
    destruct (tsc1 <? 0); simpl; destruct (_ >? _); reflexivity. }
  change {| topics := ts; selectedTopic := sel; topicScroll := tsc;
            subscribedTopics := st; messages := ms; messageScroll := c;
            width := w; height := hh; activePane := p; error := e |}
    with (set_messageScroll c (Build_UI ts sel tsc st ms msc w hh p e)).
  by rewrite H1, H2, H3.
Qed.

(** X7. Rendering is idempotent. [View] changes the state (it corrects the
    selection and the two cursors), but a second [View] on the state that
    the first one left changes nothing. *)
Theorem X7_View_idempotent :
  forall (u : UI),
    fits (topics u) ->
    fits (messages u) ->
    GoInt.in_range (topicScroll u) ->
    View (View u) = View u.
Proof.
  intros u Hft Hfm Hts. unfold View.
  destruct ((width u =? 0) || (height u =? 0)) eqn:Hsize.
  { by rewrite Hsize. }
  set (H := availableHeight (height u)).
  set (x := renderTopicsPane H u).
  set (y := renderMessagesPane H x).
  assert (Hy : y = set_messageScroll (messageScroll y) x)
    by apply renderMessagesPane_shape.
  assert (Hx : x = set_topicScroll (topicScroll x)
                     (set_selectedTopic (selectedTopic x) u))
    by apply renderTopicsPane_shape.
  assert (Hwy : width y = width u /\ height y = height u).
  { rewrite Hy, Hx. done. }
  destruct Hwy as [-> ->]. rewrite Hsize. fold H.
  assert (Hmx : messages x = messages u) by (rewrite Hx; done).
  assert (Hxx : renderTopicsPane H x = x)
    by (by apply renderTopicsPane_idempotent).
  assert (Hty : renderTopicsPane H y = y).
  { rewrite Hy. rewrite renderTopicsPane_set_messageScroll. by rewrite Hxx. }
  rewrite Hty. apply renderMessagesPane_idempotent. by rewrite Hmx.
Qed.

Lemma X7_View_idempotent_witness :
  fits (topics ui_full_window)
  /\ fits (messages ui_full_window)
  /\ GoInt.in_range (topicScroll ui_full_window)
  /\ View (View ui_full_window) = View ui_full_window.
Proof.
  split; [by vm_compute|]. split; [by vm_compute|]. split; [by vm_compute|].
  apply X7_View_idempotent; by vm_compute.
Defined.

(** ** Appending and rendering *)

Lemma availableLines_View (h : Z) :
  7 <= availableLines (availableHeight h) <= GoInt.max_int.
Proof.
  pose proof (availableLines_range (availableHeight h)) as HV.
  split; [|lia]. unfold availableLines, availableHeight in *.
  pose proof (wrap_in_range (h - 4)) as Hr. fold (GoInt.sub h 4) in Hr.
  set (x := GoInt.sub h 4) in *.
  destruct (Z.ltb_spec x 10).
  - rewrite sub_small by range_lia. simpl. lia.
  - rewrite sub_small by range_lia. destruct (Z.ltb_spec (x - 3) 1); lia.
Qed.

(** X8. Following the stream. After a message is appended while the
    Messages pane has focus, or while the cursor is at most four positions
    before the previous length, the render draws the last min(V, L+1)
    messages of the stream, the new one last. *)
Theorem X8_append_follows_tail :
  forall (t p : string) (ts h : Z) (u : UI),
    len (messages u) + 1 <= GoInt.max_int ->
    activePane u = MessagesPane \/ len (messages u) - 4 <= messageScroll u ->
    let u' := renderMessagesPane h (AddMessage t p ts u) in
    let L' := len (messages u) + 1 in
    messages u' = messages u ++ [{| Topic := t; Payload := p; Timestamp := ts |}]
    /\ messagesWindow h u' = (Z.max 0 (L' - availableLines h), L').
Proof.
  intros t p ts h u Hfit Hnear. cbv zeta.
  pose proof (len_nonneg (messages u)) as Hlen.
  pose proof (availableLines_range h) as HV.
  set (v := AddMessage t p ts u).
  assert (Hm : messages v = messages u ++ [{| Topic := t; Payload := p; Timestamp := ts |}])
    by apply messages_AddMessage.
  assert (Hl : len (messages v) = len (messages u) + 1).
  { rewrite Hm, len_app. done. }
  assert (Hc : messageScroll v = len (messages u)).
  { subst v. rewrite messageScroll_AddMessage by done.
    destruct Hnear as [-> | Hnear]; [done|].
    destruct (Z.leb_spec (len (messages u) - 4) (messageScroll u)); [|lia].
    by rewrite orb_true_r. }
  assert (Hfv : fits (messages v)) by (unfold fits; lia).
  rewrite (renderMessagesPane_eq h v) by first [done | lia].
  split; [done|].
  rewrite messagesWindow_clamped by (simpl; first [done | lia]).
  simpl. rewrite Hc, Hl. f_equal; lia.
Qed.

Lemma X8_append_follows_tail_witness :
  len (messages ui_back5) + 1 <= GoInt.max_int
  /\ (activePane (set_activePane MessagesPane ui_back5) = MessagesPane
      \/ len (messages ui_back5) - 4 <= messageScroll ui_back5)
  /\ messagesWindow 10
       (renderMessagesPane 10
          (AddMessage "t" "p" 0 (set_activePane MessagesPane ui_back5)))
     = (Z.max 0 (len (messages ui_back5) + 1 - availableLines 10),
        len (messages ui_back5) + 1).
Proof.
  split; [by vm_compute|]. split; [by left|].
  apply (X8_append_follows_tail "t" "p" 0 10 (set_activePane MessagesPane ui_back5)).
  - by vm_compute.
  - by left.
Defined.

(** X9. No following from a full window while the Topics pane has focus.
    In a window of known size, [View] gives the messages pane at least
    seven rows. When the Topics pane has focus and the stream fills the
    pane, with the cursor where a render leaves it (at most L - V), a
    message that is appended does not move the cursor, and the next [View]
    draws the same V messages as before: the new message lies below the
    window. *)
Theorem X9_append_below_full_window :
  forall (t p : string) (ts : Z) (u : UI),
    width u <> 0 -> height u <> 0 ->
    activePane u = TopicsPane ->
    len (messages u) + 1 <= GoInt.max_int ->
    let H := availableHeight (height u) in
    let V := availableLines H in
    0 <= messageScroll u <= len (messages u) - V ->
    let u' := View (AddMessage t p ts u) in
    7 <= V
    /\ messageScroll u' = messageScroll u
    /\ messagesWindow H u' = (messageScroll u, messageScroll u + V)
    /\ messagesWindow H u' = messagesWindow H u
    /\ ~ in_window (messagesWindow H u') (len (messages u)).
Proof.
  intros t p ts u Hw Hh Hpane Hfit. cbv zeta. intros Hc.
  pose proof (len_nonneg (messages u)) as Hlen.
  pose proof (availableLines_View (height u)) as HV.
  set (H := availableHeight (height u)) in *.
  set (V := availableLines H) in *.
  set (v := AddMessage t p ts u).
  assert (Hm : messages v = messages u ++ [{| Topic := t; Payload := p; Timestamp := ts |}])
    by apply messages_AddMessage.
  assert (Hl : len (messages v) = len (messages u) + 1).
  { rewrite Hm, len_app. done. }
  assert (Hcv : messageScroll v = messageScroll u).
  { subst v. rewrite messageScroll_AddMessage by done. rewrite Hpane. simpl.
    destruct (Z.leb_spec (len (messages u) - 4) (messageScroll u)); [lia|done]. }
  assert (Hsz : width v = width u /\ height v = height u).
  { subst v. unfold AddMessage. simpl. repeat case_match; done. }
  destruct Hsz as [Hwv Hhv].
  assert (Hview : View v = renderMessagesPane H (renderTopicsPane H v)).
  { unfold View. rewrite Hwv, Hhv.
    destruct (Z.eqb_spec (width u) 0); [done|].
    destruct (Z.eqb_spec (height u) 0); [done|]. done. }
  set (x := renderTopicsPane H v) in *.
  assert (Hx : messages x = messages v /\ messageScroll x = messageScroll v).
  { subst x. rewrite renderTopicsPane_shape. done. }
  destruct Hx as [Hmx Hcx].
  assert (Hfx : fits (messages x)) by (rewrite Hmx; unfold fits; lia).
  assert (Hr : View v = set_messageScroll (messageScroll u) x).
  { rewrite Hview. rewrite renderMessagesPane_eq by first [done | rewrite Hmx, Hl; lia].
    rewrite Hmx, Hcx, Hcv, Hl. f_equal. fold V. lia. }
  split; [lia|]. rewrite Hr. split; [done|].
  assert (Hw1 : messagesWindow H (set_messageScroll (messageScroll u) x)
                = (messageScroll u, messageScroll u + V)).
  { rewrite messagesWindow_clamped; simpl; rewrite ?Hmx, ?Hl; fold V;
      [f_equal; lia|unfold fits; lia|lia]. }
  rewrite Hw1. split; [done|]. split.
  - rewrite messagesWindow_clamped; fold V; [f_equal; lia|unfold fits; lia|lia].
  - unfold in_window. simpl. lia.
Qed.

Lemma X9_append_below_full_window_witness :
  width ui_full_window <> 0 /\ height ui_full_window <> 0
  /\ activePane ui_full_window = TopicsPane
  /\ len (messages ui_full_window) + 1 <= GoInt.max_int
  /\ 0 <= messageScroll ui_full_window
     <= len (messages ui_full_window)
        - availableLines (availableHeight (height ui_full_window))
  /\ messageScroll (View (AddMessage "t" "p" 0 ui_full_window))
     = messageScroll ui_full_window.
Proof.
  split; [done|]. split; [done|]. split; [reflexivity|].
  split; [by vm_compute|]. split; [by vm_compute|].
  apply (X9_append_below_full_window "t" "p" 0 ui_full_window).
  - done.
  - done.
  - reflexivity.
  - by vm_compute.
  - by vm_compute.
Defined.

(** ** What a pass of [Update] does to the subscriptions *)

Lemma is_toggle_key_not_quit (key : string) :
  is_toggle_key key -> is_quit_key key = false.
Proof. intros [-> | ->]; reflexivity. Qed.

Lemma is_toggle_key_eqb (key : string) :
  String.eqb key "enter" || String.eqb key " " = true <-> is_toggle_key key.
Proof.
  unfold is_toggle_key. rewrite orb_true_iff, !String.eqb_eq. done.
Qed.

(** A key press leaves the Subscription Set as it is, or it is a toggle
    key in the Topics pane and flips the flag of the selected topic. *)
Lemma handleKeyPress_subscribedTopics (u : UI) (key : string) (u' : UI) :
  handleKeyPress u key = Some u' ->
  subscribedTopics u' = subscribedTopics u
  \/ (is_toggle_key key
      /\ activePane u = TopicsPane
      /\ exists topic,
           go_index (topics u) (selectedTopic u) = Some topic
           /\ subscribedTopics u'
              = <[topic := negb (go_get (subscribedTopics u) topic)]>
                  (subscribedTopics u)).
Proof.
  unfold handleKeyPress. intros H.
  destruct (String.eqb key "tab").
  { injection H as <-. left. by destruct (is_TopicsPane _). }
  destruct (String.eqb key "up" || String.eqb key "k").
  { injection H as <-. left. repeat case_match; done. }
  destruct (String.eqb key "down" || String.eqb key "j").
  { injection H as <-. left. repeat case_match; done. }
  destruct (String.eqb key "enter" || String.eqb key " ") eqn:Hk.
  { apply is_toggle_key_eqb in Hk.
    destruct (activePane u) eqn:Hp; simpl in H; [|injection H as <-; by left].
    destruct (len (topics u) >? 0); [|injection H as <-; by left].
    destruct (go_index (topics u) (selectedTopic u)) as [topic|] eqn:Hi; [|done].
    injection H as <-. right. split; [done|]. split; [done|]. by exists topic. }
  destruct (String.eqb key "r"); injection H as <-; by left.
Qed.

(** X10. A toggle on a connected client issues exactly one command. With
    the Topics pane focused and the Selection Index on a topic of the
    catalog, a pass of [Update] on a toggle key flips the desired flag of
    the selected topic and issues the single command that matches the new
    flag: a subscription when the flag was not set, an unsubscription when
    it was. *)
Theorem X10_toggle_issues_one_command :
  forall (R : RangeOrder) (a : App) (key topic : string),
    connected a = true ->
    is_toggle_key key ->
    activePane (ui a) = TopicsPane ->
    selection_valid (ui a) ->
    go_index (topics (ui a)) (selectedTopic (ui a)) = Some topic ->
    Update R a (KeyMsg key)
    = Some (set_ui (set_subscribedTopics
                      (<[topic := negb (go_get (subscribedTopics (ui a)) topic)]>
                         (subscribedTopics (ui a))) (ui a)) a,
            [if go_get (subscribedTopics (ui a)) topic
             then unsubscribeFromTopicCmd topic
             else subscribeToTopicCmd topic]).
Proof.
  intros R a key topic Hconn Hkey Hpane Hsel Hidx.
  destruct (toggle_valid (ui a) key Hkey Hpane Hsel) as (topic' & Hidx' & Hpress).
  assert (topic' = topic) as -> by congruence.
  simpl. rewrite (is_toggle_key_not_quit key Hkey).
  unfold update_ui_and_subscriptions. simpl. rewrite Hpress. simpl.
  replace (connected (set_ui _ a)) with (connected a) by done.
  rewrite Hconn. simpl. f_equal. f_equal.
  set (m := subscribedTopics (ui a)).
  set (u' := set_subscribedTopics (<[topic := negb (go_get m topic)]> m) (ui a)).
  apply NoDup_singleton_eq; [apply NoDup_handleSubscriptionChanges|].
  assert (Hnew : forall t, subscribedTopics u' !! t = Some true <->
                           (t = topic /\ go_get m topic = false)
                           \/ (t <> topic /\ m !! t = Some true)).
  { intros t. subst u'. simpl. destruct (decide (t = topic)) as [->|Hne].
    - rewrite lookup_insert_eq. destruct (go_get m topic); simpl;
        split; [done|intros [[_ ?]|[? _]]; done| |]; [by left|done].
    - rewrite lookup_insert_ne by done. split; [by right|].
      intros [[? _]|[_ ?]]; done. }
  assert (Hold : m !! topic = Some true <-> go_get m topic = true).
  { unfold go_get. destruct (m !! topic) as [[]|]; simpl; split; done. }
  intros c. split.
  - intros Hc.
    destruct (handleSubscriptionChanges_shape R _ _ c Hc) as [t [->| ->]].
    + apply elem_of_subscribe in Hc as [Hin Hnin].
      rewrite elem_of_GetSubscribedTopics in Hin, Hnin.
      apply Hnew in Hin as [[-> Hf]|[Hne Ht]]; [by rewrite Hf|done].
    + apply elem_of_unsubscribe in Hc as [Hin Hnin].
      rewrite elem_of_GetSubscribedTopics in Hin, Hnin.
      rewrite Hnew in Hnin.
      destruct (decide (t = topic)) as [->|Hne].
      * apply Hold in Hin. by rewrite Hin.
      * exfalso. apply Hnin. by right.
  - intros ->. destruct (go_get m topic) eqn:Hg.
    + apply elem_of_unsubscribe. rewrite !elem_of_GetSubscribedTopics.
      split; [by apply Hold|]. rewrite Hnew. intros [[_ ?]|[? _]]; congruence.
    + apply elem_of_subscribe. rewrite !elem_of_GetSubscribedTopics.
      split; [apply Hnew; by left|]. fold m. rewrite Hold. congruence.
Qed.

Lemma X10_toggle_issues_one_command_witness :
  connected (app_of client_up ui_A_wanted) = true
  /\ is_toggle_key " "
  /\ activePane ui_A_wanted = TopicsPane
  /\ selection_valid ui_A_wanted
  /\ go_index (topics ui_A_wanted) (selectedTopic ui_A_wanted) = Some "A"
  /\ exists a',
       Update map_order (app_of client_up ui_A_wanted) (KeyMsg " ")
       = Some (a', [unsubscribeFromTopicCmd "A"]).
Proof.
  split; [reflexivity|]. split; [by right|]. split; [reflexivity|].
  split; [by vm_compute|]. split; [reflexivity|].
  eexists.
  apply (X10_toggle_issues_one_command map_order
           (app_of client_up ui_A_wanted) " " "A").
  - reflexivity.
  - by right.
  - reflexivity.
  - by vm_compute.
  - reflexivity.
Defined.

Lemma Update_ui_cases (R : RangeOrder) (a : App) (msg : Msg)
    (a' : App) (cmds : list Cmd) :
  Update R a msg = Some (a', cmds) ->
  match msg with
  | WindowSizeMsg w h => ui a' = set_size w h (ui a)
  | KeyMsg key =>
      if is_quit_key key then ui a' = ui a
      else handleKeyPress (ui a) key = Some (ui a')
  | MQTTTopicsDiscoveredMsg new_topics => ui a' = SetTopics new_topics (ui a)
  | MQTTMessageMsg t p ts => ui a' = AddMessage t p ts (ui a)
  | MQTTErrorMsg err => ui a' = SetError ("MQTT Error: " +:+ err) (ui a)
  | _ => ui a' = ui a
  end.
Proof.
  intros H.
  assert (Htail : forall a0 pre,
            update_ui_and_subscriptions R a0 pre msg = Some (a', cmds) ->
            UI_Update (ui a0) msg = Some (ui a')).
  { intros a0 pre Ht. by destruct (tail_mqtt R a0 pre msg a' cmds Ht). }
  destruct msg as [w h|key| | |new_topics|topic payload timestamp|err]; simpl in H.
  - by injection H as <- <-.
  - destruct (is_quit_key key); [by injection H as <- <-|].
    by apply Htail in H.
  - apply Htail in H. simpl in H. congruence.
  - apply Htail in H. simpl in H. congruence.
  - apply Htail in H. simpl in H. congruence.
  - apply Htail in H. simpl in H. congruence.
  - apply Htail in H. simpl in H. congruence.
Qed.

(** X11. The Subscription Set changes by toggles only, and never loses an
    entry. Whatever the message, a pass of [Update] keeps every key of the
    Subscription Set; the set differs after the pass only if the message
    is a toggle key pressed with the Topics pane focused, and then only in
    the flag of the selected topic, which is flipped. *)
Theorem X11_subscription_set_changes :
  forall (R : RangeOrder) (a : App) (msg : Msg) (a' : App) (cmds : list Cmd),
    Update R a msg = Some (a', cmds) ->
    (forall t, is_Some (subscribedTopics (ui a) !! t) ->
               is_Some (subscribedTopics (ui a') !! t))
    /\ (subscribedTopics (ui a') <> subscribedTopics (ui a) ->
        exists key topic,
          msg = KeyMsg key
          /\ is_toggle_key key
          /\ activePane (ui a) = TopicsPane
          /\ go_index (topics (ui a)) (selectedTopic (ui a)) = Some topic
          /\ subscribedTopics (ui a')
             = <[topic := negb (go_get (subscribedTopics (ui a)) topic)]>
                 (subscribedTopics (ui a))).
Proof.
  intros R a msg a' cmds Hup.
  pose proof (Update_ui_cases R a msg a' cmds Hup) as Hui.
  assert (Hsame : subscribedTopics (ui a') = subscribedTopics (ui a) ->
                  (forall t, is_Some (subscribedTopics (ui a) !! t) ->
                             is_Some (subscribedTopics (ui a') !! t))
                  /\ (subscribedTopics (ui a') <> subscribedTopics (ui a) ->
                      exists key topic,
                        msg = KeyMsg key
                        /\ is_toggle_key key
                        /\ activePane (ui a) = TopicsPane
                        /\ go_index (topics (ui a)) (selectedTopic (ui a)) = Some topic
                        /\ subscribedTopics (ui a')
                           = <[topic := negb (go_get (subscribedTopics (ui a)) topic)]>
                               (subscribedTopics (ui a)))).
  { intros ->. split; [done|]. intros Hne. by destruct Hne. }
  destruct msg as [w h|key| | |new_topics|topic payload timestamp|err].
  - apply Hsame. by rewrite Hui.
  - destruct (is_quit_key key); [apply Hsame; by rewrite Hui|].
    destruct (handleKeyPress_subscribedTopics _ _ _ Hui)
      as [Hs|(Hk & Hp & topic & Hi & Hs)]; [by apply Hsame|].
    split.
    + intros t Ht. rewrite Hs. destruct (decide (t = topic)) as [->|Hne].
      * rewrite lookup_insert_eq. by eexists.
      * by rewrite lookup_insert_ne.
    + intros _. by exists key, topic.
  - apply Hsame. by rewrite Hui.
  - apply Hsame. by rewrite Hui.
  - apply Hsame. rewrite Hui. apply subscribedTopics_SetTopics.
  - apply Hsame. rewrite Hui. apply subscribedTopics_AddMessage.
  - apply Hsame. by rewrite Hui.
Qed.

Lemma X11_subscription_set_changes_witness :
  Update map_order (app_of client_down ui_A) (KeyMsg "enter")
  = Some (app_of client_down ui_A_wanted, [])
  /\ (forall t, is_Some (subscribedTopics ui_A !! t) ->
                is_Some (subscribedTopics ui_A_wanted !! t)).
Proof.
  assert (Hup : Update map_order (app_of client_down ui_A) (KeyMsg "enter")
                = Some (app_of client_down ui_A_wanted, [])) by (by vm_compute).
  split; [exact Hup|].
  exact (proj1 (X11_subscription_set_changes map_order _ _ _ _ Hup)).
Defined.

(** X12. Quitting. From every state the keys "q" and "ctrl+c" are handled
    without a panic and without reaching the UI: the only command is
    [Quit], the UI is left as it is, the application is marked as quitting
    and the client is disconnected, so that no later pass issues a
    subscription or an unsubscription. *)
Theorem X12_quit :
  forall (R : RangeOrder) (a : App) (key : string),
    key = "q" \/ key = "ctrl+c" ->
    exists a',
      Update R a (KeyMsg key) = Some (a', [Quit])
      /\ ui a' = ui a
      /\ quitting a' = true
      /\ connected a' = false
      /\ forall msg a'' cmds t,
           Update R a' msg = Some (a'', cmds) ->
           (subscribeToTopicCmd t ∉ cmds) /\ (unsubscribeFromTopicCmd t ∉ cmds).
Proof.
  intros R a key Hkey.
  assert (Hq : is_quit_key key = true) by (destruct Hkey as [-> | ->]; reflexivity).
  simpl. rewrite Hq. eexists. split; [reflexivity|].
  split; [done|]. split; [done|].
  assert (Hc : connected {| mqtt := Disconnect <$> mqtt a; ui := ui a;
                            quitting := true |} = false).
  { unfold connected. simpl. by destruct (mqtt a). }
  split; [done|].
  intros msg a'' cmds t Hup. split; intros Hin.
  - apply (Update_subscribe_iff R _ msg a'' cmds t Hup) in Hin as (Hc' & _).
    congruence.
  - apply (Update_unsubscribe_iff R _ msg a'' cmds t Hup) in Hin as (Hc' & _).
    congruence.
Qed.

Lemma X12_quit_witness :
  ("q" = "q" \/ "q" = "ctrl+c")
  /\ exists a',
       Update map_order (app_of client_up ui_A_wanted) (KeyMsg "q")
       = Some (a', [Quit])
       /\ connected a' = false.
Proof.
  split; [by left|].
  destruct (X12_quit map_order (app_of client_up ui_A_wanted) "q")
    as (a' & H1 & _ & _ & H4 & _).
  - by left.
  - exists a'. split; [exact H1|exact H4].
Defined.

(** ** What the event loop keeps *)

Lemma View_keeps (u : UI) :
  topics (View u) = topics u
  /\ subscribedTopics (View u) = subscribedTopics u
  /\ messages (View u) = messages u
  /\ activePane (View u) = activePane u
  /\ error (View u) = error u.
Proof.
  unfold View. destruct ((width u =? 0) || (height u =? 0)); [done|].
  rewrite renderMessagesPane_shape, renderTopicsPane_shape. done.
Qed.

Lemma handleKeyPress_keeps (u : UI) (key : string) (u' : UI) :
  handleKeyPress u key = Some u' ->
  error u' = error u
  /\ topics u' = topics u
  /\ (messages u' = messages u \/ (key = "r" /\ messages u' = [])).
Proof.
  unfold handleKeyPress. intros H.
  destruct (String.eqb key "tab").
  { injection H as <-. destruct (is_TopicsPane _); simpl; auto. }
  destruct (String.eqb key "up" || String.eqb key "k").
  { injection H as <-. repeat case_match; simpl; auto. }
  destruct (String.eqb key "down" || String.eqb key "j").
  { injection H as <-. repeat case_match; simpl; auto. }
  destruct (String.eqb key "enter" || String.eqb key " ").
  { destruct (is_TopicsPane (activePane u) && (len (topics u) >? 0));
      [|injection H as <-; auto].
    destruct (go_index (topics u) (selectedTopic u)); [|done].
    injection H as <-. simpl. auto. }
  destruct (String.eqb_spec key "r") as [->|_]; injection H as <-; simpl; auto.
Qed.

(** X13. The error text is never cleared. A turn of the event loop leaves
    the error text as it is unless the message is an [MQTTErrorMsg], whose
    text replaces it behind the prefix "MQTT Error: "; so once an error has
    been recorded, an error text is shown in every later state. *)
Theorem X13_error_never_cleared :
  forall (R : RangeOrder) (a : App) (msg : Msg) (a' : App) (cmds : list Cmd),
    loop_step R a msg = Some (a', cmds) ->
    (error (ui a') = error (ui a)
     \/ exists err, msg = MQTTErrorMsg err
                    /\ error (ui a') = "MQTT Error: " +:+ err)
    /\ (error (ui a) <> "" -> error (ui a') <> "").
Proof.
  intros R a msg a' cmds Hstep. unfold loop_step in Hstep.
  destruct (Update R a msg) as [[a1 cmds1]|] eqn:Hup; [|done].
  injection Hstep as <- <-. simpl.
  destruct (View_keeps (ui a1)) as (_ & _ & _ & _ & ->).
  pose proof (Update_ui_cases R a msg a1 cmds1 Hup) as Hui.
  assert (Hcases : error (ui a1) = error (ui a)
                   \/ exists err, msg = MQTTErrorMsg err
                                  /\ error (ui a1) = "MQTT Error: " +:+ err).
  { destruct msg as [w h|key| | |new_topics|topic payload timestamp|err].
    - left. by rewrite Hui.
    - left. destruct (is_quit_key key); [by rewrite Hui|].
      by destruct (handleKeyPress_keeps _ _ _ Hui) as (-> & _).
    - left. by rewrite Hui.
    - left. by rewrite Hui.
    - left. rewrite Hui. unfold SetTopics. simpl. repeat case_match; done.
    - left. rewrite Hui. unfold AddMessage. simpl. repeat case_match; done.
    - right. exists err. split; [done|]. by rewrite Hui. }
  split; [done|]. intros Hne.
  destruct Hcases as [-> | (err & _ & ->)]; done.
Qed.

Lemma X13_error_never_cleared_witness :
  exists a',
    loop_step map_order (app_of client_up ui_A) (MQTTErrorMsg "lost")
    = Some (a', [])
    /\ (error (ui a') = error ui_A
        \/ exists err, MQTTErrorMsg "lost" = MQTTErrorMsg err
                       /\ error (ui a') = "MQTT Error: " +:+ err).
Proof.
  eexists. split; [by vm_compute|].
  refine (proj1 (X13_error_never_cleared map_order (app_of client_up ui_A)
                   (MQTTErrorMsg "lost") _ [] _)).
  by vm_compute.
Defined.

(** X14. The stream is append-only. A turn of the event loop leaves the
    Message Stream as it is, or appends the one message that arrived, or
    empties it on the reset key; no message is ever changed, reordered or
    dropped on its own. *)
Theorem X14_stream_append_only :
  forall (R : RangeOrder) (a : App) (msg : Msg) (a' : App) (cmds : list Cmd),
    loop_step R a msg = Some (a', cmds) ->
    messages (ui a') = messages (ui a)
    \/ (exists t p ts,
          msg = MQTTMessageMsg t p ts
          /\ messages (ui a')
             = messages (ui a) ++ [{| Topic := t; Payload := p; Timestamp := ts |}])
    \/ (msg = KeyMsg "r" /\ messages (ui a') = []).
Proof.
  intros R a msg a' cmds Hstep. unfold loop_step in Hstep.
  destruct (Update R a msg) as [[a1 cmds1]|] eqn:Hup; [|done].
  injection Hstep as <- <-. simpl.
  destruct (View_keeps (ui a1)) as (_ & _ & -> & _ & _).
  pose proof (Update_ui_cases R a msg a1 cmds1 Hup) as Hui.
  destruct msg as [w h|key| | |new_topics|topic payload timestamp|err].
  - left. by rewrite Hui.
  - destruct (is_quit_key key); [left; by rewrite Hui|].
    destruct (handleKeyPress_keeps _ _ _ Hui) as (_ & _ & [Hm|[-> Hm]]);
      [by left|]. right. right. done.
  - left. by rewrite Hui.
  - left. by rewrite Hui.
  - left. rewrite Hui. unfold SetTopics. simpl. repeat case_match; done.
  - right. left. exists topic, payload, timestamp. split; [done|].
    rewrite Hui. apply messages_AddMessage.
  - left. by rewrite Hui.
Qed.

Lemma X14_stream_append_only_witness :
  exists a',
    loop_step map_order (app_of client_up ui_back5) (KeyMsg "r") = Some (a', [])
    /\ (messages (ui a') = messages ui_back5
        \/ (exists t p ts,
              KeyMsg "r" = MQTTMessageMsg t p ts
              /\ messages (ui a')
                 = messages ui_back5
                   ++ [{| Topic := t; Payload := p; Timestamp := ts |}])
        \/ (KeyMsg "r" = KeyMsg "r" /\ messages (ui a') = [])).
Proof.
  eexists. split; [by vm_compute|].
  refine (X14_stream_append_only map_order (app_of client_up ui_back5)
            (KeyMsg "r") _ [] _).
  by vm_compute.
Defined.

(** X15. The event loop never panics. In every state that the event loop
    reaches from a fresh UI, every message (whose slices are Go slices) is
    handled: the index [topics[selectedTopic]] of a toggle is in range, and
    the state that results is reachable again. *)
Theorem X15_event_loop_never_panics :
  forall (R : RangeOrder) (a : App) (msg : Msg),
    reachable R a ->
    msg_fits (ui a) msg ->
    exists a' cmds,
      loop_step R a msg = Some (a', cmds)
      /\ reachable R a'
      /\ ui_invariant (ui a').
Proof.
  intros R a msg Hreach Hfit.
  pose proof (reachable_invariant R a Hreach) as Hinv.
  destruct (loop_step_invariant R a msg Hinv Hfit) as (a' & cmds & Hstep & Hinv').
  exists a', cmds. split; [done|]. split; [|done].
  by apply (reachable_step R a msg a' cmds).
Qed.

Lemma X15_event_loop_never_panics_witness :
  reachable map_order fresh_app
  /\ msg_fits (ui fresh_app) (KeyMsg "enter")
  /\ exists a' cmds,
       loop_step map_order fresh_app (KeyMsg "enter") = Some (a', cmds)
       /\ reachable map_order a'.
Proof.
  assert (Hr : reachable map_order fresh_app) by (by apply reachable_init).
  split; [exact Hr|]. split; [exact I|].
  destruct (X15_event_loop_never_panics map_order fresh_app (KeyMsg "enter") Hr I)
    as (a' & cmds & H1 & H2 & _).
  exists a', cmds. split; [exact H1|exact H2].
Defined.

(** ** The subscription diff as an operation on sets *)

(** X16. The diff depends on its two lists as sets only. Whatever the
    order and the repetitions in [oldSubscribed] and [newSubscribed], and
    whatever the iteration order of the maps, the commands are the same up
    to their order; the subscriptions come before the unsubscriptions;
    exchanging the two lists exchanges subscriptions and unsubscriptions;
    and no topic gets both a subscription and an unsubscription. *)
Theorem X16_diff_of_sets :
  forall (R R' : RangeOrder) (old new old' new' : list string),
    (forall t, t ∈ old <-> t ∈ old') ->
    (forall t, t ∈ new <-> t ∈ new') ->
    handleSubscriptionChanges R old new ≡ₚ handleSubscriptionChanges R' old' new'
    /\ (exists subs unsubs,
           handleSubscriptionChanges R old new
           = (subscribeToTopicCmd <$> subs) ++ (unsubscribeFromTopicCmd <$> unsubs))
    /\ (forall t, subscribeToTopicCmd t ∈ handleSubscriptionChanges R old new
                  <-> unsubscribeFromTopicCmd t ∈ handleSubscriptionChanges R' new' old')
    /\ (forall t, ~ (subscribeToTopicCmd t ∈ handleSubscriptionChanges R old new
                     /\ unsubscribeFromTopicCmd t ∈ handleSubscriptionChanges R old new)).
Proof.
  intros R R' old new old' new' Hold Hnew.
  split; [|split; [|split]].
  - apply NoDup_Permutation; [apply NoDup_handleSubscriptionChanges..|].
    intros c. split; intros Hc.
    + destruct (handleSubscriptionChanges_shape _ _ _ c Hc) as [t [->| ->]].
      * apply elem_of_subscribe in Hc. apply elem_of_subscribe.
        rewrite <- Hold, <- Hnew. done.
      * apply elem_of_unsubscribe in Hc. apply elem_of_unsubscribe.
        rewrite <- Hold, <- Hnew. done.
    + destruct (handleSubscriptionChanges_shape _ _ _ c Hc) as [t [->| ->]].
      * apply elem_of_subscribe in Hc. apply elem_of_subscribe.
        rewrite Hold, Hnew. done.
      * apply elem_of_unsubscribe in Hc. apply elem_of_unsubscribe.
        rewrite Hold, Hnew. done.
  - rewrite handleSubscriptionChanges_eq. eauto.
  - intros t. rewrite elem_of_subscribe, elem_of_unsubscribe.
    rewrite Hold, Hnew. done.
  - intros t [H1 H2]. apply elem_of_subscribe in H1 as [_ H1].
    apply elem_of_unsubscribe in H2 as [H2 _]. done.
Qed.

Lemma X16_diff_of_sets_witness :
  (forall t : string, t ∈ ["B"; "C"] <-> t ∈ ["C"; "B"; "C"])
  /\ (forall t : string, t ∈ ["A"; "C"] <-> t ∈ ["C"; "A"])
  /\ handleSubscriptionChanges map_order ["B"; "C"] ["A"; "C"]
     ≡ₚ handleSubscriptionChanges map_order ["C"; "B"; "C"] ["C"; "A"].
Proof.
  assert (H1 : forall t : string, t ∈ ["B"; "C"] <-> t ∈ ["C"; "B"; "C"]).
  { intros t. rewrite !elem_of_cons, elem_of_nil. tauto. }
  assert (H2 : forall t : string, t ∈ ["A"; "C"] <-> t ∈ ["C"; "A"]).
  { intros t. rewrite !elem_of_cons, elem_of_nil. tauto. }
  split; [exact H1|]. split; [exact H2|].
  exact (proj1 (X16_diff_of_sets map_order map_order _ _ _ _ H1 H2)).
Defined.

(** ** The catalog as a function of the topics discovered *)

Lemma sort_Strings_unique (l k : list string) :
  l ≡ₚ k -> sort_Strings l = sort_Strings k.
Proof.
  intros Hp. apply (Sorted_unique String.le).
  - apply Sorted_merge_sort; apply _.
  - apply Sorted_merge_sort; apply _.
  - by rewrite !sort_Strings_perm.
Qed.

Lemma sort_Strings_sorted_id (l : list string) :
  Sorted String.le l -> sort_Strings l = l.
Proof.
  intros Hs. apply (Sorted_unique String.le); [|done|apply sort_Strings_perm].
  apply Sorted_merge_sort; apply _.
Qed.

(** X17. [SetTopics] depends on the multiset of topics only, and is
    idempotent. Two lists that are permutations of each other give the same
    state, and installing once more the list, or the catalog, that was just
    installed changes nothing. The catalog installed is sorted and keeps
    every occurrence of a topic that the list holds twice. *)
Theorem X17_SetTopics_canonical :
  forall (ts ts' : list string) (u : UI),
    fits ts ->
    ts ≡ₚ ts' ->
    SetTopics ts u = SetTopics ts' u
    /\ SetTopics ts (SetTopics ts' u) = SetTopics ts u
    /\ SetTopics (topics (SetTopics ts u)) (SetTopics ts u) = SetTopics ts u
    /\ Sorted String.le (topics (SetTopics ts u))
    /\ topics (SetTopics ts u) ≡ₚ ts.
Proof.
  intros ts ts' u Hfit Hperm.
  assert (Heq : SetTopics ts u = SetTopics ts' u).
  { unfold SetTopics. by rewrite (sort_Strings_unique ts ts' Hperm). }
  assert (Hidem : forall l v, fits l -> SetTopics l (SetTopics l v) = SetTopics l v).
  { intros l v Hl. pose proof (len_nonneg l) as Hlen.
    pose proof (selectedTopic_SetTopics l v Hl) as Hsel.
    destruct (SetTopics l v) as [t1 s1 c1 st1 m1 mc1 w1 h1 p1 e1] eqn:Hv.
    assert (Ht1 : t1 = sort_Strings l).
    { pose proof (topics_SetTopics l v) as Ht. by rewrite Hv in Ht. }
    assert (Hc1 : c1 = 0).
    { pose proof (topicScroll_SetTopics l v) as Hc. by rewrite Hv in Hc. }
    simpl in Hsel. subst t1 c1.
    unfold SetTopics. simpl. rewrite len_sort_Strings.
    rewrite sub_small by range_lia. rewrite Z.geb_leb.
    assert (Hr : 0 <= s1 <= Z.max 0 (len l - 1)).
    { rewrite Hsel. destruct (Z.leb_spec (len l) (selectedTopic v)); lia. }
    destruct (Z.leb_spec (len l) s1); simpl;
      match goal with
      | |- context [Z.ltb ?x ?y] => destruct (Z.ltb_spec x y)
      end; unfold set_topicScroll, set_selectedTopic, set_topics; simpl;
      f_equal; lia. }
  split; [done|]. split; [|split; [|split]].
  - rewrite <- Heq. by apply Hidem.
  - rewrite topics_SetTopics.
    rewrite <- (Hidem ts u Hfit) at 2.
    unfold SetTopics at 1 3.
    rewrite (sort_Strings_sorted_id (sort_Strings ts)); [done|].
    apply Sorted_merge_sort; apply _.
  - rewrite topics_SetTopics. apply Sorted_merge_sort; apply _.
  - rewrite topics_SetTopics. apply sort_Strings_perm.
Qed.

Lemma X17_SetTopics_canonical_witness :
  fits ["b"; "a"; "b"]
  /\ ["b"; "a"; "b"] ≡ₚ ["b"; "b"; "a"]
  /\ SetTopics ["b"; "a"; "b"] NewUI = SetTopics ["b"; "b"; "a"] NewUI.
Proof.
  assert (Hp : ["b"; "a"; "b"] ≡ₚ ["b"; "b"; "a"]).
  { apply perm_skip, perm_swap. }
  split; [by vm_compute|]. split; [exact Hp|].
  apply (X17_SetTopics_canonical ["b"; "a"; "b"] ["b"; "b"; "a"] NewUI).
  - by vm_compute.
  - exact Hp.
Defined.

(** X18. The catalog does not depend on the order of discovery. Two
    sequences of discoveries with the same set of topics, read through any
    two iteration orders of the map, make [SetTopics] install the same
    catalog; and a topic that the client has recorded is in every later
    list of discovered topics. *)
Theorem X18_catalog_order_independent :
  forall (R R' : RangeOrder) (m0 : MQTTClient) (obs obs' : list Discovery) (u : UI),
    (forall t, t ∈ observed obs <-> t ∈ observed obs') ->
    exists ts ts',
      run_DiscoverTopicsCmd R (observe_all m0 obs) None = MQTTTopicsDiscoveredMsg ts
      /\ run_DiscoverTopicsCmd R' (observe_all m0 obs') None
         = MQTTTopicsDiscoveredMsg ts'
      /\ ts ≡ₚ ts'
      /\ SetTopics ts u = SetTopics ts' u
      /\ (forall t, is_Some (discoveredTopics m0 !! t) -> t ∈ ts)
      /\ GetDiscoveredTopics R (observe_all m0 obs) = ts.
Proof.
  intros R R' m0 obs obs' u Hsame.
  eexists _, _. split; [reflexivity|]. split; [reflexivity|].
  rewrite !foldl_snoc_all, !app_nil_l.
  assert (Hin : forall (Q : RangeOrder) (o : list Discovery) (t : string),
             t ∈ (range Q (discoveredTopics (observe_all m0 o))).*1
             <-> t ∈ observed o \/ is_Some (discoveredTopics m0 !! t)).
  { intros Q o t. rewrite list_elem_of_fmap. split.
    - intros [[k v] [-> Hkv]]. apply elem_of_range in Hkv. simpl.
      rewrite discoveredTopics_observe_all in Hkv.
      case_decide; [by left|]. right. by eexists.
    - intros Hor.
      assert (Hs : is_Some (discoveredTopics (observe_all m0 o) !! t)).
      { rewrite discoveredTopics_observe_all. case_decide; [by eexists|].
        by destruct Hor. }
      destruct Hs as [v Hv]. exists (t, v). split; [done|]. by apply elem_of_range. }
  assert (Hperm : (range R (discoveredTopics (observe_all m0 obs))).*1
                  ≡ₚ (range R' (discoveredTopics (observe_all m0 obs'))).*1).
  { apply NoDup_Permutation; [apply NoDup_fst_range..|].
    intros t. rewrite !Hin, Hsame. done. }
  split; [done|]. split; [|split].
  - unfold SetTopics. by rewrite (sort_Strings_unique _ _ Hperm).
  - intros t Ht. apply Hin. by right.
  - unfold GetDiscoveredTopics. by rewrite foldl_snoc_all, app_nil_l.
Qed.

Lemma X18_catalog_order_independent_witness :
  (forall t, t ∈ observed [("b", "x", 1); ("a", "y", 2)]
             <-> t ∈ observed [("a", "z", 3); ("b", "x", 4); ("a", "y", 5)])
  /\ exists ts ts',
       run_DiscoverTopicsCmd map_order
         (observe_all NewMQTTClient [("b", "x", 1); ("a", "y", 2)]) None
       = MQTTTopicsDiscoveredMsg ts
       /\ run_DiscoverTopicsCmd map_order
            (observe_all NewMQTTClient [("a", "z", 3); ("b", "x", 4); ("a", "y", 5)])
            None
          = MQTTTopicsDiscoveredMsg ts'
       /\ SetTopics ts NewUI = SetTopics ts' NewUI.
Proof.
  assert (H : forall t, t ∈ observed [("b", "x", 1); ("a", "y", 2)]
                        <-> t ∈ observed [("a", "z", 3); ("b", "x", 4); ("a", "y", 5)]).
  { intros t. unfold observed. simpl. rewrite !elem_of_cons, elem_of_nil. tauto. }
  split; [exact H|].
  destruct (X18_catalog_order_independent map_order map_order NewMQTTClient
              _ _ NewUI H) as (ts & ts' & H1 & H2 & _ & H4 & _).
  exists ts, ts'. split; [exact H1|]. split; [exact H2|exact H4].
Defined.

(** ** [wrapText] *)

Lemma total_len_nonneg (l : list string) : 0 <= total_len l.
Proof.
  induction l as [|w l IH]; simpl; [done|]. pose proof (slen_nonneg w). lia.
Qed.

Lemma total_len_app (l k : list string) :
  total_len (l ++ k) = total_len l + total_len k.
Proof. induction l as [|w l IH]; simpl; [done|]. rewrite IH. lia. Qed.

Lemma slen_Join (l : list string) :
  l <> [] -> slen (Join l " ") = total_len l + len l - 1.
Proof.
  induction l as [|w l IH]; [done|]. intros _.
  destruct l as [|w' l].
  - simpl. change (len [w]) with 1. lia.
  - change (Join (w :: w' :: l) " ") with (w +:+ " " +:+ Join (w' :: l) " ").
    rewrite !slen_app, IH by done. change (slen " ") with 1.
    change (total_len (w :: w' :: l)) with (slen w + total_len (w' :: l)).
    change (w :: w' :: l) with ([w] ++ w' :: l). rewrite (len_app [w]).
    change (len [w]) with 1. lia.
Qed.

Lemma len_cons {A : Type} (x : A) (l : list A) : len (x :: l) = 1 + len l.
Proof. change (x :: l) with ([x] ++ l). by rewrite len_app. Qed.

Lemma wrap_step_total (width : Z) (st : WrapState) (w : string) (rest : list string) :
  0 < width ->
  wrap_invariant st (w :: rest) ->
  exists st',
    wrap_step width st w = Some st'
    /\ wrap_invariant st' rest
    /\ (st'.1.1 <> [] \/ st'.1.2 <> []).
Proof.
  intros Hw. destruct st as [[lines cur] n]. intros [Hn Hfit].
  unfold text_fits in Hfit. rewrite total_len_app, len_app in Hfit.
  simpl in Hfit. rewrite len_cons in Hfit.
  pose proof (total_len_nonneg cur). pose proof (total_len_nonneg rest).
  pose proof (len_nonneg cur). pose proof (len_nonneg rest).
  pose proof (slen_nonneg w).
  unfold wrap_step. subst n.
  rewrite (add_small (total_len cur) (slen w)) by range_lia.
  rewrite add_small by range_lia. rewrite !Z.gtb_ltb.
  destruct (Z.ltb_spec width (total_len cur + slen w + len cur)).
  - destruct (Z.ltb_spec 0 (len cur)).
    + eexists. split; [reflexivity|]. split.
      * split; [simpl; lia|]. unfold text_fits. simpl. rewrite len_cons. lia.
      * left. simpl. by destruct lines.
    + assert (cur = []) as -> by (apply len_nil_iff; lia).
      simpl in *. change (len []) with 0 in *.
      destruct (go_prefix_facts w width) as (cut & -> & _); [lia|]. simpl.
      eexists. split; [reflexivity|]. split.
      * split; [done|]. unfold text_fits. simpl. lia.
      * left. simpl. by destruct lines.
  - eexists. split; [reflexivity|]. split.
    + split; [rewrite total_len_app; simpl; lia|].
      unfold text_fits. rewrite <- app_assoc. simpl.
      rewrite total_len_app, len_app. simpl. rewrite len_cons. lia.
    + right. simpl. by destruct cur.
Qed.

Lemma wrap_loop_total (width : Z) (words : list string) (st : WrapState) :
  0 < width ->
  wrap_invariant st words ->
  exists st',
    wrap_loop width st words = Some st'
    /\ (words <> [] -> st'.1.1 <> [] \/ st'.1.2 <> []).
Proof.
  intros Hw. revert st. induction words as [|w words IH]; intros st Hinv.
  - exists st. split; [done|]. done.
  - destruct (wrap_step_total width st w words Hw Hinv) as (st1 & Hs & Hinv1 & Hne).
    simpl. rewrite Hs. simpl.
    destruct (IH st1 Hinv1) as (st' & Hl & Hne').
    exists st'. split; [done|]. intros _.
    destruct words as [|w' words]; [|apply Hne'; done].
    simpl in Hl. by injection Hl as <-.
Qed.

(** X19. [wrapText] never panics and never returns an empty list. For
    every text and width the slice [word[:width]] is in range; a width that
    is not positive, or a text without words, gives the text itself as the
    only line; otherwise at least one line is returned. *)
Theorem X19_wrapText_total :
  forall (Fields : string -> list string) (text : string) (width : Z),
    text_fits (Fields text) ->
    exists lines,
      wrapText Fields text width = Some lines
      /\ lines <> []
      /\ (width <= 0 \/ Fields text = [] -> lines = [text]).
Proof.
  intros Fields text width Hfit. unfold wrapText.
  destruct (Z.leb_spec width 0) as [Hw|Hw].
  { exists [text]. split; [done|]. split; [done|]. done. }
  destruct (Z.eqb_spec (len (Fields text)) 0) as [H0|H0].
  { exists [text]. split; [done|]. split; [done|]. done. }
  destruct (wrap_loop_total width (Fields text) ([], [], 0) Hw)
    as ([[lines cur] n] & -> & Hne).
  { split; [done|]. done. }
  simpl. eexists. split; [reflexivity|].
  assert (Hwords : Fields text <> []) by (intros Hnil; by rewrite Hnil in H0).
  split.
  - rewrite Z.gtb_ltb. destruct (Z.ltb_spec 0 (len cur)).
    + by destruct lines.
    + assert (cur = []) as -> by (apply len_nil_iff; pose proof (len_nonneg cur); lia).
      destruct (Hne Hwords) as [?|?]; done.
  - intros [?|?]; [lia|done].
Qed.

Lemma X19_wrapText_total_witness :
  text_fits (String.words "to be or not")
  /\ exists lines,
       wrapText String.words "to be or not" 5 = Some lines /\ lines <> [].
Proof.
  split; [by vm_compute|].
  destruct (X19_wrapText_total String.words "to be or not" 5)
    as (lines & H1 & H2 & _).
  - by vm_compute.
  - exists lines. split; [exact H1|exact H2].
Defined.

Lemma wrap_loop_groups (width : Z) (words : list string) :
  0 < width ->
  Forall (fun w => 1 <= slen w <= width) words ->
  forall (groups : list (list string)) (cur : list string),
    Forall (line_ok width) groups ->
    (cur <> [] -> slen (Join cur " ") <= width) ->
    text_fits (cur ++ words) ->
    exists groups' cur' n',
      wrap_loop width ((fun g => Join g " ") <$> groups, cur, total_len cur) words
      = Some ((fun g => Join g " ") <$> groups', cur', n')
      /\ Forall (line_ok width) groups'
      /\ (cur' <> [] -> slen (Join cur' " ") <= width)
      /\ concat groups' ++ cur' = concat groups ++ cur ++ words
      /\ (words <> [] \/ cur <> [] -> cur' <> []).
Proof.
  intros Hw Hwords. induction Hwords as [|w words Hwd _ IH];
    intros groups cur Hgroups Hcur Hfit.
  - exists groups, cur, (total_len cur). split; [done|]. split; [done|].
    split; [done|]. split; [by rewrite app_nil_r|]. intros [?|?]; done.
  - unfold text_fits in Hfit. rewrite total_len_app, len_app in Hfit.
    simpl in Hfit. rewrite len_cons in Hfit.
    pose proof (total_len_nonneg cur). pose proof (total_len_nonneg words).
    pose proof (len_nonneg cur). pose proof (len_nonneg words).
    cbn [wrap_loop]. unfold wrap_step.
    rewrite (add_small (total_len cur) (slen w)) by range_lia.
    rewrite add_small by range_lia. rewrite !Z.gtb_ltb.
    destruct (Z.ltb_spec width (total_len cur + slen w + len cur)).
    + destruct (Z.ltb_spec 0 (len cur)) as [Hc|Hc].
      * assert (Hne : cur <> []) by (intros ->; by change (len []) with 0 in Hc).
        cbn [mbind option_bind].
        replace (((fun g => Join g " ") <$> groups) ++ [Join cur " "])
          with ((fun g => Join g " ") <$> (groups ++ [cur]))
          by (by rewrite fmap_app).
        destruct (IH (groups ++ [cur]) [w]) as (g' & c' & n' & Hl & Hg & Hc' & Hcat & Hne').
        { apply Forall_app. split; [done|]. constructor; [|done]. split; [done|]. by apply Hcur. }
        { intros _. simpl. lia. }
        { unfold text_fits. simpl. rewrite len_cons. lia. }
        replace (total_len [w]) with (slen w) in Hl by (simpl; lia).
        exists g', c', n'. split; [done|]. split; [done|]. split; [done|].
        split.
        -- rewrite Hcat, concat_app. simpl. rewrite app_nil_r, <- !app_assoc. done.
        -- intros _. apply Hne'. by right.
      * assert (cur = []) as -> by (apply len_nil_iff; lia).
        simpl in *. change (len []) with 0 in *. lia.
    + cbn [mbind option_bind].
      replace (total_len cur + slen w) with (total_len (cur ++ [w]))
        by (rewrite total_len_app; simpl; lia).
      destruct (IH groups (cur ++ [w])) as (g' & c' & n' & Hl & Hg & Hc' & Hcat & Hne').
      { done. }
      { intros _. rewrite slen_Join by (by destruct cur).
        rewrite total_len_app, len_app. simpl. change (len [w]) with 1. lia. }
      { unfold text_fits. rewrite <- app_assoc. simpl.
        rewrite total_len_app, len_app. simpl. rewrite len_cons. lia. }
      exists g', c', n'. split; [done|]. split; [done|]. split; [done|].
      split.
      * rewrite Hcat, <- !app_assoc. done.
      * intros _. apply Hne'. right. by destruct cur.
Qed.

(** X20. [wrapText] loses no word when every word fits. For a positive
    width and a text whose words are each at most [width] bytes long, the
    lines returned are the words of the text, in their order, grouped and
    joined by single spaces: no word is dropped, cut or repeated, no line
    is empty and no line is longer than [width]. *)
Theorem X20_wrapText_keeps_words :
  forall (Fields : string -> list string) (text : string) (width : Z),
    0 < width ->
    Fields text <> [] ->
    Forall (fun w => 1 <= slen w <= width) (Fields text) ->
    text_fits (Fields text) ->
    exists groups,
      wrapText Fields text width = Some ((fun g => Join g " ") <$> groups)
      /\ concat groups = Fields text
      /\ Forall (line_ok width) groups.
Proof.
  intros Fields text width Hw Hne Hall Hfit. unfold wrapText.
  destruct (Z.leb_spec width 0); [lia|].
  destruct (Z.eqb_spec (len (Fields text)) 0) as [H0|_].
  { by apply len_nil_iff in H0. }
  destruct (wrap_loop_groups width (Fields text) Hw Hall [] [])
    as (g' & c' & n' & Hl & Hg & Hc' & Hcat & Hne'); [done|done|done|].
  simpl in Hl. rewrite Hl. simpl.
  assert (Hcne : c' <> []) by (apply Hne'; by left).
  rewrite Z.gtb_ltb. destruct (Z.ltb_spec 0 (len c')) as [_|Hc0].
  - exists (g' ++ [c']). split; [by rewrite fmap_app|]. split.
    + rewrite concat_app. simpl. rewrite app_nil_r. done.
    + apply Forall_app. split; [done|]. constructor; [|done].
      split; [done|]. by apply Hc'.
  - exfalso. apply Hcne, len_nil_iff. pose proof (len_nonneg c'). lia.
Qed.

Lemma X20_wrapText_keeps_words_witness :
  0 < 5
  /\ String.words "to be or not" <> []
  /\ Forall (fun w => 1 <= slen w <= 5) (String.words "to be or not")
  /\ text_fits (String.words "to be or not")
  /\ exists groups,
       wrapText String.words "to be or not" 5
       = Some ((fun g => Join g " ") <$> groups)
       /\ concat groups = String.words "to be or not".
Proof.
  assert (Hall : Forall (fun w => 1 <= slen w <= 5) (String.words "to be or not")).
  { vm_compute. repeat constructor; discriminate. }
  split; [lia|]. split; [by vm_compute|]. split; [exact Hall|].
  split; [by vm_compute|].
  destruct (X20_wrapText_keeps_words String.words "to be or not" 5)
    as (groups & H1 & H2 & _).
  - lia.
  - by vm_compute.
  - exact Hall.
  - by vm_compute.
  - exists groups. split; [exact H1|exact H2].
Defined.

(** X21. [wrapText] and a word longer than the width. A word of more
    than [width] bytes that starts a line is cut to its first [width]
    bytes and the rest of it is dropped; the same word after a word that
    fits is kept whole, on a line of its own that is longer than
    [width]. *)
Theorem X21_wrapText_long_word :
  forall (Fields : string -> list string) (text w : string) (width : Z),
    0 < width < slen w ->
    text_fits (Fields text) ->
    (Fields text = [w] ->
     exists cut,
       wrapText Fields text width = Some [cut]
       /\ slen cut = width
       /\ String.prefix cut w = true)
    /\ (forall a, 1 <= slen a <= width ->
                  Fields text = [a; w] ->
                  wrapText Fields text width = Some [a; w]).
Proof.
  intros Fields text w width Hw Hfit. unfold wrapText.
  destruct (Z.leb_spec width 0); [lia|]. split.
  - intros Hf. rewrite Hf in *. unfold text_fits in Hfit. simpl in Hfit.
    change (len [w]) with 1 in *. simpl.
    change (len []) with 0.
    rewrite (add_small 0 (slen w)) by range_lia.
    rewrite add_small by range_lia. rewrite Z.gtb_ltb.
    destruct (Z.ltb_spec width (0 + slen w + 0)); [|lia]. simpl.
    destruct (go_prefix_facts w width) as (cut & -> & Hl & Hp); [lia|]. simpl.
    exists cut. done.
  - intros a Ha Hf. rewrite Hf in *. unfold text_fits in Hfit. simpl in Hfit.
    change (len [a; w]) with 2 in *. simpl.
    change (len []) with 0.
    rewrite (add_small 0 (slen a)) by range_lia.
    rewrite (add_small (0 + slen a) 0) by range_lia. rewrite Z.gtb_ltb.
    destruct (Z.ltb_spec width (0 + slen a + 0)); [lia|]. simpl.
    change (len [a]) with 1.
    rewrite (add_small (0 + slen a) (slen w)) by range_lia.
    rewrite add_small by range_lia. rewrite Z.gtb_ltb.
    destruct (Z.ltb_spec width (0 + slen a + slen w + 1)); [|lia]. simpl.
    done.
Qed.

Lemma X21_wrapText_long_word_witness :
  0 < 3 < slen "abcdef"
  /\ text_fits (String.words "abcdef")
  /\ exists cut, wrapText String.words "abcdef" 3 = Some [cut] /\ slen cut = 3.
Proof.
  split; [by vm_compute|]. split; [by vm_compute|].
  destruct (proj1 (X21_wrapText_long_word String.words "abcdef" "abcdef" 3
                     ltac:(by vm_compute) ltac:(by vm_compute)) eq_refl)
    as (cut & H1 & H2 & _).
  exists cut. split; [exact H1|exact H2].
Defined.

(** ** The layout of [View] *)

(** X22. The sizes that [View] gives the panes. For a window of [width]
    columns the topic pane is given at least 20 columns and the messages
    pane at least 30; the two widths and the 2 columns that [View] sets
    aside add up to [width] when the window has at least 52 columns, and to
    52, more than the window has, when it is narrower. The panes are given
    max(10, height-4) rows, of which at least 7 hold items. *)
Theorem X22_layout :
  forall (w h : Z),
    0 <= w <= GoInt.max_int ->
    20 <= topicsWidth w
    /\ 30 <= messagesWidth w
    /\ topicsWidth w + messagesWidth w + 2 = Z.max w 52
    /\ availableHeight h = Z.max 10 (GoInt.sub h 4)
    /\ 7 <= availableLines (availableHeight h).
Proof.
  intros w h Hw.
  assert (Ht : topicsWidth w = Z.max 20 (w ÷ 3)).
  { unfold topicsWidth. destruct (Z.ltb_spec (w ÷ 3) 20); lia. }
  assert (Hq : 3 * (w ÷ 3) <= w < 3 * (w ÷ 3) + 3).
  { rewrite Z.quot_div_nonneg by lia.
    pose proof (Z.div_mod w 3). pose proof (Z.mod_pos_bound w 3). lia. }
  assert (Hm : messagesWidth w = Z.max 30 (w - topicsWidth w - 2)).
  { unfold messagesWidth. rewrite Ht.
    rewrite (sub_small w) by range_lia. rewrite sub_small by range_lia.
    destruct (Z.ltb_spec (w - Z.max 20 (w ÷ 3) - 2) 30); lia. }
  split; [lia|]. split; [lia|]. split; [rewrite Hm, Ht; lia|].
  split; [|apply availableLines_View].
  unfold availableHeight. destruct (Z.ltb_spec (GoInt.sub h 4) 10); lia.
Qed.

Lemma X22_layout_witness :
  0 <= 40 <= GoInt.max_int
  /\ topicsWidth 40 + messagesWidth 40 + 2 = Z.max 40 52.
Proof.
  split; [by vm_compute|].
  apply (X22_layout 40 0). by vm_compute.
Defined.

(** ** The configuration *)

(** X23. The configuration read from the environment. A variable that is
    not set, or set to the empty string, gives the default; any other
    value is taken as it is. The broker address and the client identifier
    are therefore never empty, and user name and password are empty exactly
    when their variables are unset or empty. *)
Theorem X23_config_defaults :
  forall (env : gmap string string) (key defaultValue : string),
    (getEnvOrDefault env key defaultValue
     = match env !! key with
       | Some value => if decide (value = "") then defaultValue else value
       | None => defaultValue
       end)
    /\ getEnvOrDefault (delete key env) key defaultValue = defaultValue
    /\ getEnvOrDefault (<[key := ""]> env) key defaultValue = defaultValue
    /\ BrokerURL (NewApp_config env) <> ""
    /\ ClientID (NewApp_config env) <> ""
    /\ (Username (NewApp_config env) = ""
        <-> env !! "MQTT_USERNAME" = None \/ env !! "MQTT_USERNAME" = Some "")
    /\ (Password (NewApp_config env) = ""
        <-> env !! "MQTT_PASSWORD" = None \/ env !! "MQTT_PASSWORD" = Some "").
Proof.
  intros env key d.
  assert (Hget : forall e k dv,
             getEnvOrDefault e k dv
             = match e !! k with
               | Some value => if decide (value = "") then dv else value
               | None => dv
               end).
  { intros e k dv. unfold getEnvOrDefault, Getenv.
    destruct (e !! k) as [v|]; simpl; [|done].
    destruct (String.eqb_spec v ""); simpl; case_decide; done. }
  assert (Hne : forall k dv, dv <> "" -> getEnvOrDefault env k dv <> "").
  { intros k dv Hdv. rewrite Hget. destruct (env !! k); [case_decide|]; done. }
  split; [apply Hget|]. split; [by rewrite Hget, lookup_delete_eq|].
  split; [by rewrite Hget, lookup_insert_eq|].
  split; [by apply Hne|]. split; [by apply Hne|].
  assert (Hempty : forall k, getEnvOrDefault env k "" = ""
                             <-> env !! k = None \/ env !! k = Some "").
  { intros k. rewrite Hget. destruct (env !! k) as [v|].
    - case_decide as Hv; [subst v; split; auto|].
      split; [done|]. intros [?|?]; congruence.
    - split; auto. }
  split; apply Hempty.
Qed.

(** ** Connecting and discovering *)

Lemma Update_MQTTMessageMsg (R : RangeOrder) (a : App) (t p : string) (ts : Z) :
  Update R a (MQTTMessageMsg t p ts)
  = Some (set_ui (AddMessage t p ts (ui a)) a, []).
Proof.
  simpl. unfold update_ui_and_subscriptions. simpl.
  rewrite handleSubscriptionChanges_same by done.
  by destruct (connected _).
Qed.

Lemma loop_step_MQTTConnectedMsg (R : RangeOrder) (a : App) (m : MQTTClient) :
  mqtt a = Some m ->
  loop_step R a MQTTConnectedMsg
  = Some (set_ui (View (ui a)) a, [DiscoverTopicsCmd]).
Proof.
  intros Hm. unfold loop_step. rewrite Update_MQTTConnectedMsg. by rewrite Hm.
Qed.

Lemma run_loop_MQTTConnectedMsg (R : RangeOrder) (m : MQTTClient) (n : nat) :
  forall a : App,
    mqtt a = Some m ->
    exists a',
      run_loop R (replicate n MQTTConnectedMsg) a
      = Some (a', replicate n DiscoverTopicsCmd)
      /\ mqtt a' = Some m.
Proof.
  induction n as [|n IH]; intros a Hm.
  - exists a. by split.
  - destruct (IH (set_ui (View (ui a)) a) Hm) as (a' & Hrun & Hm').
    exists a'. split; [|done].
    change (replicate (S n) MQTTConnectedMsg)
      with (MQTTConnectedMsg :: replicate n MQTTConnectedMsg).
    cbn [run_loop]. rewrite (loop_step_MQTTConnectedMsg R a m Hm), Hrun.
    reflexivity.
Qed.

(** X24. From start to discovery. [NewApp] always has a client, so [Init]
    issues the connection command. A connection that fails is handled as
    an error: the text is recorded and no discovery starts. Every
    [MQTTConnectedMsg] that is handled with a client issues one topic
    discovery and changes nothing else, and nothing records that a
    discovery has been issued: [n] reports of the connection issue [n]
    discoveries. A connection that succeeds is reported by the message
    that [ConnectCmd] returns and, once a program is attached, by the one
    that [connectHandler] posts; handling the two issues the discovery
    twice. A lost connection is posted as an error, which issues no
    command, and a discovery whose wildcard subscription fails leaves the
    catalog as it is. *)
Theorem X24_connect_then_discover :
  forall (R : RangeOrder) (a : App) (m : MQTTClient) (e : string) (n : nat),
    Init NewApp = [ConnectCmd]
    /\ Update R a (run_ConnectCmd (Some e))
       = Some (set_ui (SetError ("MQTT Error: " +:+ e) (ui a)) a, [])
    /\ Update R a (run_ConnectCmd None)
       = Some (a, match mqtt a with Some _ => [DiscoverTopicsCmd] | None => [] end)
    /\ (mqtt a = Some m ->
        exists a',
          run_loop R (replicate n MQTTConnectedMsg) a
          = Some (a', replicate n DiscoverTopicsCmd)
          /\ mqtt a' = Some m)
    /\ connectHandler NewMQTTClient = None
    /\ connectHandler (SetProgram m) = Some MQTTConnectedMsg
    /\ (mqtt a = Some (SetProgram m) ->
        exists a',
          run_loop R (run_ConnectCmd None
                      :: option_list (connectHandler (SetProgram m))) a
          = Some (a', [DiscoverTopicsCmd; DiscoverTopicsCmd]))
    /\ connectionLostHandler (SetProgram m) e = Some (MQTTErrorMsg e)
    /\ exists a',
         Update R a (run_DiscoverTopicsCmd R m (Some e)) = Some (a', [])
         /\ topics (ui a') = topics (ui a)
         /\ selectedTopic (ui a') = selectedTopic (ui a)
         /\ error (ui a') = "MQTT Error: " +:+ e.
Proof.
  intros R a m e n. split; [reflexivity|].
  split; [apply Update_MQTTErrorMsg|].
  split; [apply Update_MQTTConnectedMsg|].
  split; [apply run_loop_MQTTConnectedMsg|].
  split; [reflexivity|]. split; [reflexivity|].
  split.
  { intros Hm.
    destruct (run_loop_MQTTConnectedMsg R (SetProgram m) 2 a Hm) as (a' & Hrun & _).
    exists a'. exact Hrun. }
  split; [reflexivity|].
  eexists. split; [apply Update_MQTTErrorMsg|]. done.
Qed.

(** X25. Discovery delivers every message to the stream. The handler of
    the wildcard subscription records the topic of each message, also one
    it has recorded before, and, when a program is attached, posts the
    message to the event loop, where it is appended to the Message Stream
    whether or not the topic has a desired flag; without a program the
    message is dropped and the topic is recorded all the same. *)
Theorem X25_discovery_delivers_messages :
  forall (R : RangeOrder) (a : App) (m : MQTTClient) (t p : string) (now : Z),
    let m' := (discoveryHandler m t p now).1 in
    discoveredTopics m' !! t = Some true
    /\ (forall t', is_Some (discoveredTopics m !! t') ->
                   is_Some (discoveredTopics m' !! t'))
    /\ (discoveryHandler m' t p now).1 = m'
    /\ (program m = false -> (discoveryHandler m t p now).2 = None)
    /\ (program m = true ->
        exists msg a',
          (discoveryHandler m t p now).2 = Some msg
          /\ Update R a msg = Some (a', [])
          /\ messages (ui a')
             = messages (ui a) ++ [{| Topic := t; Payload := p; Timestamp := now |}]
          /\ subscribedTopics (ui a') = subscribedTopics (ui a)).
Proof.
  intros R a m t p now. cbv zeta. simpl.
  split; [apply lookup_insert_eq|]. split; [|split; [|split]].
  - intros t' Ht'. destruct (decide (t = t')) as [->|Hne].
    + rewrite lookup_insert_eq. by eexists.
    + by rewrite lookup_insert_ne.
  - by rewrite insert_insert_eq.
  - unfold messageHandler. simpl. by intros ->.
  - unfold messageHandler. simpl. intros ->.
    eexists _, _. split; [reflexivity|].
    split; [apply Update_MQTTMessageMsg|]. simpl.
    split; [apply messages_AddMessage|apply subscribedTopics_AddMessage].
Qed.
